(** * AutoStatAgent: question generation, test selection and answering

    A shallow embedding of the decision logic of
    [agents/hypothesis_testing.py], [agents/question_generator.py] and
    [agents/answer_generator.py], of the test by which [main.py] and
    [app.py] pick the hypothesis results among the answers, and of the
    loop of [agents/report_generator.py] that lays out the figures.

    Python floats are IEEE binary64 numbers, modelled by Rocq's primitive
    floats.  Python strings are modelled by [string], holding the UTF-8
    encoding of the text; quoting, substring search and concatenation act
    on it exactly as on code points, because no byte of a multi-byte
    sequence is an ASCII character.  Lower-casing and the word class of
    the regular expressions are exact on ASCII text (see [lower] and
    [is_word] for the other characters); what depends on them is stated
    for ASCII text, or holds whatever Python does with the other
    characters.  The numerical routines of pandas and
    SciPy and the global random generator are an interface ([Lib]); the
    control flow around them is the program's own. *)

From Stdlib Require Import Floats String Ascii List ZArith Lia Bool.
From Stdlib Require Import DecimalString PeanoNat.
Import ListNotations.
Set Warnings "-inexact-float".

Local Open Scope string_scope.
Local Open Scope list_scope.

(** ** Strings *)

Definition quote : ascii := "'"%char.
Definition nl : string := String "010"%char "".

(** An f-string is the concatenation of its literal and formatted parts. *)
Fixpoint fstr (parts : list string) : string :=
  match parts with
  | [] => ""
  | p :: rest => String.append p (fstr rest)
  end.

(** [needle in hay]. *)
Fixpoint contains (needle hay : string) : bool :=
  String.prefix needle hay ||
  match hay with
  | EmptyString => false
  | String _ rest => contains needle rest
  end.

Definition is_upper (c : ascii) : bool :=
  let n := nat_of_ascii c in ((65 <=? n) && (n <=? 90))%nat.
Definition is_lower (c : ascii) : bool :=
  let n := nat_of_ascii c in ((97 <=? n) && (n <=? 122))%nat.
Definition is_digit (c : ascii) : bool :=
  let n := nat_of_ascii c in ((48 <=? n) && (n <=? 57))%nat.

Definition lower_char (c : ascii) : ascii :=
  if is_upper c then ascii_of_nat (nat_of_ascii c + 32) else c.
Definition upper_char (c : ascii) : ascii :=
  if is_lower c then ascii_of_nat (nat_of_ascii c - 32) else c.

Fixpoint map_string (f : ascii -> ascii) (s : string) : string :=
  match s with
  | EmptyString => EmptyString
  | String c rest => String (f c) (map_string f rest)
  end.

(** Every character of the text is an ASCII character. *)
Fixpoint ascii_text (s : string) : bool :=
  match s with
  | EmptyString => true
  | String c rest => (nat_of_ascii c <? 128)%nat && ascii_text rest
  end.

(** The character occurs in the text. *)
Fixpoint occurs (c : ascii) (s : string) : bool :=
  match s with
  | EmptyString => false
  | String a rest => Ascii.eqb a c || occurs c rest
  end.

(** [s.lower()] and [s.upper()]: exact on ASCII text.  The bytes of other
    characters are kept, where Python maps the capital letters of other
    scripts to their small letters (and two of them, the Kelvin sign and
    the dotted capital I, to ASCII letters); what is proved of a text
    through [lower] is stated for ASCII text, or holds whatever Python
    does with the other characters. *)
Definition lower (s : string) : string := map_string lower_char s.
Definition upper (s : string) : string := map_string upper_char s.

(** The class [\w] of the regular expressions: exact on ASCII characters
    (letters, digits and the underscore).  A byte outside ASCII counts as
    a word character, as the letters and digits of other scripts do in
    Python; the signs and punctuation outside ASCII, which Python leaves
    out of [\w], count too, so that on such a text a match of the model
    is a match in Python, but not the converse. *)
Definition is_word (c : ascii) : bool :=
  is_upper c || is_lower c || is_digit c
  || (nat_of_ascii c =? 95)%nat || (128 <=? nat_of_ascii c)%nat.

Definition is_word_opt (c : option ascii) : bool :=
  match c with Some a => is_word a | None => false end.

(** [\b] between two neighbouring positions ([None] is an end of the text). *)
Definition word_boundary (before after : option ascii) : bool :=
  xorb (is_word_opt before) (is_word_opt after).

Definition head_char (s : string) : option ascii :=
  match s with EmptyString => None | String c _ => Some c end.

Fixpoint strip_prefix (p s : string) : option (option ascii * string) :=
  match p, s with
  | EmptyString, _ => Some (None, s)
  | String a EmptyString, String b rest =>
      if Ascii.eqb a b then Some (Some b, rest) else None
  | String a p', String b rest =>
      if Ascii.eqb a b then strip_prefix p' rest else None
  | String _ _, EmptyString => None
  end.

(** Does [\bw\b] match with [w] starting at the head of [s]? *)
Definition word_here (before : option ascii) (w s : string) : bool :=
  word_boundary before (head_char s) &&
  match strip_prefix w s with
  | Some (last, rest) =>
      word_boundary (match last with Some c => Some c | None => before end)
                    (head_char rest)
  | None => false
  end.

Fixpoint search_word_from (before : option ascii) (w s : string) : bool :=
  word_here before w s ||
  match s with
  | EmptyString => false
  | String c rest => search_word_from (Some c) w rest
  end.

(** [re.search(r"\bw\b", s)] as a truth value. *)
Definition search_word (w s : string) : bool := search_word_from None w s.

(** [re.findall(r"'([^']+)'", q)]: one pass over the text.  [open] is
    [None] outside a candidate match and [Some acc] after an opening quote,
    [acc] being the characters read since, latest first.  A quote that
    follows an opening quote at once cannot close it and is tried as the
    next opening quote; an opening quote with no closing one matches
    nothing, and nothing after it can. *)
Fixpoint rev_string (acc : list ascii) (tail : string) : string :=
  match acc with
  | [] => tail
  | c :: rest => rev_string rest (String c tail)
  end.

Fixpoint findall_quoted (open : option (list ascii)) (s : string) : list string :=
  match s with
  | EmptyString => []
  | String c rest =>
      if Ascii.eqb c quote then
        match open with
        | None => findall_quoted (Some []) rest
        | Some [] => findall_quoted (Some []) rest
        | Some acc => rev_string acc "" :: findall_quoted None rest
        end
      else
        match open with
        | None => findall_quoted None rest
        | Some acc => findall_quoted (Some (c :: acc)) rest
        end
  end.

(** [str(n)] of a non-negative integer. *)
Definition str_nat (n : nat) : string :=
  NilZero.string_of_uint (Nat.to_uint n).

(** [repr(s)] of a string: between single quotes, or between double quotes
    when the text holds a single quote and no double quote; the quote in
    use and the backslash are escaped, tab, newline and return are written
    [\t], [\n], [\r], and the other control characters of ASCII as
    [\xhh].  Characters outside ASCII are kept, as Python keeps the
    printable ones. *)
Definition double_quote : ascii := ascii_of_nat 34.
Definition backslash : ascii := ascii_of_nat 92.

Definition hex_digit (n : nat) : ascii :=
  nth n (list_ascii_of_string "0123456789abcdef") "0"%char.

Definition repr_char (q c : ascii) : string :=
  let n := nat_of_ascii c in
  if Ascii.eqb c q || Ascii.eqb c backslash then String backslash (String c "")
  else if (n =? 9)%nat then String backslash "t"
  else if (n =? 10)%nat then String backslash "n"
  else if (n =? 13)%nat then String backslash "r"
  else if (n <? 32)%nat || (n =? 127)%nat then
    String backslash
      (String "x" (String (hex_digit (n / 16))
                          (String (hex_digit (n mod 16)) "")))
  else String c "".

Fixpoint repr_body (q : ascii) (s : string) : string :=
  match s with
  | EmptyString => ""
  | String c rest => String.append (repr_char q c) (repr_body q rest)
  end.

Definition py_repr (s : string) : string :=
  let q := if occurs quote s && negb (occurs double_quote s)
           then double_quote else quote in
  String q (String.append (repr_body q s) (String q "")).

(** ** Floats *)

Definition float_of_nat (n : nat) : float :=
  PrimFloat.of_uint63 (Uint63.of_Z (Z.of_nat n)).

Definition float_of_Z (z : Z) : float :=
  if (z <? 0)%Z
  then PrimFloat.opp (PrimFloat.of_uint63 (Uint63.of_Z (- z)))
  else PrimFloat.of_uint63 (Uint63.of_Z z).

Definition fgt (x y : float) : bool := PrimFloat.ltb y x.   (* x > y *)
Definition flt (x y : float) : bool := PrimFloat.ltb x y.   (* x < y *)

Fixpoint zeros (n : nat) : string :=
  match n with
  | O => ""
  | S k => String "0"%char (zeros k)
  end.

Definition pad_zeros (width : nat) (s : string) : string :=
  String.append (zeros (width - String.length s)) s.

(** [round(m * 2^e * 10^d)] to the nearest integer, ties to even. *)
Definition scaled_round (m : positive) (e : Z) (d : nat) : Z :=
  let num := (Z.pos m * 10 ^ Z.of_nat d)%Z in
  if (0 <=? e)%Z then (num * 2 ^ e)%Z
  else
    let den := (2 ^ (- e))%Z in
    let q := (num / den)%Z in
    let r := (num mod den)%Z in
    if (den <? 2 * r)%Z then (q + 1)%Z
    else if (den =? 2 * r)%Z then (if Z.even q then q else q + 1)%Z
    else q.

Definition fixed_digits (n : Z) (d : nat) : string :=
  let scale := (10 ^ Z.of_nat d)%Z in
  let ip := str_nat (Z.to_nat (n / scale)) in
  match d with
  | O => ip
  | _ => fstr [ip; "."; pad_zeros d (str_nat (Z.to_nat (n mod scale)))]
  end.

(** [f"{x:.df}"]: fixed-point notation with [d] digits after the point,
    rounded from the exact binary value. *)
Definition fmt_fixed (d : nat) (x : float) : string :=
  match Prim2SF x with
  | S754_nan => "nan"
  | S754_infinity s => if s then "-inf" else "inf"
  | S754_zero s => fstr [if s then "-" else ""; fixed_digits 0 d]
  | S754_finite s m e =>
      fstr [if s then "-" else ""; fixed_digits (scaled_round m e d) d]
  end.

(** ** Results and exceptions *)

(** A call returns a value or raises; of an exception only [str(e)] is
    ever read. *)
Inductive res (A : Type) : Type :=
| Ok (a : A)
| Raise (msg : string).
Arguments Ok {A} a.
Arguments Raise {A} msg.

Definition res_bind {A B} (c : res A) (k : A -> res B) : res B :=
  match c with
  | Ok a => k a
  | Raise e => Raise e
  end.

(** ** Data frames *)

(** The dtypes of the columns.  [Category] is a categorical column whose
    categories are its distinct values in sorted order, as
    [astype('category')] makes them; a categorical column with categories
    listed in another order is outside the frames modelled here. *)
Inductive dtype : Type :=
| Int64 | Float64 | Boolean | Object | Category
| Datetime | DatetimeTZ | Timedelta.

(** A cell of a column; a NaN in a float column is a missing value too. *)
Inductive cell : Type :=
| NA
| Num (x : float)
| Str (s : string)
| Stamp (t : Z)
| Flag (b : bool).

Record Series : Type := mkSeries { dtype_of : dtype; values : list cell }.

(** The columns in order, each under its name; column names are unique
    and all columns have the same number of rows. *)
Definition DataFrame : Type := list (string * Series).

Definition column_names (df : DataFrame) : list string := map fst df.

(** [pd.api.types.is_numeric_dtype]. *)
Definition is_numeric_dtype (s : Series) : bool :=
  match dtype_of s with
  | Int64 | Float64 | Boolean => true
  | _ => false
  end.

(** [pd.api.types.is_categorical_dtype]. *)
Definition is_categorical_dtype (s : Series) : bool :=
  match dtype_of s with Category => true | _ => false end.

Definition is_object (s : Series) : bool :=
  match dtype_of s with Object => true | _ => false end.

(** The three selections of [select_dtypes].  ['number'] selects the
    columns of time differences too (their NumPy type is a subclass of
    the signed integers), which [is_numeric_dtype] rejects. *)
Definition sel_number (d : dtype) : bool :=
  match d with Int64 | Float64 | Timedelta => true | _ => false end.
Definition sel_object_category (d : dtype) : bool :=
  match d with Object | Category => true | _ => false end.
Definition sel_datetime (d : dtype) : bool :=
  match d with Datetime | DatetimeTZ => true | _ => false end.

(** [df.select_dtypes(include=...).columns.tolist()]. *)
Definition select_dtypes (sel : dtype -> bool) (df : DataFrame) : list string :=
  map fst (filter (fun c => sel (dtype_of (snd c))) df).

(** [df[c]]: a missing name raises [KeyError], whose text is the [repr] of
    the name. *)
Fixpoint frame_get (df : DataFrame) (c : string) : res Series :=
  match df with
  | [] => Raise (py_repr c)
  | (n, s) :: rest => if String.eqb n c then Ok s else frame_get rest c
  end.

(** [len(df)]. *)
Definition n_rows (df : DataFrame) : nat :=
  match df with
  | [] => 0
  | (_, s) :: _ => length (values s)
  end.

Definition isnull (c : cell) : bool :=
  match c with
  | NA => true
  | Num x => PrimFloat.is_nan x
  | _ => false
  end.

Definition dropna (v : list cell) : list cell :=
  filter (fun c => negb (isnull c)) v.

(** The number a cell compares as; what is no number compares false with
    everything. *)
Definition cell_float (c : cell) : float :=
  match c with
  | Num x => x
  | Flag b => if b then 1%float else 0%float
  | _ => PrimFloat.nan
  end.

(** Equality of cells as grouping and [duplicated] see it: two missing
    values are alike. *)
Definition cell_same (a b : cell) : bool :=
  match a, b with
  | Num x, Num y =>
      PrimFloat.eqb x y || (PrimFloat.is_nan x && PrimFloat.is_nan y)
  | Str s, Str t => String.eqb s t
  | Stamp s, Stamp t => Z.eqb s t
  | Flag s, Flag t => Bool.eqb s t
  | NA, NA => true
  | NA, Num y => PrimFloat.is_nan y
  | Num x, NA => PrimFloat.is_nan x
  | _, _ => false
  end.

Definition cell_rank (c : cell) : nat :=
  match c with
  | NA => 0 | Flag _ => 1 | Num _ => 2 | Stamp _ => 3 | Str _ => 4
  end.

(** The order in which group keys are sorted (strings by code point). *)
Definition cell_leb (a b : cell) : bool :=
  match a, b with
  | Num x, Num y => PrimFloat.leb x y
  | Str s, Str t => String.leb s t
  | Stamp s, Stamp t => Z.leb s t
  | Flag s, Flag t => implb s t
  | _, _ => Nat.leb (cell_rank a) (cell_rank b)
  end.

Fixpoint insert_key (k : cell) (ks : list cell) : list cell :=
  match ks with
  | [] => [k]
  | k' :: rest =>
      if cell_same k k' then ks
      else if cell_leb k k' then k :: ks
      else k' :: insert_key k rest
  end.

(** The distinct non-missing keys of a column, sorted: the order in which
    [groupby] yields the groups (for a categorical column, the order of
    its categories). *)
Definition group_keys (keys : list cell) : list cell :=
  fold_left (fun acc k => insert_key k acc) (dropna keys) [].

(** The cells of [vals] in the rows whose key is [k]. *)
Definition rows_of_key (k : cell) (keys vals : list cell) : list cell :=
  map snd (filter (fun kv => cell_same (fst kv) k) (combine keys vals)).

Fixpoint res_map {A B} (f : A -> res B) (l : list A) : res (list B) :=
  match l with
  | [] => Ok []
  | a :: rest =>
      res_bind (f a) (fun b =>
      res_bind (res_map f rest) (fun bs => Ok (b :: bs)))
  end.

(** [[group[num_col].dropna() for _, group in
      df.groupby(cat_col, observed=True)]]. *)
Definition grouped_values (df : DataFrame) (cat_col num_col : string)
  : res (list (list cell)) :=
  res_bind (frame_get df cat_col) (fun cat =>
  res_map (fun k =>
             res_bind (frame_get df num_col) (fun num =>
             Ok (dropna (rows_of_key k (values cat) (values num)))))
          (group_keys (values cat))).

(** [pd.crosstab(a, b)]: the counts of the pairs of values, over the rows
    where neither is missing. *)
Definition complete_pairs (a b : list cell) : list (cell * cell) :=
  filter (fun p => negb (isnull (fst p)) && negb (isnull (snd p)))
         (combine a b).

Definition crosstab (a b : list cell) : list (list nat) :=
  let ps := complete_pairs a b in
  map (fun rk =>
         map (fun ck =>
                length (filter (fun p => cell_same (fst p) rk
                                         && cell_same (snd p) ck) ps))
             (group_keys (map snd ps)))
      (group_keys (map fst ps)).

Definition table_rows (t : list (list nat)) : nat := length t.
Definition table_cols (t : list (list nat)) : nat :=
  match t with [] => 0 | row :: _ => length row end.
Definition table_empty (t : list (list nat)) : bool :=
  (table_rows t =? 0)%nat || (table_cols t =? 0)%nat.
Definition table_total (t : list (list nat)) : nat :=
  list_sum (map (@list_sum) t).

(** [df.duplicated().sum()]: the rows equal to an earlier row. *)
Fixpoint transpose_rows (n : nat) (cols : list (list cell)) : list (list cell) :=
  match n with
  | O => []
  | S k => map (fun c => hd NA c) cols :: transpose_rows k (map (@tl cell) cols)
  end.

Definition frame_rows (df : DataFrame) : list (list cell) :=
  transpose_rows (n_rows df) (map (fun c => values (snd c)) df).

Fixpoint row_same (a b : list cell) : bool :=
  match a, b with
  | [], [] => true
  | x :: a', y :: b' => cell_same x y && row_same a' b'
  | _, _ => false
  end.

Fixpoint count_duplicated (seen rows : list (list cell)) : nat :=
  match rows with
  | [] => 0
  | r :: rest =>
      (if existsb (row_same r) seen then 1 else 0)
      + count_duplicated (r :: seen) rest
  end.

Definition duplicated_sum (df : DataFrame) : nat :=
  count_duplicated [] (frame_rows df).

(** [s.isnull().mean() * 100]. *)
Definition missing_pct (v : list cell) : float :=
  PrimFloat.mul
    (PrimFloat.div (float_of_nat (length (filter isnull v)))
                   (float_of_nat (length v)))
    100%float.

(** [s.nunique()]. *)
Definition nunique (v : list cell) : nat := length (group_keys v).

(** [((s < lo) | (s > hi)).sum()]. *)
Definition count_outside (lo hi : float) (v : list cell) : nat :=
  length (filter (fun c => flt (cell_float c) lo || fgt (cell_float c) hi) v).

(** ** The statistical library and the random generator

    What pandas and SciPy compute on a column, each call returning or
    raising, and the process-wide generator that [Series.sample] draws
    from: [draw len n] picks the positions of a sample of [n] rows out of
    [len] and moves the generator on. *)
Inductive corr_method : Type := Pearson | Spearman.

Class Lib : Type := {
  rng : Type;
  draw : nat -> nat -> rng -> list nat * rng;
  shapiro : list cell -> res (float * float);
  ttest_ind : list cell -> list cell -> res (float * float);
  mannwhitneyu : list cell -> list cell -> res (float * float);
  f_oneway : list (list cell) -> res (float * float);
  kruskal : list (list cell) -> res (float * float);
  chi2_contingency : list (list nat) -> res (float * float);
  pearsonr : list cell -> list cell -> res (float * float);
  spearmanr : list cell -> list cell -> res (float * float);
  series_mean : list cell -> res float;
  series_std : list cell -> res float;
  series_skew : list cell -> res float;
  series_kurtosis : list cell -> res float;
  series_quantile : float -> list cell -> res float;
  series_corr : corr_method -> list cell -> list cell -> res float;
  float_str : float -> string
}.

(** What the program relies on from the library: a sample is drawn without
    replacement from the rows, and SciPy's correlation routines refuse two
    arrays of different lengths. *)
Record draw_ok `{Lib} : Prop := {
  draw_length : forall len n r, n <= len -> length (fst (draw len n r)) = n;
  draw_nodup : forall len n r, n <= len -> NoDup (fst (draw len n r));
  draw_range : forall len n r i,
    n <= len -> In i (fst (draw len n r)) -> i < len
}.

Record equal_lengths_required `{Lib} : Prop := {
  pearsonr_lengths : forall x y,
    length x <> length y -> exists e, pearsonr x y = Raise e;
  spearmanr_lengths : forall x y,
    length x <> length y -> exists e, spearmanr x y = Raise e
}.

(** ** Computations: generator state and exceptions

    A computation reads and moves the random generator and returns or
    raises; the generator keeps what was drawn before an exception. *)
Definition M `{Lib} (A : Type) : Type := rng -> res A * rng.

Definition ret `{Lib} {A} (a : A) : M A := fun r => (Ok a, r).
Definition raise `{Lib} {A} (e : string) : M A := fun r => (Raise e, r).
Definition lift `{Lib} {A} (c : res A) : M A := fun r => (c, r).
Definition bind `{Lib} {A B} (c : M A) (k : A -> M B) : M B :=
  fun r =>
    match c r with
    | (Ok a, r') => k a r'
    | (Raise e, r') => (Raise e, r')
    end.

(** [try: c  except Exception as e: h e]. *)
Definition try_except `{Lib} {A} (c : M A) (h : string -> M A) : M A :=
  fun r =>
    match c r with
    | (Ok a, r') => (Ok a, r')
    | (Raise e, r') => h e r'
    end.

Declare Scope comp_scope.
Delimit Scope comp_scope with comp.
Notation "x <- c ;; k" := (bind c (fun x => k))
  (at level 61, c at next level, right associativity) : comp_scope.
Notation "' pat <- c ;; k" := (bind c (fun x => match x with pat => k end))
  (at level 61, pat pattern, c at next level, right associativity) : comp_scope.
Local Open Scope comp_scope.

(** A [for] loop threading its variables [s] through the body. *)
Fixpoint for_each `{Lib} {A S} (body : S -> A -> M S) (l : list A) (s : S) : M S :=
  match l with
  | [] => ret s
  | a :: rest => s' <- body s a ;; for_each body rest s'
  end.

(** [all(f(x) for x in l)]: stops at the first false. *)
Fixpoint all_of `{Lib} {A} (f : A -> M bool) (l : list A) : M bool :=
  match l with
  | [] => ret true
  | a :: rest => b <- f a ;; if b then all_of f rest else ret false
  end.

(** [a, b = cols] and [cols[0]]. *)
Definition unpack2 (cols : list string) : res (string * string) :=
  match cols with
  | [a; b] => Ok (a, b)
  | _ :: _ :: _ :: _ => Raise "too many values to unpack (expected 2)"
  | _ => Raise "not enough values to unpack (expected 2)"
  end.

Definition first_of (cols : list string) : res string :=
  match cols with
  | a :: _ => Ok a
  | [] => Raise "list index out of range"
  end.

(** ** [agents/hypothesis_testing.py] *)

Section HypothesisTesting.
Context `{L : Lib}.

Definition hypothesis_text (test_type col1 col2 : string) : string * string :=
  if String.eqb test_type "t-test" then
    (fstr ["H₀: The mean of '"; col1; "' is equal across the two groups in '"; col2; "'."],
     fstr ["H₁: The mean of '"; col1; "' is different across the two groups in '"; col2; "'."])
  else if String.eqb test_type "anova" then
    (fstr ["H₀: The mean of '"; col1; "' is equal across all groups in '"; col2; "'."],
     fstr ["H₁: At least one group mean of '"; col1; "' in '"; col2; "' is different."])
  else if String.eqb test_type "mann-whitney" then
    (fstr ["H₀: The distribution of '"; col1; "' is the same across the two groups in '"; col2; "'."],
     fstr ["H₁: The distribution of '"; col1; "' differs between the two groups in '"; col2; "'."])
  else if String.eqb test_type "kruskal" then
    (fstr ["H₀: The distribution of '"; col1; "' is the same across all groups in '"; col2; "'."],
     fstr ["H₁: At least one group distribution of '"; col1; "' in '"; col2; "' is different."])
  else if String.eqb test_type "chi-square" then
    (fstr ["H₀: '"; col1; "' and '"; col2; "' are independent."],
     fstr ["H₁: '"; col1; "' and '"; col2; "' are not independent."])
  else if String.eqb test_type "correlation" then
    (fstr ["H₀: There is no correlation between '"; col1; "' and '"; col2; "'."],
     fstr ["H₁: There is a correlation between '"; col1; "' and '"; col2; "'."])
  else ("", "").

(** Effect sizes ([x ** 2] is the product [x * x]). *)
Definition cohens_d (group1 group2 : list cell) : res float :=
  res_bind (series_mean group1) (fun m1 =>
  res_bind (series_mean group2) (fun m2 =>
  let diff := PrimFloat.sub m1 m2 in
  res_bind (series_std group1) (fun s1 =>
  res_bind (series_std group2) (fun s2 =>
  let pooled_std :=
    PrimFloat.sqrt
      (PrimFloat.div (PrimFloat.add (PrimFloat.mul s1 s1) (PrimFloat.mul s2 s2))
                     2%float) in
  Ok (if negb (PrimFloat.eqb pooled_std 0%float)
      then PrimFloat.div diff pooled_std
      else PrimFloat.nan))))).

Definition eta_squared_anova (stat : float) (df_between df_within : Z) : float :=
  let num := PrimFloat.mul stat (float_of_Z df_between) in
  PrimFloat.div num (PrimFloat.add num (float_of_Z df_within)).

Definition cramers_v (confusion_matrix : list (list nat)) : res float :=
  res_bind (chi2_contingency confusion_matrix) (fun '(chi2, _) =>
  let n := table_total confusion_matrix in
  let phi2 := PrimFloat.div chi2 (float_of_nat n) in
  let r := Z.of_nat (table_rows confusion_matrix) in
  let k := Z.of_nat (table_cols confusion_matrix) in
  Ok (PrimFloat.sqrt (PrimFloat.div phi2 (float_of_Z (Z.min (k - 1) (r - 1)))))).

(** [series.sample(n)]: the rows at the drawn positions. *)
Definition sample (series : list cell) (n : nat) : M (list cell) :=
  fun r =>
    let (idx, r') := draw (length series) n r in
    (Ok (map (fun i => nth i series NA) idx), r').

Definition is_normal (series : list cell) : M bool :=
  if (length series <? 3)%nat then ret false
  else
    sub <- sample series (Nat.min 500 (length series)) ;;
    '(_, p) <- lift (shapiro sub) ;;
    ret (fgt p 0.05%float).

(** The values a test result holds, and what a test returns: the result
    dictionary, listed in the order of its keys, or a message. *)
Inductive pyval : Type :=
| VStr (s : string)
| VFloat (x : float)
| VNone
| VPair (a b : string).

Inductive test_out : Type :=
| RDict (d : list (string * pyval))
| RStr (s : string).

Definition significance (p alpha : float) : string :=
  if flt p alpha then "Significant" else "Not significant".

Definition test_numeric_categorical (df : DataFrame) (cat_col num_col : string)
    (alpha : float) : M test_out :=
  groups <- lift (grouped_values df cat_col num_col) ;;
  if (length groups <? 2)%nat then
    ret (RStr "Not enough groups for hypothesis testing.")
  else
    '(stat, p, effect, test_type) <-
      (if (length groups =? 2)%nat then
         normal <- all_of is_normal groups ;;
         if normal then
           '(stat, p) <- lift (ttest_ind (nth 0 groups []) (nth 1 groups [])) ;;
           effect <- lift (cohens_d (nth 0 groups []) (nth 1 groups [])) ;;
           ret (stat, p, VFloat effect, "t-test")
         else
           '(stat, p) <- lift (mannwhitneyu (nth 0 groups []) (nth 1 groups [])) ;;
           ret (stat, p, VNone, "mann-whitney")
       else
         normal <- all_of is_normal groups ;;
         if normal then
           '(stat, p) <- lift (f_oneway groups) ;;
           ret (stat, p,
                VFloat (eta_squared_anova stat
                          (Z.of_nat (length groups) - 1)
                          (Z.of_nat (n_rows df) - Z.of_nat (length groups))),
                "anova")
         else
           '(stat, p) <- lift (kruskal groups) ;;
           ret (stat, p, VNone, "kruskal")) ;;
    let '(h0, h1) := hypothesis_text test_type num_col cat_col in
    ret (RDict [("test", VStr (upper test_type));
                ("columns", VPair num_col cat_col);
                ("H0", VStr h0);
                ("H1", VStr h1);
                ("stat", VFloat stat);
                ("p_value", VFloat p);
                ("alpha", VFloat alpha);
                ("significance", VStr (significance p alpha));
                ("effect_size", effect)]).

Definition test_categorical_categorical (df : DataFrame) (cat1 cat2 : string)
    (alpha : float) : M test_out :=
  a <- lift (frame_get df cat1) ;;
  b <- lift (frame_get df cat2) ;;
  let contingency_table := crosstab (values a) (values b) in
  if table_empty contingency_table then
    ret (RStr "Contingency table is empty or invalid.")
  else
    '(stat, p) <- lift (chi2_contingency contingency_table) ;;
    effect <- lift (cramers_v contingency_table) ;;
    let '(h0, h1) := hypothesis_text "chi-square" cat1 cat2 in
    ret (RDict [("test", VStr "Chi-square");
                ("columns", VPair cat1 cat2);
                ("H0", VStr h0);
                ("H1", VStr h1);
                ("stat", VFloat stat);
                ("p_value", VFloat p);
                ("alpha", VFloat alpha);
                ("significance", VStr (significance p alpha));
                ("effect_size_cramers_v", VFloat effect)]).

Definition method_name (m : corr_method) : string :=
  match m with Pearson => "Pearson" | Spearman => "Spearman" end.

Definition correlation_strength (stat : float) : string :=
  if fgt (PrimFloat.abs stat) 0.7%float then "Strong"
  else if fgt (PrimFloat.abs stat) 0.3%float then "Moderate"
  else "Weak".

Definition test_numeric_numeric (df : DataFrame) (col1 col2 : string)
    (alpha : float) : M test_out :=
  c1 <- lift (frame_get df col1) ;;
  c2 <- lift (frame_get df col2) ;;
  let series1 := dropna (values c1) in
  let series2 := dropna (values c2) in
  n1 <- is_normal series1 ;;
  both <- (if n1 then is_normal series2 else ret false) ;;
  '(stat, p, method) <-
    (if both then
       '(stat, p) <- lift (pearsonr series1 series2) ;;
       ret (stat, p, Pearson)
     else
       '(stat, p) <- lift (spearmanr series1 series2) ;;
       ret (stat, p, Spearman)) ;;
  let '(h0, h1) := hypothesis_text "correlation" col1 col2 in
  ret (RDict [("test", VStr (fstr [method_name method; " Correlation"]));
              ("columns", VPair col1 col2);
              ("H0", VStr h0);
              ("H1", VStr h1);
              ("stat", VFloat stat);
              ("p_value", VFloat p);
              ("alpha", VFloat alpha);
              ("significance", VStr (significance p alpha));
              ("correlation_strength", VStr (correlation_strength stat))]).

End HypothesisTesting.

(** ** [agents/answer_generator.py] *)

(** A dictionary with string keys, in insertion order. *)
Fixpoint dict_get {V} (k : string) (d : list (string * V)) : option V :=
  match d with
  | [] => None
  | (k', v) :: rest => if String.eqb k' k then Some v else dict_get k rest
  end.

Fixpoint dict_set {V} (d : list (string * V)) (k : string) (v : V)
  : list (string * V) :=
  match d with
  | [] => [(k, v)]
  | (k', v') :: rest =>
      if String.eqb k' k then (k, v) :: rest else (k', v') :: dict_set rest k v
  end.

Definition get_or {V} (d : list (string * V)) (k : string) (default : V) : V :=
  match dict_get k d with Some v => v | None => default end.

Definition skip_patterns : list string :=
  ["mean"; "average"; "max"; "min"; "median"; "sum"; "count"].

Definition extract_columns_from_question (q : string) : list string :=
  findall_quoted None q.

Section AnswerGenerator.
Context `{L : Lib}.

(** [str(v)] as an f-string formats a value. *)
Definition py_str (v : pyval) : string :=
  match v with
  | VStr s => s
  | VFloat x => float_str x
  | VNone => "None"
  | VPair a b => fstr ["('"; a; "', '"; b; "')"]
  end.

Definition format_test_result (result : test_out) : string :=
  match result with
  | RStr s => s
  | RDict d =>
      let h0 := get_or d "H0" (VStr "N/A") in
      let h1 := get_or d "H1" (VStr "N/A") in
      let test_name := get_or d "test" (VStr "N/A") in
      let conclusion := get_or d "result" (VStr "N/A") in
      fstr ["Test: "; py_str test_name; nl;
            "H₀: "; py_str h0; nl;
            "H₁: "; py_str h1; nl;
            "Conclusion: "; py_str conclusion]
  end.

Definition numeric_column (df : DataFrame) (c : string) : M bool :=
  s <- lift (frame_get df c) ;; ret (is_numeric_dtype s).

Definition object_or_category (df : DataFrame) (c : string) : M bool :=
  s <- lift (frame_get df c) ;; ret (is_object s || is_categorical_dtype s).

(** The body of the loop of [answer_questions] for one question: the
    answer it assigns to [answers[q]], if it assigns one. *)
Definition answer_one (df : DataFrame) (alpha : float) (q : string)
  : M (option string) :=
  let q_lower := lower q in
  if existsb (fun p => search_word p q_lower) skip_patterns then ret None
  else
    let cols := extract_columns_from_question q in
    if contains "correlation" q_lower && (length cols =? 2)%nat then
      '(col1, col2) <- lift (unpack2 cols) ;;
      numeric <- all_of (numeric_column df) cols ;;
      if numeric then
        result <- test_numeric_numeric df col1 col2 alpha ;;
        ret (Some (format_test_result result))
      else ret None
    else if contains "skew" q_lower && (length cols =? 1)%nat then
      col <- lift (first_of cols) ;;
      s <- lift (frame_get df col) ;;
      if is_numeric_dtype s then
        skew_val <- lift (series_skew (values s)) ;;
        let skew_type :=
          if fgt (PrimFloat.abs skew_val) 1%float
          then "Highly skewed" else "Relatively symmetric" in
        ret (Some (fstr ["'"; col; "' skewness = "; fmt_fixed 2 skew_val;
                         " ("; skew_type; ")."]))
      else ret None
    else if contains "kurtosis" q_lower && (length cols =? 1)%nat then
      col <- lift (first_of cols) ;;
      s <- lift (frame_get df col) ;;
      if is_numeric_dtype s then
        kurt_val <- lift (series_kurtosis (values s)) ;;
        let shape :=
          if fgt kurt_val 3%float then "Leptokurtic (heavy tails)"
          else if flt kurt_val 3%float then "Platykurtic (light tails)"
          else "Mesokurtic (normal-like)" in
        ret (Some (fstr ["'"; col; "' kurtosis = "; fmt_fixed 2 kurt_val;
                         " ("; shape; ")."]))
      else ret None
    else if contains "outlier" q_lower && (length cols =? 1)%nat then
      col <- lift (first_of cols) ;;
      s <- lift (frame_get df col) ;;
      if is_numeric_dtype s then
        Q1 <- lift (series_quantile 0.25%float (values s)) ;;
        Q3 <- lift (series_quantile 0.75%float (values s)) ;;
        let IQR := PrimFloat.sub Q3 Q1 in
        let outliers :=
          count_outside (PrimFloat.sub Q1 (PrimFloat.mul 1.5%float IQR))
                        (PrimFloat.add Q3 (PrimFloat.mul 1.5%float IQR))
                        (values s) in
        ret (Some (fstr ["'"; col; "' has "; str_nat outliers;
                         " outliers detected using IQR method."]))
      else ret None
    else if contains "different" q_lower && (length cols =? 2)%nat then
      '(cat_col, num_col) <- lift (unpack2 cols) ;;
      numeric <- numeric_column df num_col ;;
      categorical <- (if numeric then object_or_category df cat_col
                      else ret false) ;;
      if categorical then
        result <- test_numeric_categorical df cat_col num_col alpha ;;
        ret (Some (format_test_result result))
      else ret None
    else if contains "association" q_lower && (length cols =? 2)%nat then
      '(cat1, cat2) <- lift (unpack2 cols) ;;
      first_ok <- object_or_category df cat1 ;;
      both_ok <- (if first_ok then object_or_category df cat2
                  else ret false) ;;
      if both_ok then
        result <- test_categorical_categorical df cat1 cat2 alpha ;;
        ret (Some (format_test_result result))
      else ret None
    else if contains "missing" q_lower && (length cols =? 1)%nat then
      col <- lift (first_of cols) ;;
      s <- lift (frame_get df col) ;;
      let pct := missing_pct (values s) in
      if fgt pct 0%float then
        ret (Some (fstr ["Missing data in '"; col; "': "; fmt_fixed 1 pct; "%."]))
      else
        ret (Some (fstr ["No missing data in '"; col; "'."]))
    else if contains "duplicate" q_lower then
      ret (Some (fstr ["Dataset contains "; str_nat (duplicated_sum df);
                       " duplicate rows."]))
    else if contains "trend" q_lower && (length cols =? 1)%nat then
      col <- lift (first_of cols) ;;
      ret (Some (fstr ["Trend analysis for '"; col;
                       "' requires time-series decomposition — not automated here."]))
    else ret None.

Definition error_answer (e : string) : string :=
  fstr ["Error answering question: "; e].

(** One turn of the loop: the body under its [try], the handler storing
    the error text under the question. *)
Definition answer_step (df : DataFrame) (alpha : float)
    (answers : list (string * string)) (q : string)
  : M (list (string * string)) :=
  try_except
    (a <- answer_one df alpha q ;;
     ret (match a with
          | Some text => dict_set answers q text
          | None => answers
          end))
    (fun e => ret (dict_set answers q (error_answer e))).

Definition answer_questions (df : DataFrame) (questions : list string)
    (alpha : float) : M (list (string * string)) :=
  for_each (answer_step df alpha) questions [].

End AnswerGenerator.

(** ** [main.py] and [app.py] *)

(** The test the two callers apply to an answer before they list it among
    the hypothesis results:
    ["Test:" in a and ("Hâ‚€" in a or "H0" in a)], the first label
    spelled with the three characters that the callers have after the
    [H]. *)
Definition is_hypothesis_result (a : string) : bool :=
  contains "Test:" a && (contains "Hâ‚€" a || contains "H0" a).

(** ** [agents/question_generator.py] *)

(** A question: its text and the column names it was built from. *)
Record Question : Type := mkQuestion { q_text : string; q_cols : list string }.

(** The pairs [(l[i], l[j])] for [i < j], in the order of the two nested
    loops over the positions. *)
Fixpoint ordered_pairs {A} (l : list A) : list (A * A) :=
  match l with
  | [] => []
  | a :: rest => map (pair a) rest ++ ordered_pairs rest
  end.

Section QuestionGenerator.
Context `{L : Lib}.

(** The p-value the generator decides on for one column of a pair. *)
Definition inline_p_value (series : list cell) : M float :=
  if (3 <? length series)%nat then
    sub <- sample series (Nat.min 500 (length series)) ;;
    '(_, p) <- lift (shapiro sub) ;;
    ret p
  else ret 1%float.

Definition choose_method (series1 series2 : list cell) : M corr_method :=
  p1 <- inline_p_value series1 ;;
  p2 <- inline_p_value series2 ;;
  ret (if fgt p1 0.05%float && fgt p2 0.05%float then Pearson else Spearman).

Definition correlation_question (strength : string) (method : corr_method)
    (corr : float) (col1 col2 : string) : Question :=
  mkQuestion
    (fstr ["Does the "; strength; " "; method_name method;
           " correlation (r="; fmt_fixed 2 corr; ") between '"; col1;
           "' and '"; col2;
           "' indicate potential causal or confounding factors worth testing?"])
    [col1; col2].

Definition strength_word (corr : float) : string :=
  if fgt (PrimFloat.abs corr) 0.7%float then "strong" else "moderate".

(** The body of the loop over the pairs of numeric columns; the loop
    variables are the questions so far and [corr_questions_added]. *)
Definition correlation_step (df : DataFrame) (max_corr_questions : Z)
    (state : list Question * Z) (pair : string * string)
  : M (list Question * Z) :=
  let '(questions, corr_questions_added) := state in
  let '(col1, col2) := pair in
  c1 <- lift (frame_get df col1) ;;
  c2 <- lift (frame_get df col2) ;;
  let series1 := dropna (values c1) in
  let series2 := dropna (values c2) in
  if (length series1 =? 0)%nat || (length series2 =? 0)%nat then ret state
  else
    method <- choose_method series1 series2 ;;
    corr <- lift (series_corr method (values c1) (values c2)) ;;
    if negb (PrimFloat.is_nan corr)
       && fgt (PrimFloat.abs corr) 0.3%float
       && (corr_questions_added <? max_corr_questions)%Z
    then
      let strength := strength_word corr in
      ret (questions ++ [correlation_question strength method corr col1 col2],
           (corr_questions_added + 1)%Z)
    else ret state.

Definition correlation_questions (df : DataFrame) (numeric_cols : list string)
    (max_corr_questions : Z) : M (list Question) :=
  '(questions, _) <-
    for_each (correlation_step df max_corr_questions)
             (ordered_pairs numeric_cols) ([], 0%Z) ;;
  ret questions.

Definition skew_question (col : string) (skew_val : float) : Question :=
  mkQuestion
    (fstr ["'"; col; "' is highly skewed (skew="; fmt_fixed 2 skew_val;
           "); should transformation or robust statistics be used?"])
    [col].

Definition kurtosis_question (col : string) (kurt_val : float) : Question :=
  mkQuestion
    (fstr ["'"; col; "' has high kurtosis ("; fmt_fixed 2 kurt_val;
           "); are heavy tails affecting hypothesis test validity?"])
    [col].

Definition distribution_questions (df : DataFrame) (numeric_cols : list string)
  : M (list Question) :=
  for_each
    (fun questions col =>
       s <- lift (frame_get df col) ;;
       skew_val <- lift (series_skew (values s)) ;;
       kurt_val <- lift (series_kurtosis (values s)) ;;
       let questions :=
         if fgt (PrimFloat.abs skew_val) 1%float
         then questions ++ [skew_question col skew_val] else questions in
       ret (if fgt kurt_val 3%float
            then questions ++ [kurtosis_question col kurt_val]
            else questions))
    numeric_cols [].

Definition difference_question (cat num : string) : Question :=
  mkQuestion
    (fstr ["Do different '"; cat;
           "' categories show significant differences in '"; num;
           "' means (t-test/ANOVA) or medians (Kruskal-Wallis) depending on normality?"])
    [cat; num].

Definition few_levels (df : DataFrame) (c : string) : M bool :=
  s <- lift (frame_get df c) ;; ret (nunique (values s) <=? 10)%nat.

Definition difference_questions (df : DataFrame) (cat_cols numeric_cols : list string)
  : M (list Question) :=
  for_each
    (fun questions cat =>
       few <- few_levels df cat ;;
       ret (if few
            then questions ++ map (difference_question cat) numeric_cols
            else questions))
    cat_cols [].

Definition association_question (cat1 cat2 : string) : Question :=
  mkQuestion
    (fstr ["Is there an association between '"; cat1; "' and '"; cat2;
           "' (Chi-square test with Cramér’s V effect size)?"])
    [cat1; cat2].

Definition association_questions (df : DataFrame) (cat_cols : list string)
  : M (list Question) :=
  for_each
    (fun questions pair =>
       few1 <- few_levels df (fst pair) ;;
       few2 <- (if few1 then few_levels df (snd pair) else ret false) ;;
       ret (if few2
            then questions ++ [association_question (fst pair) (snd pair)]
            else questions))
    (ordered_pairs cat_cols) [].

Definition seasonal_question (col : string) : Question :=
  mkQuestion
    (fstr ["Are there seasonal or trend components in '"; col;
           "' detectable via time-series decomposition?"])
    [col].

Definition trend_question (num col : string) : Question :=
  mkQuestion
    (fstr ["Does '"; num; "' change significantly over time based on '"; col;
           "' (trend analysis, Mann-Kendall test)?"])
    [num; col].

Definition time_questions (datetime_cols numeric_cols : list string)
  : list Question :=
  flat_map
    (fun col => seasonal_question col
                :: map (fun num => trend_question num col) numeric_cols)
    datetime_cols.

Definition outlier_question (outliers : nat) (col : string) : Question :=
  mkQuestion
    (fstr ["Do the "; str_nat outliers; " outliers in '"; col;
           "' materially influence model parameters or statistical significance?"])
    [col].

Definition outlier_questions (df : DataFrame) (numeric_cols : list string)
  : M (list Question) :=
  for_each
    (fun questions col =>
       s <- lift (frame_get df col) ;;
       Q1 <- lift (series_quantile 0.25%float (values s)) ;;
       Q3 <- lift (series_quantile 0.75%float (values s)) ;;
       let IQR := PrimFloat.sub Q3 Q1 in
       let outliers :=
         count_outside (PrimFloat.sub Q1 (PrimFloat.mul 1.5%float IQR))
                       (PrimFloat.add Q3 (PrimFloat.mul 1.5%float IQR))
                       (values s) in
       ret (if (0 <? outliers)%nat
            then questions ++ [outlier_question outliers col]
            else questions))
    numeric_cols [].

Definition missing_question (pct : float) (col : string) : Question :=
  mkQuestion
    (fstr ["With "; fmt_fixed 1 pct; "% missing in '"; col;
           "', is advanced imputation (e.g., MICE) preferable over deletion?"])
    [col].

(** [df.columns[df.isnull().any()]]. *)
Definition columns_with_missing (df : DataFrame) : list string :=
  map fst (filter (fun c => existsb isnull (values (snd c))) df).

Definition missing_questions (df : DataFrame) : M (list Question) :=
  for_each
    (fun questions col =>
       s <- lift (frame_get df col) ;;
       let pct := missing_pct (values s) in
       ret (if fgt pct 5%float
            then questions ++ [missing_question pct col]
            else questions))
    (columns_with_missing df) [].

Definition duplicate_question : Question :=
  mkQuestion
    "Could duplicate rows introduce bias in model coefficients or inflate statistical significance?"
    [].

Definition duplicate_questions (df : DataFrame) : list Question :=
  if (0 <? duplicated_sum df)%nat then [duplicate_question] else [].

(** The questions in the order the generator appends them. *)
Definition generate (df : DataFrame) (max_corr_questions : Z)
  : M (list Question) :=
  let numeric_cols := select_dtypes sel_number df in
  let cat_cols := select_dtypes sel_object_category df in
  let datetime_cols := select_dtypes sel_datetime df in
  correlation <- correlation_questions df numeric_cols max_corr_questions ;;
  distribution <- distribution_questions df numeric_cols ;;
  difference <- difference_questions df cat_cols numeric_cols ;;
  association <- association_questions df cat_cols ;;
  outlier <- outlier_questions df numeric_cols ;;
  missing <- missing_questions df ;;
  ret (correlation ++ distribution ++ difference ++ association
       ++ time_questions datetime_cols numeric_cols
       ++ outlier ++ missing ++ duplicate_questions df).

Definition generate_questions (df : DataFrame) (max_corr_questions : Z)
  : M (list string) :=
  questions <- generate df max_corr_questions ;;
  ret (map q_text questions).

End QuestionGenerator.

(** ** [agents/report_generator.py] *)

(** [range(start, stop, 2)]; [fuel] bounds the number of its elements. *)
Fixpoint range_by_two (fuel start stop : nat) : list nat :=
  match fuel with
  | O => []
  | S f => if (start <? stop)%nat
           then start :: range_by_two f (start + 2) stop else []
  end.

(** [l[i]] for an index that is not negative. *)
Definition list_index {A} (l : list A) (i : nat) : res A :=
  match nth_error l i with
  | Some a => Ok a
  | None => Raise "list index out of range"
  end.

(** What a minipage holds: a figure with its image and caption, or a line
    of text; and what is appended to the section: minipages and raw
    LaTeX. *)
Inductive block : Type :=
| FigureBlock (path caption : string)
| TextBlock (text : string).

Inductive item : Type :=
| MiniPage (content : block)
| NoEscape (tex : string).

Section ReportGenerator.
Variables (path_exists : string -> bool) (basename : string -> string).

Definition minipage_content (fig_path : string) : block :=
  if path_exists fig_path
  then FigureBlock fig_path (fstr ["Visualization: "; basename fig_path])
  else TextBlock (fstr ["Figure not found: "; fig_path]).

(** The body of the loop over the rows of the section [Visualizations]:
    what one turn appends. *)
Definition visualization_row (figure_paths : list string) (i : nat)
  : res (list item) :=
  res_bind (list_index figure_paths i) (fun left =>
  res_bind (if (i + 1 <? length figure_paths)%nat
            then res_bind (list_index figure_paths (i + 1)) (fun right =>
                 Ok [MiniPage (minipage_content right)])
            else Ok []) (fun right_page =>
  Ok (MiniPage (minipage_content left) :: right_page
      ++ [NoEscape "\vspace{10pt}"; NoEscape "\\"])%list)).

Definition visualization_section (figure_paths : list string)
  : res (list item) :=
  res_bind (res_map (visualization_row figure_paths)
                    (range_by_two (length figure_paths) 0
                                  (length figure_paths)))
           (fun rows => Ok (concat rows)).

End ReportGenerator.

(** ** A small instance of the library

    A deterministic instance of [Lib] for running the program on small
    frames.  Means, standard deviations, quantiles and correlation
    coefficients are computed from their textbook formulas; the length
    checks of SciPy are kept; the p-values and test statistics, which only
    SciPy supplies, are constants; [float_str] prints one digit after the
    point.  The generator is a counter and a sample takes the first
    rows. *)
Module Lab.

Definition fsum (l : list float) : float :=
  fold_left PrimFloat.add l 0%float.

Definition mean (l : list float) : float :=
  PrimFloat.div (fsum l) (float_of_nat (length l)).

Definition sq_dev (l : list float) : float :=
  let m := mean l in
  fsum (map (fun x => PrimFloat.mul (PrimFloat.sub x m) (PrimFloat.sub x m)) l).

Definition std (l : list float) : float :=
  PrimFloat.sqrt (PrimFloat.div (sq_dev l) (float_of_nat (length l - 1))).

Definition pearson (x y : list float) : float :=
  let mx := mean x in
  let my := mean y in
  let cov :=
    fsum (map (fun p => PrimFloat.mul (PrimFloat.sub (fst p) mx)
                                      (PrimFloat.sub (snd p) my))
              (combine x y)) in
  PrimFloat.div cov (PrimFloat.sqrt (PrimFloat.mul (sq_dev x) (sq_dev y))).

(** The rank of [x] in [l], ties sharing the mean of their ranks. *)
Definition rank_in (l : list float) (x : float) : float :=
  let less := length (filter (fun y => PrimFloat.ltb y x) l) in
  let same := length (filter (fun y => PrimFloat.eqb y x) l) in
  PrimFloat.div (float_of_nat (2 * less + same + 1)) 2%float.

Definition ranks (l : list float) : list float := map (rank_in l) l.

Definition spearman (x y : list float) : float := pearson (ranks x) (ranks y).

Definition nums (v : list cell) : list float := map cell_float v.

Definition corr_of (m : corr_method) (x y : list float) : float :=
  match m with
  | Pearson => pearson x y
  | Spearman => spearman x y
  end.

Definition pairwise_corr (m : corr_method) (a b : list cell) : res float :=
  let ps := complete_pairs a b in
  Ok (corr_of m (nums (map fst ps)) (nums (map snd ps))).

Definition correlation_test (m : corr_method) (x y : list cell)
  : res (float * float) :=
  if negb (length x =? length y)%nat then
    Raise match m with
          | Pearson => "x and y must have the same length."
          | Spearman => "all the input array dimensions except for the concatenation axis must match exactly"
          end
  else if (length x <? 2)%nat then
    Raise "x and y must have length at least 2."
  else Ok (corr_of m (nums x) (nums y), 0.01%float).

Definition normality_test (v : list cell) : res (float * float) :=
  if (length v <? 3)%nat then Raise "Data must be at least length 3."
  else Ok (1%float, 1%float).

Fixpoint insert_sorted (x : float) (l : list float) : list float :=
  match l with
  | [] => [x]
  | y :: rest => if PrimFloat.leb x y then x :: l else y :: insert_sorted x rest
  end.

Definition sort (l : list float) : list float :=
  fold_right insert_sorted [] l.

Fixpoint floor_below (bound : nat) (x : float) : nat :=
  match bound with
  | O => 0
  | S k => if PrimFloat.leb (float_of_nat bound) x then bound
           else floor_below k x
  end.

(** Linear interpolation between the two nearest order statistics. *)
Definition quantile (q : float) (v : list cell) : res float :=
  let l := sort (nums (dropna v)) in
  match l with
  | [] => Ok PrimFloat.nan
  | _ =>
      let pos := PrimFloat.mul q (float_of_nat (length l - 1)) in
      let i := floor_below (length l - 1) pos in
      let lo := nth i l PrimFloat.nan in
      let hi := nth (Nat.min (S i) (length l - 1)) l PrimFloat.nan in
      Ok (PrimFloat.add lo
            (PrimFloat.mul (PrimFloat.sub pos (float_of_nat i))
                           (PrimFloat.sub hi lo)))
  end.

Definition moment (k : nat) (l : list float) : float :=
  let m := mean l in
  PrimFloat.div
    (fsum (map (fun x => fold_left PrimFloat.mul
                           (repeat (PrimFloat.sub x m) k) 1%float) l))
    (float_of_nat (length l)).

(** The bias-corrected sample skewness and excess kurtosis. *)
Definition skew (v : list cell) : res float :=
  let l := nums (dropna v) in
  let n := float_of_nat (length l) in
  if (length l <? 3)%nat then Ok PrimFloat.nan
  else
    let m2 := moment 2 l in
    let g1 := PrimFloat.div (moment 3 l) (PrimFloat.mul m2 (PrimFloat.sqrt m2)) in
    Ok (PrimFloat.mul
          (PrimFloat.div (PrimFloat.sqrt (PrimFloat.mul n (PrimFloat.sub n 1%float)))
                         (PrimFloat.sub n 2%float))
          g1).

Definition kurtosis (v : list cell) : res float :=
  let l := nums (dropna v) in
  let n := float_of_nat (length l) in
  if (length l <? 4)%nat then Ok PrimFloat.nan
  else
    let m2 := moment 2 l in
    let g2 := PrimFloat.sub (PrimFloat.div (moment 4 l) (PrimFloat.mul m2 m2))
                            3%float in
    Ok (PrimFloat.mul
          (PrimFloat.div (PrimFloat.sub n 1%float)
                         (PrimFloat.mul (PrimFloat.sub n 2%float)
                                        (PrimFloat.sub n 3%float)))
          (PrimFloat.add (PrimFloat.mul (PrimFloat.add n 1%float) g2) 6%float)).

Definition fixed_test : res (float * float) := Ok (1%float, 0.01%float).

#[export] Instance lib : Lib := {|
  rng := nat;
  draw := fun _ n r => (seq 0 n, S r);
  shapiro := normality_test;
  ttest_ind := fun _ _ => fixed_test;
  mannwhitneyu := fun _ _ => fixed_test;
  f_oneway := fun _ => fixed_test;
  kruskal := fun _ => fixed_test;
  chi2_contingency := fun _ => fixed_test;
  pearsonr := correlation_test Pearson;
  spearmanr := correlation_test Spearman;
  series_mean := fun v => Ok (mean (nums (dropna v)));
  series_std := fun v => Ok (std (nums (dropna v)));
  series_skew := skew;
  series_kurtosis := kurtosis;
  series_quantile := quantile;
  series_corr := pairwise_corr;
  float_str := fmt_fixed 1
|}.

(** The generator before anything is drawn. *)
Definition start : @rng lib := 0.

(** Frames used in the examples. *)
Definition floats (l : list float) : Series := mkSeries Float64 (map Num l).
Definition strings (d : dtype) (l : list string) : Series := mkSeries d (map Str l).

(** Two levels of a category over six measurements. *)
Definition two_groups : DataFrame :=
  [("g", strings Category ["a"; "b"; "a"; "b"; "a"; "b"]);
   ("x", floats [1; 2; 3; 5; 8; 13]%float)].

(** Two numeric columns of two rows each, the second twice the first. *)
Definition two_columns : DataFrame :=
  [("a", floats [1; 2]%float); ("b", floats [2; 4]%float)].

(** Two columns of text, the first under the empty name. *)
Definition unnamed_column : DataFrame :=
  [("", strings Object ["u"; "v"]); ("b", strings Object ["s"; "t"])].

(** One level of a category over two measurements. *)
Definition one_group : DataFrame :=
  [("g", strings Object ["a"; "a"]); ("x", floats [1; 2]%float)].

(** A numeric column and the dates of its rows. *)
Definition dated_sales : DataFrame :=
  [("sales", floats [3; 4]%float);
   ("date", mkSeries Datetime [Stamp 1; Stamp 2])].

(** The same, the numeric column under a name that holds a keyword of the
    dispatch. *)
Definition dated_flags : DataFrame :=
  [("duplicate_flag", floats [0; 1]%float);
   ("date", mkSeries Datetime [Stamp 1; Stamp 2])].

(** The same, the numeric column under the empty name. *)
Definition dated_unnamed : DataFrame :=
  [("", floats [3; 4]%float);
   ("date", mkSeries Datetime [Stamp 1; Stamp 2])].

(** The result of the group-difference test on [two_groups]. *)
Definition two_groups_result : list (string * pyval) :=
  Eval vm_compute in
    match test_numeric_categorical two_groups "g" "x" 0.05%float start with
    | (Ok (RDict d), _) => d
    | _ => []
    end.

(** Two numeric columns, a value missing in the first only. *)
Definition one_missing : DataFrame :=
  [("a", mkSeries Float64 [Num 1%float; NA]); ("b", floats [1; 2]%float)].

Definition skew_of_missing_column : string := "Is 'nosuch' skewed?".
Definition skew_of_x : string := "Is 'x' skewed?".

(** Six rows with two columns of levels, a measurement with one far
    value, a measurement missing in two rows, and the dates of the rows. *)
Definition survey : DataFrame :=
  [("g", strings Category ["a"; "b"; "a"; "b"; "a"; "b"]);
   ("h", strings Object ["u"; "u"; "v"; "v"; "u"; "v"]);
   ("x", floats [1; 2; 3; 2; 1; 40]%float);
   ("y", mkSeries Float64
           [Num 1%float; NA; Num 3%float; NA; Num 5%float; Num 6%float]);
   ("d", mkSeries Datetime
           [Stamp 1; Stamp 2; Stamp 3; Stamp 4; Stamp 5; Stamp 6])].

(** The questions generated over [survey], the state the generator is left
    in, and the answers to these questions from that state on. *)
Definition survey_questions : list string :=
  Eval vm_compute in
    match generate_questions survey 5 start with
    | (Ok texts, _) => texts
    | _ => []
    end.

Definition survey_asked : @rng lib :=
  Eval vm_compute in snd (generate_questions survey 5 start).

Definition survey_answers :=
  Eval vm_compute in
    match answer_questions survey survey_questions 0.05%float survey_asked with
    | (Ok answers, _) => answers
    | _ => []
    end.

Definition survey_answered : @rng lib :=
  Eval vm_compute in
    snd (answer_questions survey survey_questions 0.05%float survey_asked).

(** Two columns of levels that are never both present in a row. *)
Definition disjoint_levels : DataFrame :=
  [("u", mkSeries Object [Str "a"; NA; Str "b"]);
   ("w", mkSeries Object [NA; Str "s"; NA])].

(** One measurement, each of its two values repeated. *)
Definition repeated_rows : DataFrame := [("x", floats [1; 1; 2; 2]%float)].

(** The questions of three rules of the generator over [survey]: on the
    shape of a column, on its outliers, on its missing values. *)
Definition survey_distribution : list Question :=
  Eval vm_compute in
    match distribution_questions survey (select_dtypes sel_number survey)
                                 start with
    | (Ok qs, _) => qs
    | _ => []
    end.

Definition survey_outliers : list Question :=
  Eval vm_compute in
    match outlier_questions survey (select_dtypes sel_number survey) start with
    | (Ok qs, _) => qs
    | _ => []
    end.

Definition survey_missing : list Question :=
  Eval vm_compute in
    match missing_questions survey start with
    | (Ok qs, _) => qs
    | _ => []
    end.

End Lab.

(** ** Vocabulary of the properties *)

(** No single quote occurs in the text. *)
Fixpoint quote_free (s : string) : bool :=
  match s with
  | EmptyString => true
  | String c rest => negb (Ascii.eqb c quote) && quote_free rest
  end.

(** A column name that the extraction can read back: not empty and
    without a single quote. *)
Definition plain_name (c : string) : Prop :=
  c <> "" /\ quote_free c = true.

Definition rev_chars (s : string) : list ascii :=
  rev (list_ascii_of_string s).

(** [l1] is [l2] with some elements left out, the order kept. *)
Inductive subseq {A : Type} : list A -> list A -> Prop :=
| subseq_nil : subseq [] []
| subseq_skip a l1 l2 : subseq l1 l2 -> subseq l1 (a :: l2)
| subseq_take a l1 l2 : subseq l1 l2 -> subseq (a :: l1) (a :: l2).

(** A correlation question the generator decided to emit: the pair, the
    method it chose and the coefficient it computed. *)
Record pick : Type :=
  mkPick { p_col1 : string; p_col2 : string;
           p_method : corr_method; p_corr : float }.

Definition pick_pair (p : pick) : string * string := (p_col1 p, p_col2 p).

Definition pick_question (p : pick) : Question :=
  correlation_question (strength_word (p_corr p)) (p_method p) (p_corr p)
                       (p_col1 p) (p_col2 p).

(** The method of the pick is the one the generator chose for the two
    columns, its coefficient is the one pandas computes on them with this
    method, and the coefficient is above the threshold. *)
Definition pick_computed `{Lib} (df : DataFrame) (p : pick) : Prop :=
  exists s1 s2,
    frame_get df (p_col1 p) = Ok s1 /\
    frame_get df (p_col2 p) = Ok s2 /\
    (exists r0 r1,
        choose_method (dropna (values s1)) (dropna (values s2)) r0
        = (Ok (p_method p), r1)) /\
    series_corr (p_method p) (values s1) (values s2) = Ok (p_corr p) /\
    fgt (PrimFloat.abs (p_corr p)) 0.3%float = true.

(** The questions of the other rules, each over column names of [names]. *)
Inductive other_question (names : list string) : Question -> Prop :=
| oq_skew col v :
    In col names -> other_question names (skew_question col v)
| oq_kurtosis col v :
    In col names -> other_question names (kurtosis_question col v)
| oq_difference cat num :
    In cat names -> In num names ->
    other_question names (difference_question cat num)
| oq_association cat1 cat2 :
    In cat1 names -> In cat2 names ->
    other_question names (association_question cat1 cat2)
| oq_seasonal col :
    In col names -> other_question names (seasonal_question col)
| oq_trend num col :
    In num names -> In col names ->
    other_question names (trend_question num col)
| oq_outlier n col :
    In col names -> other_question names (outlier_question n col)
| oq_missing pct col :
    In col names -> other_question names (missing_question pct col)
| oq_duplicate : other_question names duplicate_question.

(** Every group passes the oracle, each asked in its turn, from the
    generator as the one before left it. *)
Inductive all_pass `{Lib} : list (list cell) -> rng -> rng -> Prop :=
| all_pass_nil r : all_pass [] r r
| all_pass_cons g gs r r1 r2 :
    is_normal g r = (Ok true, r1) -> all_pass gs r1 r2 ->
    all_pass (g :: gs) r r2.

(** Some group fails the oracle after those before it passed. *)
Inductive one_fails `{Lib} : list (list cell) -> rng -> rng -> Prop :=
| one_fails_here g gs r r1 :
    is_normal g r = (Ok false, r1) -> one_fails (g :: gs) r r1
| one_fails_later g gs r r1 r2 :
    is_normal g r = (Ok true, r1) -> one_fails gs r1 r2 ->
    one_fails (g :: gs) r r2.

(** The four procedures of the group-difference test, and the one the
    rule of the specification selects: parametric exactly when every
    group is normal, two-sample exactly when there are two groups. *)
Inductive test_kind : Type := TTest | MannWhitney | Anova | KruskalWallis.

Definition chosen_test (n_groups : nat) (all_normal : bool) : test_kind :=
  if (n_groups =? 2)%nat
  then (if all_normal then TTest else MannWhitney)
  else (if all_normal then Anova else KruskalWallis).

Definition kind_name (k : test_kind) : string :=
  match k with
  | TTest => "t-test"
  | MannWhitney => "mann-whitney"
  | Anova => "anova"
  | KruskalWallis => "kruskal"
  end.

(** Running a procedure on the groups: its statistic, its p-value and the
    effect size reported with it. *)
Definition run_test `{Lib} (df : DataFrame) (k : test_kind)
    (groups : list (list cell)) : res (float * float * pyval) :=
  match k with
  | TTest =>
      res_bind (ttest_ind (nth 0 groups []) (nth 1 groups [])) (fun '(stat, p) =>
      res_bind (cohens_d (nth 0 groups []) (nth 1 groups [])) (fun effect =>
      Ok (stat, p, VFloat effect)))
  | MannWhitney =>
      res_bind (mannwhitneyu (nth 0 groups []) (nth 1 groups []))
               (fun '(stat, p) => Ok (stat, p, VNone))
  | Anova =>
      res_bind (f_oneway groups) (fun '(stat, p) =>
      Ok (stat, p,
          VFloat (eta_squared_anova stat
                    (Z.of_nat (length groups) - 1)
                    (Z.of_nat (n_rows df) - Z.of_nat (length groups)))))
  | KruskalWallis =>
      res_bind (kruskal groups) (fun '(stat, p) => Ok (stat, p, VNone))
  end.

Definition report (k : test_kind) (num_col cat_col : string) (alpha : float)
    (outcome : float * float * pyval) : test_out :=
  let '(stat, p, effect) := outcome in
  RDict [("test", VStr (upper (kind_name k)));
         ("columns", VPair num_col cat_col);
         ("H0", VStr (fst (hypothesis_text (kind_name k) num_col cat_col)));
         ("H1", VStr (snd (hypothesis_text (kind_name k) num_col cat_col)));
         ("stat", VFloat stat);
         ("p_value", VFloat p);
         ("alpha", VFloat alpha);
         ("significance", VStr (significance p alpha));
         ("effect_size", effect)].

(** Whether a column counts as normal in the generator: one of more than
    3 values is tested as the oracle tests it, on a sample of
    min(500, len) of its values, and counts as normal when the p-value is
    strictly above 0.05; one of 3 values or fewer is not tested and
    counts as normal. *)
Definition counts_as_normal `{Lib} (series : list cell) : M bool :=
  if (3 <? length series)%nat then
    (sub <- sample series (Nat.min 500 (length series)) ;;
     ' (_, p) <- lift (shapiro sub) ;;
     ret (fgt p 0.05%float))%comp
  else ret true.

(** The method of the amended rule: both columns are judged, the first
    one first, and Pearson is named exactly when both count as normal. *)
Definition method_by_count `{Lib} (series1 series2 : list cell)
  : M corr_method :=
  (normal1 <- counts_as_normal series1 ;;
   normal2 <- counts_as_normal series2 ;;
   ret (if normal1 && normal2 then Pearson else Spearman))%comp.

(** The choice of the correlation method in the words of the
    specification: Pearson if both columns pass the normality oracle,
    else Spearman. *)
Definition spec_choose_method `{Lib} (series1 series2 : list cell)
  : M corr_method :=
  (normal1 <- is_normal series1 ;;
   normal2 <- is_normal series2 ;;
   ret (if normal1 && normal2 then Pearson else Spearman))%comp.

(** The template of a rendered test result. *)
Definition rendered (name h0 h1 conclusion : string) : string :=
  fstr ["Test: "; name; nl; "H₀: "; h0; nl; "H₁: "; h1; nl;
        "Conclusion: "; conclusion].

Definition not_enough_groups : string :=
  "Not enough groups for hypothesis testing.".

(** The question, a text in ASCII, reaches the group-difference branch of
    the dispatch with the two names it quotes, and the branch accepts the
    two columns. *)
Definition asks_group_difference (df : DataFrame) (q cat_col num_col : string)
  : Prop :=
  ascii_text q = true
  /\ existsb (fun p => search_word p (lower q)) skip_patterns = false
  /\ contains "correlation" (lower q) = false
  /\ contains "different" (lower q) = true
  /\ extract_columns_from_question q = [cat_col; num_col]
  /\ (exists num, frame_get df num_col = Ok num
                  /\ is_numeric_dtype num = true)
  /\ (exists cat, frame_get df cat_col = Ok cat
                  /\ is_object cat || is_categorical_dtype cat = true).

(** The text is a correlation question: only their template opens so. *)
Definition is_correlation_text (text : string) : bool :=
  String.prefix "Does the " text.

(** The question names columns of the frame and the extraction reads
    exactly these names back from its text. *)
Definition well_quoted (names : list string) (q : Question) : Prop :=
  incl (q_cols q) names /\
  extract_columns_from_question (q_text q) = q_cols q.

(** ** Vocabulary of the further properties *)

(** The keys of a dictionary, in insertion order. *)
Definition dict_keys {V} (d : list (string * V)) : list string := map fst d.

(** Every character of the text is one of the alphabet. *)
Fixpoint all_in (alphabet s : string) : bool :=
  match s with
  | EmptyString => true
  | String a rest => occurs a alphabet && all_in alphabet rest
  end.

(** A first segment and further segments, each after its separator. *)
Fixpoint glue (s : string) (rest : list (ascii * string)) : string :=
  match rest with
  | [] => s
  | (c, s') :: rest' => String.append s (String c (glue s' rest'))
  end.

(** The keywords of the dispatch of [answer_questions], in the order of
    its branches. *)
Definition dispatch_keywords : list string :=
  ["correlation"; "skew"; "kurtosis"; "outlier"; "different"; "association";
   "missing"; "duplicate"; "trend"].

(** A column name that no branch and no skip pattern reacts to: it is
    made of ASCII characters, it can be read back from between quotes, and
    lower-cased it holds no keyword of the dispatch and no simple-metric
    word. *)
Definition benign_name (c : string) : Prop :=
  plain_name c
  /\ forallb (fun kw => negb (contains kw (lower c))) dispatch_keywords = true
  /\ forallb (fun w => negb (search_word w (lower c))) skip_patterns = true
  /\ ascii_text c = true.

(** No column of the frame holds time differences: the columns selected
    as numbers are those [is_numeric_dtype] accepts. *)
Definition no_time_differences (df : DataFrame) : Prop :=
  forall c s, In (c, s) df -> dtype_of s <> Timedelta.

(** The alphabet of a formatted number: digits, point, sign, and the
    letters of [nan] and [inf]. *)
Definition number_alphabet : string := "0123456789.-naif".
Definition lowercase_letters : string := "abcdefghijklmnopqrstuvwxyz".

(** A word made of lower-case letters, one of them not in a number. *)
Definition keyword_like (kw : string) : bool :=
  negb (String.eqb kw "") && all_in lowercase_letters kw
  && negb (all_in number_alphabet kw).

(** The segments of a question text: fixed text, a column name, a
    formatted number. *)
Inductive seg : Type :=
| SLit (s : string)
| SName (c : string)
| SNum (s : string).

Definition seg_text (g : seg) : string :=
  match g with SLit s => s | SName s => s | SNum s => s end.

Definition template : Type := seg * list (ascii * seg).

Definition render (t : template) : string :=
  glue (seg_text (fst t)) (map (fun p => (fst p, seg_text (snd p))) (snd t)).

Definition segments (t : template) : list seg := fst t :: map snd (snd t).

Definition literals (t : template) : list string :=
  flat_map (fun g => match g with SLit s => [s] | _ => [] end) (segments t).

(** The names of the template are benign, its numbers are written in the
    alphabet of numbers, and its separators are not word characters. *)
Definition seg_ok (g : seg) : Prop :=
  match g with
  | SLit _ => True
  | SName c => benign_name c
  | SNum s => all_in number_alphabet s = true
  end.

Definition template_ok (t : template) : Prop :=
  Forall seg_ok (segments t)
  /\ forallb (fun p => negb (is_word (fst p))) (snd t) = true.

(** The questions of the generator as templates. *)
Definition correlation_template (strength method number c1 c2 : string)
  : template :=
  (SLit "Does the",
   [(" "%char, SLit strength); (" "%char, SLit method);
    (" "%char, SLit "correlation (r"); ("="%char, SNum number);
    (")"%char, SLit " between "); (quote, SName c1); (quote, SLit " and ");
    (quote, SName c2);
    (quote, SLit " indicate potential causal or confounding factors worth testing?")]).

Definition skew_template (col number : string) : template :=
  (SLit "",
   [(quote, SName col); (quote, SLit " is highly skewed (skew");
    ("="%char, SNum number);
    (")"%char, SLit "; should transformation or robust statistics be used?")]).

Definition kurtosis_template (col number : string) : template :=
  (SLit "",
   [(quote, SName col); (quote, SLit " has high kurtosis ");
    ("("%char, SNum number);
    (")"%char, SLit "; are heavy tails affecting hypothesis test validity?")]).

Definition difference_template (cat num : string) : template :=
  (SLit "Do different ",
   [(quote, SName cat);
    (quote, SLit " categories show significant differences in ");
    (quote, SName num);
    (quote, SLit " means (t-test/ANOVA) or medians (Kruskal-Wallis) depending on normality?")]).

Definition association_template (cat1 cat2 : string) : template :=
  (SLit "Is there an association between ",
   [(quote, SName cat1); (quote, SLit " and "); (quote, SName cat2);
    (quote, SLit " (Chi-square test with Cramér’s V effect size)?")]).

Definition seasonal_template (col : string) : template :=
  (SLit "Are there seasonal or trend components in ",
   [(quote, SName col);
    (quote, SLit " detectable via time-series decomposition?")]).

Definition outlier_template (number col : string) : template :=
  (SLit "Do the",
   [(" "%char, SNum number); (" "%char, SLit "outliers in ");
    (quote, SName col);
    (quote, SLit " materially influence model parameters or statistical significance?")]).

Definition missing_template (number col : string) : template :=
  (SLit "With",
   [(" "%char, SNum number); ("%"%char, SLit " missing in ");
    (quote, SName col);
    (quote, SLit ", is advanced imputation (e.g., MICE) preferable over deletion?")]).

Definition trend_template (num col : string) : template :=
  (SLit "Does ",
   [(quote, SName num);
    (quote, SLit " change significantly over time based on ");
    (quote, SName col);
    (quote, SLit " (trend analysis, Mann-Kendall test)?")]).

(** The questions of the generator, each kind over the columns it is
    asked about: numeric, categorical or datetime ones. *)
Inductive generated_question (df : DataFrame) : Question -> Prop :=
| gq_correlation method corr c1 c2 :
    In c1 (select_dtypes sel_number df) ->
    In c2 (select_dtypes sel_number df) ->
    generated_question df
      (correlation_question (strength_word corr) method corr c1 c2)
| gq_skew col v :
    In col (select_dtypes sel_number df) ->
    generated_question df (skew_question col v)
| gq_kurtosis col v :
    In col (select_dtypes sel_number df) ->
    generated_question df (kurtosis_question col v)
| gq_difference cat num :
    In cat (select_dtypes sel_object_category df) ->
    In num (select_dtypes sel_number df) ->
    generated_question df (difference_question cat num)
| gq_association cat1 cat2 :
    In cat1 (select_dtypes sel_object_category df) ->
    In cat2 (select_dtypes sel_object_category df) ->
    generated_question df (association_question cat1 cat2)
| gq_seasonal col :
    In col (select_dtypes sel_datetime df) ->
    generated_question df (seasonal_question col)
| gq_trend num col :
    In num (select_dtypes sel_number df) ->
    In col (select_dtypes sel_datetime df) ->
    generated_question df (trend_question num col)
| gq_outlier n col :
    In col (select_dtypes sel_number df) ->
    generated_question df (outlier_question n col)
| gq_missing pct col :
    In col (column_names df) ->
    generated_question df (missing_question pct col)
| gq_duplicate : generated_question df duplicate_question.

(** The question on the change of a numeric column over a datetime
    column. *)
Definition is_trend_pair (df : DataFrame) (text : string) : Prop :=
  exists num col,
    In num (select_dtypes sel_number df)
    /\ In col (select_dtypes sel_datetime df)
    /\ text = q_text (trend_question num col).

(** The answer assigned for a test: its outcome, rendered. *)
Definition rendered_outcome `{Lib} (test : M test_out) : M (option string) :=
  (result <- test ;; ret (Some (format_test_result result)))%comp.

(** The text of the question holds a single quote. *)
Definition quoted (q : Question) : Prop := occurs quote (q_text q) = true.

(** The contents of the minipages among the items, in order. *)
Definition placed (items : list item) : list block :=
  flat_map (fun it => match it with MiniPage b => [b] | NoEscape _ => [] end)
           items.

(** The name holds one of the two labels the callers look for. *)
Definition mentions_label (c : string) : bool :=
  contains "Hâ‚€" c || contains "H0" c.

(** Whatever questions are asked with it, and from whatever state of the
    generator, the question ends with this answer. *)
Definition always_answered `{Lib} (df : DataFrame) (alpha : float)
    (q text : string) : Prop :=
  forall questions r answers r',
    In q questions ->
    answer_questions df questions alpha r = (Ok answers, r') ->
    dict_get q answers = Some text.

(** Whatever questions are asked, the mapping has no entry for this one. *)
Definition never_answered `{Lib} (df : DataFrame) (alpha : float)
    (q : string) : Prop :=
  forall questions r answers r',
    answer_questions df questions alpha r = (Ok answers, r') ->
    dict_get q answers = None.

(** A question on the shape of a column is answered with the figure it
    quotes and with the label of the range that made the generator ask. *)
Inductive distribution_agreed `{Lib} (df : DataFrame) (alpha : float)
  : Question -> Prop :=
| da_skew col v :
    always_answered df alpha (q_text (skew_question col v))
      (fstr ["'"; col; "' skewness = "; fmt_fixed 2 v; " (Highly skewed)."]) ->
    distribution_agreed df alpha (skew_question col v)
| da_kurtosis col v :
    always_answered df alpha (q_text (kurtosis_question col v))
      (fstr ["'"; col; "' kurtosis = "; fmt_fixed 2 v;
             " (Leptokurtic (heavy tails))."]) ->
    distribution_agreed df alpha (kurtosis_question col v).

(** A question on the outliers of a column is answered with the count it
    quotes, which is not zero. *)
Inductive outlier_agreed `{Lib} (df : DataFrame) (alpha : float)
  : Question -> Prop :=
| oa_count n col :
    0 < n ->
    always_answered df alpha (q_text (outlier_question n col))
      (fstr ["'"; col; "' has "; str_nat n;
             " outliers detected using IQR method."]) ->
    outlier_agreed df alpha (outlier_question n col).

(** A question on the missing values of a column is answered with the
    percentage it quotes. *)
Inductive missing_agreed `{Lib} (df : DataFrame) (alpha : float)
  : Question -> Prop :=
| ma_percentage pct col :
    always_answered df alpha (q_text (missing_question pct col))
      (fstr ["Missing data in '"; col; "': "; fmt_fixed 1 pct; "%."]) ->
    missing_agreed df alpha (missing_question pct col).

(** One turn of the loop for a question whose branch runs a test: the
    rendered result is stored under the question, or the text of the
    error the test raised. *)
Definition test_turn `{Lib} (answers : list (string * string)) (q : string)
    (test : M test_out) : M (list (string * string)) :=
  try_except
    (result <- test ;; ret (dict_set answers q (format_test_result result)))%comp
    (fun e => ret (dict_set answers q (error_answer e))).

(** The body of the loop finished without assigning an answer. *)
Definition silent {A} (c : res (option A)) : Prop := c = Ok None.

(** * Properties *)

(** ** Examples *)

Example py_repr_1 : py_repr "nosuch" = "'nosuch'".
Proof. reflexivity. Qed.

Example py_repr_2 : py_repr "a\b" = "'a\\b'".
Proof. reflexivity. Qed.

Example py_repr_3 : py_repr (String (ascii_of_nat 9) "x") = "'\tx'".
Proof. reflexivity. Qed.

Example py_repr_4 : py_repr (String (ascii_of_nat 1) "") = "'\x01'".
Proof. reflexivity. Qed.

Example py_repr_5 :
  py_repr "it's" = String double_quote (String.append "it's"
                                          (String double_quote "")).
Proof. reflexivity. Qed.

Example fmt_fixed_1 : fmt_fixed 2 1%float = "1.00".
Proof. reflexivity. Qed.
Example fmt_fixed_2 : fmt_fixed 2 (-0.125)%float = "-0.12".
Proof. reflexivity. Qed.
Example fmt_fixed_3 : fmt_fixed 1 12.25%float = "12.2".
Proof. reflexivity. Qed.
Example fmt_fixed_4 : fmt_fixed 2 0.005%float = "0.01".
Proof. reflexivity. Qed.
Example fmt_fixed_5 : fmt_fixed 2 2.675%float = "2.67".
Proof. reflexivity. Qed.
Example ordered_pairs_1 :
  ordered_pairs ["a"; "b"; "c"] = [("a", "b"); ("a", "c"); ("b", "c")].
Proof. reflexivity. Qed.
Example findall_1 :
  findall_quoted None "Is 'a b' linked to 'c'?" = ["a b"; "c"].
Proof. reflexivity. Qed.
Example findall_2 : findall_quoted None "x '' y 'z' w 'open" = [" y "; " w "].
Proof. reflexivity. Qed.
Example search_word_1 : search_word "mean" "the mean of 'x'" = true.
Proof. reflexivity. Qed.
Example search_word_2 : search_word "mean" "in 'x' means (t-test)" = false.
Proof. reflexivity. Qed.
Example search_word_3 : search_word "count" "is 'count' skewed" = true.
Proof. reflexivity. Qed.

Example answers_on_two_groups :
  answer_questions Lab.two_groups
      ["What is the mean of 'x'?"; Lab.skew_of_x; "Any outliers in 'x'?";
       "Is 'x' missing values?"]
      0.05%float Lab.start
  = (Ok [(Lab.skew_of_x, "'x' skewness = 1.11 (Highly skewed).");
         ("Any outliers in 'x'?",
          "'x' has 0 outliers detected using IQR method.");
         ("Is 'x' missing values?", "No missing data in 'x'.")],
     Lab.start).
Proof. reflexivity. Qed.

Example questions_on_two_groups :
  generate_questions Lab.two_groups 5 Lab.start
  = (Ok ["'x' is highly skewed (skew=1.11); should transformation or robust statistics be used?";
         "Do different 'g' categories show significant differences in 'x' means (t-test/ANOVA) or medians (Kruskal-Wallis) depending on normality?"],
     Lab.start).
Proof. reflexivity. Qed.

(** ** The small instance keeps the library's contract *)

Lemma lab_draw_ok : @draw_ok Lab.lib.
Proof.
  split; simpl; intros.
  - apply length_seq.
  - apply seq_NoDup.
  - match goal with H : In _ (seq _ _) |- _ => apply in_seq in H end. lia.
Qed.

Lemma lab_equal_lengths_required : @equal_lengths_required Lab.lib.
Proof.
  split; simpl; intros x y Hne; unfold Lab.correlation_test;
    destruct (Nat.eqb_spec (length x) (length y)); try contradiction;
    simpl; eexists; reflexivity.
Qed.

(** ** Dictionaries *)

Lemma dict_get_set_same {V} (d : list (string * V)) k v :
  dict_get k (dict_set d k v) = Some v.
Proof.
  induction d as [|[k' v'] d IH]; simpl.
  - now rewrite String.eqb_refl.
  - destruct (String.eqb_spec k' k) as [->|Hne]; simpl.
    + now rewrite String.eqb_refl.
    + destruct (String.eqb_spec k' k); [contradiction | exact IH].
Qed.

Lemma dict_get_set_other {V} (d : list (string * V)) k k' v :
  k' <> k -> dict_get k' (dict_set d k v) = dict_get k' d.
Proof.
  intros Hne. induction d as [|[k0 v0] d IH]; simpl.
  - destruct (String.eqb_spec k k'); [congruence | reflexivity].
  - destruct (String.eqb_spec k0 k) as [->|Hk]; simpl.
    + destruct (String.eqb_spec k k'); [congruence | reflexivity].
    + destruct (String.eqb_spec k0 k'); [reflexivity | exact IH].
Qed.

(** ** The loop of [answer_questions] *)

Section AnswerLoop.
Context `{L : Lib}.
Variables (df : DataFrame) (alpha : float).

Lemma answer_step_outcome answers q r :
  answer_step df alpha answers q r =
    match answer_one df alpha q r with
    | (Ok (Some text), r') => (Ok (dict_set answers q text), r')
    | (Ok None, r') => (Ok answers, r')
    | (Raise e, r') => (Ok (dict_set answers q (error_answer e)), r')
    end.
Proof.
  unfold answer_step, try_except, bind, ret.
  destruct (answer_one df alpha q r) as [[[text|]|e] r']; reflexivity.
Qed.

Lemma answer_step_returns answers q r :
  exists answers' r', answer_step df alpha answers q r = (Ok answers', r').
Proof.
  rewrite answer_step_outcome.
  destruct (answer_one df alpha q r) as [[[text|]|e] r']; eauto.
Qed.

Lemma answer_step_other_keys answers q r answers' r' q' :
  answer_step df alpha answers q r = (Ok answers', r') ->
  q' <> q -> dict_get q' answers' = dict_get q' answers.
Proof.
  rewrite answer_step_outcome. intros H Hne.
  destruct (answer_one df alpha q r) as [[[text|]|e] r1];
    inversion H; subst; auto using dict_get_set_other.
Qed.

Lemma for_each_cons {A S} (body : S -> A -> M S) a l s r :
  for_each body (a :: l) s r =
    match body s a r with
    | (Ok s', r') => for_each body l s' r'
    | (Raise e, r') => (Raise e, r')
    end.
Proof. reflexivity. Qed.

Lemma for_each_app {A S} (body : S -> A -> M S) l1 l2 s r :
  for_each body (l1 ++ l2) s r =
    match for_each body l1 s r with
    | (Ok s', r') => for_each body l2 s' r'
    | (Raise e, r') => (Raise e, r')
    end.
Proof.
  revert s r. induction l1 as [|a l1 IH]; intros s r.
  - reflexivity.
  - simpl app. rewrite !for_each_cons.
    destruct (body s a r) as [[s'|e] r']; [apply IH | reflexivity].
Qed.

Lemma answer_loop_returns qs answers r :
  exists answers' r',
    for_each (answer_step df alpha) qs answers r = (Ok answers', r').
Proof.
  revert answers r. induction qs as [|q qs IH]; intros answers r.
  - simpl. unfold ret. eauto.
  - rewrite for_each_cons.
    destruct (answer_step_returns answers q r) as (a1 & r1 & ->). apply IH.
Qed.

Lemma answer_loop_other_keys qs answers r answers' r' q :
  ~ In q qs ->
  for_each (answer_step df alpha) qs answers r = (Ok answers', r') ->
  dict_get q answers' = dict_get q answers.
Proof.
  revert answers r. induction qs as [|q0 qs IH]; intros answers r Hnot H.
  - simpl in H. inversion H. reflexivity.
  - rewrite for_each_cons in H.
    destruct (answer_step_returns answers q0 r) as (a1 & r1 & Hstep).
    rewrite Hstep in H.
    rewrite (IH a1 r1); [| intros Hin; apply Hnot; now right | exact H].
    apply (answer_step_other_keys _ _ _ _ _ _ Hstep).
    intros ->. apply Hnot. now left.
Qed.

(** A question whose body neither draws nor raises nor assigns leaves no
    entry, wherever and however often it is asked. *)
Lemma answer_loop_silent q qs answers r answers' r' :
  (forall r0, answer_one df alpha q r0 = (Ok None, r0)) ->
  for_each (answer_step df alpha) qs answers r = (Ok answers', r') ->
  dict_get q answers' = dict_get q answers.
Proof.
  intros Hq. revert answers r. induction qs as [|q0 qs IH]; intros answers r H.
  - simpl in H. inversion H. reflexivity.
  - rewrite for_each_cons in H.
    destruct (answer_step_returns answers q0 r) as (a1 & r1 & Hstep).
    rewrite Hstep in H. rewrite (IH a1 r1 H).
    destruct (String.eqb_spec q q0) as [<-|Hne].
    + rewrite answer_step_outcome, Hq in Hstep. now inversion Hstep.
    + apply (answer_step_other_keys _ _ _ _ _ _ Hstep Hne).
Qed.

(** A question whose body always assigns the same text, without drawing,
    ends with that text once it has been asked. *)
Lemma answer_loop_fixed q text qs answers r answers' r' :
  (forall r0, answer_one df alpha q r0 = (Ok (Some text), r0)) ->
  In q qs ->
  for_each (answer_step df alpha) qs answers r = (Ok answers', r') ->
  dict_get q answers' = Some text.
Proof.
  intros Hq. revert answers r.
  induction qs as [|q0 qs IH]; intros answers r Hin H; [contradiction|].
  rewrite for_each_cons in H.
  destruct (answer_step_returns answers q0 r) as (a1 & r1 & Hstep).
  rewrite Hstep in H.
  destruct (in_dec string_dec q qs) as [Hlater|Hnot].
  - exact (IH a1 r1 Hlater H).
  - destruct Hin as [->|Hin]; [|contradiction].
    rewrite (answer_loop_other_keys _ _ _ _ _ _ Hnot H).
    rewrite answer_step_outcome, Hq in Hstep. inversion Hstep.
    apply dict_get_set_same.
Qed.

End AnswerLoop.

Lemma string_append_empty s : String.append s "" = s.
Proof. induction s as [|c s IH]; simpl; [reflexivity | now rewrite IH]. Qed.

(** The text stored for an exception: the fixed words, then the message. *)
Lemma error_answer_text e :
  error_answer e = String.append "Error answering question: " e.
Proof.
  unfold error_answer. cbn [fstr]. now rewrite string_append_empty.
Qed.

(** C6.  [answer_questions] returns a mapping from every frame, list of
    questions, level and generator state: no exception leaves the call.
    When the body raises on a question, the text
    [Error answering question: <message>] is stored under that question,
    the entries of all other questions stay as they were, the loop goes on
    with the questions after it, and the stored text is the final answer
    unless the same question is asked again. *)
Theorem answer_questions_captures_exceptions `{L : Lib} :
  forall df alpha questions r,
    (exists answers r',
        answer_questions df questions alpha r = (Ok answers, r'))
    /\ forall before q after answers0 r0 e r1,
        questions = before ++ q :: after ->
        answer_questions df before alpha r = (Ok answers0, r0) ->
        answer_one df alpha q r0 = (Raise e, r1) ->
        error_answer e = String.append "Error answering question: " e
        /\ answer_questions df questions alpha r
           = for_each (answer_step df alpha) after
                      (dict_set answers0 q (error_answer e)) r1
        /\ dict_get q (dict_set answers0 q (error_answer e))
           = Some (error_answer e)
        /\ (forall q', q' <> q ->
              dict_get q' (dict_set answers0 q (error_answer e))
              = dict_get q' answers0)
        /\ (~ In q after ->
            exists answers r',
              answer_questions df questions alpha r = (Ok answers, r')
              /\ dict_get q answers
                 = Some (String.append "Error answering question: " e)).
Proof.
  intros df alpha questions r. split.
  - apply answer_loop_returns.
  - intros before q after answers0 r0 e r1 -> Hbefore Hq.
    assert (Hrun : answer_questions df (before ++ q :: after) alpha r
                   = for_each (answer_step df alpha) after
                              (dict_set answers0 q (error_answer e)) r1).
    { unfold answer_questions in *. rewrite for_each_app, Hbefore.
      rewrite for_each_cons, answer_step_outcome, Hq. reflexivity. }
    split; [apply error_answer_text|].
    split; [exact Hrun|]. split; [apply dict_get_set_same|].
    split; [intros q' Hne; now apply dict_get_set_other|].
    intros Hnot. rewrite Hrun.
    destruct (answer_loop_returns df alpha after
                (dict_set answers0 q (error_answer e)) r1)
      as (answers & r' & Hafter).
    exists answers, r'. split; [exact Hafter|].
    rewrite (answer_loop_other_keys _ _ _ _ _ _ _ _ Hnot Hafter).
    rewrite <- error_answer_text. apply dict_get_set_same.
Qed.

Lemma answer_questions_captures_exceptions_witness :
  error_answer "'nosuch'" = "Error answering question: 'nosuch'"
  /\ answer_questions Lab.two_groups
        [Lab.skew_of_missing_column; Lab.skew_of_x] 0.05%float Lab.start
     = for_each (answer_step Lab.two_groups 0.05%float) [Lab.skew_of_x]
                (dict_set [] Lab.skew_of_missing_column
                          (error_answer "'nosuch'")) Lab.start
  /\ dict_get Lab.skew_of_missing_column
       (dict_set [] Lab.skew_of_missing_column (error_answer "'nosuch'"))
     = Some (error_answer "'nosuch'")
  /\ dict_get Lab.skew_of_x
       (dict_set [] Lab.skew_of_missing_column (error_answer "'nosuch'"))
     = dict_get Lab.skew_of_x []
  /\ exists answers r',
      answer_questions Lab.two_groups
          [Lab.skew_of_missing_column; Lab.skew_of_x] 0.05%float Lab.start
        = (Ok answers, r')
      /\ dict_get Lab.skew_of_missing_column answers
         = Some "Error answering question: 'nosuch'".
Proof.
  destruct (proj2 (answer_questions_captures_exceptions
                     Lab.two_groups 0.05%float
                     [Lab.skew_of_missing_column; Lab.skew_of_x] Lab.start)
                  [] Lab.skew_of_missing_column [Lab.skew_of_x]
                  [] Lab.start "'nosuch'" Lab.start
                  eq_refl eq_refl eq_refl)
    as (Htext & Hrun & Hset & Hother & Hfinal).
  split; [exact Htext|].
  split; [exact Hrun|]. split; [exact Hset|]. split.
  - apply Hother. discriminate.
  - apply Hfinal. intros [E|[]]. discriminate.
Defined.

(** ** Quoting and extraction *)

Lemma quote_free_append a b :
  quote_free (String.append a b) = quote_free a && quote_free b.
Proof.
  induction a as [|c a IH]; simpl; [reflexivity|].
  rewrite IH. now rewrite andb_assoc.
Qed.

Lemma quote_free_fstr parts :
  forallb quote_free parts = true -> quote_free (fstr parts) = true.
Proof.
  induction parts as [|p parts IH]; simpl; [reflexivity|].
  intros H. apply andb_prop in H as [Hp Hrest].
  now rewrite quote_free_append, Hp, IH.
Qed.

Lemma findall_outside v rest :
  quote_free v = true ->
  findall_quoted None (String.append v rest) = findall_quoted None rest.
Proof.
  induction v as [|c v IH]; simpl; [reflexivity|].
  intros H. apply andb_prop in H as [Hc Hv].
  destruct (Ascii.eqb c quote); [discriminate | now apply IH].
Qed.

Lemma findall_inside v acc rest :
  quote_free v = true ->
  findall_quoted (Some acc) (String.append v rest)
  = findall_quoted (Some (rev_chars v ++ acc)) rest.
Proof.
  revert acc. induction v as [|c v IH]; intros acc; simpl; [reflexivity|].
  intros H. apply andb_prop in H as [Hc Hv].
  destruct (Ascii.eqb c quote); [discriminate|].
  rewrite (IH _ Hv). unfold rev_chars. simpl.
  now rewrite <- app_assoc.
Qed.

Lemma rev_string_spec acc tail :
  rev_string acc tail
  = String.append (string_of_list_ascii (rev acc)) tail.
Proof.
  revert tail. induction acc as [|c acc IH]; intros tail; simpl.
  - reflexivity.
  - rewrite IH. clear IH. induction (rev acc) as [|d l IHl]; simpl.
    + reflexivity.
    + now rewrite IHl.
Qed.

Lemma append_empty_r s : String.append s "" = s.
Proof. induction s as [|c s IH]; simpl; [reflexivity | now rewrite IH]. Qed.

Lemma rev_string_rev_chars v : rev_string (rev_chars v) "" = v.
Proof.
  rewrite rev_string_spec. unfold rev_chars.
  rewrite rev_involutive, string_of_list_ascii_of_string.
  apply append_empty_r.
Qed.

(** A plain name between two quotes is read back, and the search goes on
    after the closing quote. *)
Lemma findall_column v rest :
  plain_name v ->
  findall_quoted (Some []) (String.append v (String quote rest))
  = v :: findall_quoted None rest.
Proof.
  intros [Hne Hfree]. rewrite (findall_inside _ _ _ Hfree), app_nil_r.
  simpl. rewrite <- (rev_string_rev_chars v) at 2.
  destruct (rev_chars v) as [|c l] eqn:Hrev; [|reflexivity].
  exfalso. apply Hne. rewrite <- (rev_string_rev_chars v), Hrev. reflexivity.
Qed.

Lemma findall_free v : quote_free v = true -> findall_quoted None v = [].
Proof.
  intros H. rewrite <- (append_empty_r v). now rewrite findall_outside.
Qed.

Lemma quote_free_uint d : quote_free (NilEmpty.string_of_uint d) = true.
Proof. induction d; simpl; auto. Qed.

Lemma quote_free_str_nat n : quote_free (str_nat n) = true.
Proof.
  unfold str_nat, NilZero.string_of_uint.
  destruct (Nat.to_uint n); try reflexivity; apply quote_free_uint.
Qed.

Lemma quote_free_zeros n : quote_free (zeros n) = true.
Proof. induction n; simpl; auto. Qed.

Lemma quote_free_fixed_digits n d : quote_free (fixed_digits n d) = true.
Proof.
  unfold fixed_digits. destruct d.
  - apply quote_free_str_nat.
  - apply quote_free_fstr. simpl. unfold pad_zeros.
    now rewrite quote_free_append, quote_free_zeros, !quote_free_str_nat.
Qed.

Lemma quote_free_fmt_fixed d x : quote_free (fmt_fixed d x) = true.
Proof.
  unfold fmt_fixed.
  destruct (Prim2SF x) as [s|s| |s m e].
  - apply quote_free_fstr. simpl. rewrite quote_free_fixed_digits.
    destruct s; reflexivity.
  - destruct s; reflexivity.
  - reflexivity.
  - apply quote_free_fstr. simpl. rewrite quote_free_fixed_digits.
    destruct s; reflexivity.
Qed.

Lemma quote_free_method_name m : quote_free (method_name m) = true.
Proof. destruct m; reflexivity. Qed.

(** Reading a question built from literal text, quote-free insertions and
    plain names between quotes. *)
Ltac read_question :=
  unfold extract_columns_from_question; cbn [q_text fstr];
  repeat first
    [ rewrite findall_column by assumption
    | rewrite findall_outside by
        (first [ apply quote_free_fmt_fixed | apply quote_free_str_nat
               | apply quote_free_method_name | assumption ])
    | progress cbn [String.append findall_quoted Ascii.eqb Bool.eqb quote] ];
  try reflexivity.

Section Extraction.
Variables (c1 c2 : string).
Hypotheses (Hc1 : plain_name c1) (Hc2 : plain_name c2).

Lemma extract_correlation_question strength method corr :
  quote_free strength = true ->
  extract_columns_from_question
    (q_text (correlation_question strength method corr c1 c2)) = [c1; c2].
Proof. intros Hs. unfold correlation_question. read_question. Qed.

Lemma extract_skew_question v :
  extract_columns_from_question (q_text (skew_question c1 v)) = [c1].
Proof. unfold skew_question. read_question. Qed.

Lemma extract_kurtosis_question v :
  extract_columns_from_question (q_text (kurtosis_question c1 v)) = [c1].
Proof. unfold kurtosis_question. read_question. Qed.

Lemma extract_difference_question :
  extract_columns_from_question (q_text (difference_question c1 c2)) = [c1; c2].
Proof. unfold difference_question. read_question. Qed.

Lemma extract_association_question :
  extract_columns_from_question (q_text (association_question c1 c2)) = [c1; c2].
Proof. unfold association_question. read_question. Qed.

Lemma extract_seasonal_question :
  extract_columns_from_question (q_text (seasonal_question c1)) = [c1].
Proof. unfold seasonal_question. read_question. Qed.

Lemma extract_trend_question :
  extract_columns_from_question (q_text (trend_question c1 c2)) = [c1; c2].
Proof. unfold trend_question. read_question. Qed.

Lemma extract_outlier_question n :
  extract_columns_from_question (q_text (outlier_question n c1)) = [c1].
Proof. unfold outlier_question. read_question. Qed.

Lemma extract_missing_question pct :
  extract_columns_from_question (q_text (missing_question pct c1)) = [c1].
Proof. unfold missing_question. read_question. Qed.

End Extraction.

Lemma extract_duplicate_question :
  extract_columns_from_question (q_text duplicate_question) = [].
Proof. reflexivity. Qed.

Lemma quote_free_strength_word corr : quote_free (strength_word corr) = true.
Proof. unfold strength_word. now destruct (fgt _ _). Qed.

(** ** Computations *)

Section Computations.
Context `{L : Lib}.

Lemma bind_ok {A B} (c : M A) (k : A -> M B) r b r' :
  bind c k r = (Ok b, r') ->
  exists a r1, c r = (Ok a, r1) /\ k a r1 = (Ok b, r').
Proof.
  unfold bind. destruct (c r) as [[a|e] r1]; intros H.
  - now exists a, r1.
  - discriminate.
Qed.

Lemma lift_ok {A} (c : res A) r a r' :
  lift c r = (Ok a, r') -> c = Ok a /\ r' = r.
Proof. unfold lift. intros H. now inversion H. Qed.

Lemma ret_ok {A} (a : A) r b r' :
  ret a r = (Ok b, r') -> a = b /\ r' = r.
Proof. unfold ret. intros H. now inversion H. Qed.

Lemma for_each_invariant {A S} (P : S -> Prop) (Q : A -> Prop)
    (body : S -> A -> M S) l :
  (forall s a r s' r', Q a -> P s -> body s a r = (Ok s', r') -> P s') ->
  Forall Q l ->
  forall s r s' r', P s -> for_each body l s r = (Ok s', r') -> P s'.
Proof.
  intros Hbody HQ. induction HQ as [|a l Ha _ IH]; intros s r s' r' Hs H.
  - apply ret_ok in H as [<- _]. exact Hs.
  - simpl in H. apply bind_ok in H as (s1 & r1 & H1 & H2).
    exact (IH _ _ _ _ (Hbody _ _ _ _ _ Ha Hs H1) H2).
Qed.

End Computations.

Ltac comp_inv :=
  repeat match goal with
  | H : bind _ _ _ = (Ok _, _) |- _ =>
      let a := fresh "a" in
      let r := fresh "r" in
      let Ha := fresh "Ha" in
      let Hk := fresh "Hk" in
      apply bind_ok in H; destruct H as (a & r & Ha & Hk)
  | H : lift _ _ = (Ok _, _) |- _ =>
      let E := fresh "E" in
      let Er := fresh "Er" in
      apply lift_ok in H; destruct H as [E Er]; try subst
  | H : ret _ _ = (Ok _, _) |- _ =>
      let E := fresh "E" in
      let Er := fresh "Er" in
      apply ret_ok in H; destruct H as [E Er]; try subst
  end.

(** ** The shape of the generated questions *)

Lemma select_dtypes_incl sel df : incl (select_dtypes sel df) (column_names df).
Proof.
  unfold select_dtypes, column_names. intros c Hc.
  apply in_map_iff in Hc as (x & <- & Hx). apply filter_In in Hx as [Hx _].
  now apply in_map.
Qed.

Lemma columns_with_missing_incl df :
  incl (columns_with_missing df) (column_names df).
Proof.
  unfold columns_with_missing, column_names. intros c Hc.
  apply in_map_iff in Hc as (x & <- & Hx). apply filter_In in Hx as [Hx _].
  now apply in_map.
Qed.

Lemma ordered_pairs_in {A} (l : list A) a b :
  In (a, b) (ordered_pairs l) -> In a l /\ In b l.
Proof.
  induction l as [|x l IH]; simpl; [contradiction|].
  intros H. apply in_app_or in H as [H|H].
  - apply in_map_iff in H as (y & Hy & Hin). inversion Hy; subst. auto.
  - destruct (IH H). auto.
Qed.

Ltac split_ifs :=
  repeat match goal with
  | |- context [if ?b then _ else _] => destruct b eqn:?
  end.

Ltac other_questions :=
  repeat (apply Forall_app; split); auto;
  repeat constructor; auto.

Section Shape.
Context `{L : Lib}.
Variable df : DataFrame.
Let names := column_names df.

Lemma distribution_shape cols qs r r' :
  incl cols names ->
  distribution_questions df cols r = (Ok qs, r') ->
  Forall (other_question names) qs.
Proof.
  intros Hincl. unfold distribution_questions.
  apply (for_each_invariant (Forall (other_question names))
                            (fun c => In c names)).
  - intros s a r0 s' r0' Ha Hs H. comp_inv. split_ifs; other_questions.
  - apply Forall_forall. exact Hincl.
  - constructor.
Qed.

Lemma difference_shape cats nums qs r r' :
  incl cats names -> incl nums names ->
  difference_questions df cats nums r = (Ok qs, r') ->
  Forall (other_question names) qs.
Proof.
  intros Hcats Hnums. unfold difference_questions.
  apply (for_each_invariant (Forall (other_question names))
                            (fun c => In c names)).
  - intros s a r0 s' r0' Ha Hs H. comp_inv. split_ifs; other_questions.
    apply Forall_forall. intros q Hq.
    apply in_map_iff in Hq as (num & <- & Hnum).
    constructor; auto.
  - apply Forall_forall. exact Hcats.
  - constructor.
Qed.

Lemma association_shape cats qs r r' :
  incl cats names ->
  association_questions df cats r = (Ok qs, r') ->
  Forall (other_question names) qs.
Proof.
  intros Hcats. unfold association_questions.
  apply (for_each_invariant (Forall (other_question names))
                            (fun p => In (fst p) names /\ In (snd p) names)).
  - intros s a r0 s' r0' [Ha Hb] Hs H. comp_inv. split_ifs; other_questions.
  - apply Forall_forall. intros [a b] Hab.
    apply ordered_pairs_in in Hab as [Ha Hb]. split; auto.
  - constructor.
Qed.

Lemma time_shape dates nums :
  incl dates names -> incl nums names ->
  Forall (other_question names) (time_questions dates nums).
Proof.
  intros Hdates Hnums. unfold time_questions.
  apply Forall_forall. intros q Hq.
  apply in_flat_map in Hq as (col & Hcol & [<-|Hq]).
  - constructor; auto.
  - apply in_map_iff in Hq as (num & <- & Hnum). constructor; auto.
Qed.

Lemma outlier_shape cols qs r r' :
  incl cols names ->
  outlier_questions df cols r = (Ok qs, r') ->
  Forall (other_question names) qs.
Proof.
  intros Hincl. unfold outlier_questions.
  apply (for_each_invariant (Forall (other_question names))
                            (fun c => In c names)).
  - intros s a r0 s' r0' Ha Hs H. comp_inv. split_ifs; other_questions.
  - apply Forall_forall. exact Hincl.
  - constructor.
Qed.

Lemma missing_shape qs r r' :
  missing_questions df r = (Ok qs, r') ->
  Forall (other_question names) qs.
Proof.
  unfold missing_questions.
  apply (for_each_invariant (Forall (other_question names))
                            (fun c => In c names)).
  - intros s a r0 s' r0' Ha Hs H. comp_inv. split_ifs; other_questions.
  - apply Forall_forall. apply columns_with_missing_incl.
  - constructor.
Qed.

Lemma duplicate_shape : Forall (other_question names) (duplicate_questions df).
Proof. unfold duplicate_questions. split_ifs; repeat constructor. Qed.

(** The loop over the pairs: what it appends are picks among the pairs,
    in their order, each with its computed coefficient above the
    threshold, and the counter counts them and stays under the cap. *)
Lemma correlation_loop_shape max pairs :
  forall qs added r qs' added' r',
    for_each (correlation_step df max) pairs (qs, added) r
      = (Ok (qs', added'), r') ->
    exists picks,
      qs' = qs ++ map pick_question picks
      /\ added' = (added + Z.of_nat (length picks))%Z
      /\ subseq (map pick_pair picks) pairs
      /\ Forall (pick_computed df) picks
      /\ (picks = [] \/ (added' <= max)%Z).
Proof.
  induction pairs as [|[col1 col2] pairs IH]; intros qs added r qs' added' r' H.
  - apply ret_ok in H as [E _]. inversion E; subst.
    exists []. rewrite app_nil_r, Z.add_0_r.
    repeat split; auto; constructor.
  - simpl for_each in H. apply bind_ok in H as ([qs1 added1] & r1 & Hstep & Hrest).
    apply IH in Hrest as (picks & -> & -> & Hsub & Hall & Hcap).
    unfold correlation_step in Hstep.
    apply bind_ok in Hstep as (s1 & r2 & Hs1 & Hstep).
    apply lift_ok in Hs1 as [Hs1 ->].
    apply bind_ok in Hstep as (s2 & r3 & Hs2 & Hstep).
    apply lift_ok in Hs2 as [Hs2 ->].
    destruct ((length (dropna (values s1)) =? 0)%nat
              || (length (dropna (values s2)) =? 0)%nat).
    { apply ret_ok in Hstep as [E _]. inversion E; subst.
      exists picks. repeat split; auto. now constructor. }
    apply bind_ok in Hstep as (method & r4 & Hmethod & Hstep).
    apply bind_ok in Hstep as (corr & r5 & Hcorr & Hstep).
    apply lift_ok in Hcorr as [Hcorr ->].
    destruct (negb (PrimFloat.is_nan corr)
              && fgt (PrimFloat.abs corr) 0.3%float
              && (added <? max)%Z) eqn:Hemit.
    + apply ret_ok in Hstep as [E _]. inversion E; subst.
      apply andb_prop in Hemit as [Hemit Hlt].
      apply andb_prop in Hemit as [_ Habove].
      apply Z.ltb_lt in Hlt.
      exists (mkPick col1 col2 method corr :: picks). simpl.
      rewrite <- app_assoc. simpl.
      repeat split.
      * lia.
      * now constructor.
      * constructor; [|exact Hall]. exists s1, s2. simpl. eauto 7.
      * right. destruct Hcap as [->|Hcap]; simpl; lia.
    + apply ret_ok in Hstep as [E _]. inversion E; subst.
      exists picks. repeat split; auto. now constructor.
Qed.

End Shape.

Lemma generate_shape `{L : Lib} df max r qs r' :
  generate df max r = (Ok qs, r') ->
  exists picks rest,
    qs = map pick_question picks ++ rest
    /\ subseq (map pick_pair picks)
              (ordered_pairs (select_dtypes sel_number df))
    /\ Forall (pick_computed df) picks
    /\ (picks = [] \/ (Z.of_nat (length picks) <= max)%Z)
    /\ Forall (other_question (column_names df)) rest.
Proof.
  unfold generate. intros H.
  apply bind_ok in H as (correlation & r1 & Hcorr & H).
  apply bind_ok in H as (distribution & r2 & Hdist & H).
  apply bind_ok in H as (difference & r3 & Hdiff & H).
  apply bind_ok in H as (association & r4 & Hassoc & H).
  apply bind_ok in H as (outlier & r5 & Hout & H).
  apply bind_ok in H as (missing & r6 & Hmiss & H).
  apply ret_ok in H as [<- _].
  unfold correlation_questions in Hcorr.
  apply bind_ok in Hcorr as ([questions added] & r0 & Hloop & Hret).
  apply ret_ok in Hret as [<- _].
  apply correlation_loop_shape in Hloop
    as (picks & -> & -> & Hsub & Hall & Hcap).
  exists picks. eexists. split; [reflexivity|].
  repeat split; auto.
  repeat (apply Forall_app; split).
  - eapply distribution_shape; [|eassumption]. apply select_dtypes_incl.
  - eapply difference_shape; [| |eassumption]; apply select_dtypes_incl.
  - eapply association_shape; [|eassumption]. apply select_dtypes_incl.
  - apply time_shape; apply select_dtypes_incl.
  - eapply outlier_shape; [|eassumption]. apply select_dtypes_incl.
  - eapply missing_shape; eassumption.
  - apply duplicate_shape.
Qed.

Lemma subseq_incl {A} (l1 l2 : list A) : subseq l1 l2 -> incl l1 l2.
Proof.
  induction 1 as [|a l1 l2 _ IH|a l1 l2 _ IH]; intros x Hx.
  - contradiction.
  - right. now apply IH.
  - destruct Hx as [->|Hx]; [now left | right; now apply IH].
Qed.

Lemma other_question_well_quoted names q :
  (forall c, In c names -> plain_name c) ->
  other_question names q -> well_quoted names q.
Proof.
  intros Hplain Hq. unfold well_quoted.
  destruct Hq; (split; [intros c Hc; simpl in Hc; intuition (subst; auto)|]).
  - apply extract_skew_question; auto.
  - apply extract_kurtosis_question; auto.
  - apply extract_difference_question; auto.
  - apply extract_association_question; auto.
  - apply extract_seasonal_question; auto.
  - apply extract_trend_question; auto.
  - apply extract_outlier_question; auto.
  - apply extract_missing_question; auto.
  - apply extract_duplicate_question.
Qed.

Lemma pick_question_well_quoted names p :
  (forall c, In c names -> plain_name c) ->
  In (p_col1 p) names -> In (p_col2 p) names ->
  well_quoted names (pick_question p).
Proof.
  intros Hplain H1 H2. split.
  - intros c Hc. simpl in Hc. intuition (subst; auto).
  - apply extract_correlation_question; auto.
    apply quote_free_strength_word.
Qed.

Lemma other_question_not_correlation names q :
  other_question names q -> is_correlation_text (q_text q) = false.
Proof. destruct 1; reflexivity. Qed.

Lemma pick_question_is_correlation p :
  is_correlation_text (q_text (pick_question p)) = true.
Proof.
  unfold pick_question, correlation_question, strength_word.
  now destruct (fgt _ _).
Qed.

Lemma filter_count {A} (f : A -> bool) l1 l2 :
  Forall (fun x => f x = true) l1 ->
  Forall (fun x => f x = false) l2 ->
  filter f (l1 ++ l2) = l1.
Proof.
  intros H1 H2. rewrite filter_app.
  assert (E1 : filter f l1 = l1).
  { induction H1 as [|x l Hx _ IH]; simpl; [reflexivity|].
    now rewrite Hx, IH. }
  assert (E2 : filter f l2 = []).
  { induction H2 as [|x l Hx _ IH]; simpl; [reflexivity|].
    now rewrite Hx. }
  now rewrite E1, E2, app_nil_r.
Qed.

(** C7, as amended.  When every column name of the frame is non-empty and
    holds no single quote, the texts [generate_questions] returns are those
    of the questions the generator built, each built from column names of
    the frame, and [extract_columns_from_question] reads exactly these
    names back from the text, in their order. *)
Theorem generated_questions_read_back `{L : Lib} :
  forall df max r texts r',
    (forall c, In c (column_names df) -> plain_name c) ->
    generate_questions df max r = (Ok texts, r') ->
    exists questions,
      generate df max r = (Ok questions, r')
      /\ texts = map q_text questions
      /\ Forall (well_quoted (column_names df)) questions.
Proof.
  intros df max r texts r' Hplain H. unfold generate_questions in H.
  apply bind_ok in H as (questions & r1 & Hgen & H).
  apply ret_ok in H as [<- ->].
  exists questions. repeat split; auto.
  apply generate_shape in Hgen as (picks & rest & -> & Hsub & _ & _ & Hrest).
  apply Forall_app. split.
  - apply Forall_forall. intros q Hq.
    apply in_map_iff in Hq as (p & <- & Hp).
    assert (Hpair : In (pick_pair p)
                       (ordered_pairs (select_dtypes sel_number df))).
    { apply (subseq_incl _ _ Hsub). now apply in_map. }
    apply ordered_pairs_in in Hpair as [H1 H2].
    apply pick_question_well_quoted; auto;
      eapply select_dtypes_incl; eassumption.
  - eapply Forall_impl; [|exact Hrest].
    intros q. now apply other_question_well_quoted.
Qed.

Lemma generated_questions_read_back_witness :
  exists questions,
    generate Lab.two_columns 5 Lab.start = (Ok questions, Lab.start)
    /\ [q_text (correlation_question "strong" Pearson 1%float "a" "b")]
       = map q_text questions
    /\ Forall (well_quoted (column_names Lab.two_columns)) questions.
Proof.
  apply (generated_questions_read_back Lab.two_columns 5 Lab.start).
  - intros c [<-|[<-|[]]]; split; (discriminate || reflexivity).
  - reflexivity.
Defined.

(** C7, as stated, fails on a column under the empty name: the name holds
    no single quote, the generator builds the association question from the
    names [""] and ["b"], and the extraction reads [" and "] from it. *)
Lemma empty_name_not_read_back :
  forallb quote_free (column_names Lab.unnamed_column) = true
  /\ generate Lab.unnamed_column 5 Lab.start
     = (Ok [association_question "" "b"], Lab.start)
  /\ q_cols (association_question "" "b") = [""; "b"]
  /\ extract_columns_from_question (q_text (association_question "" "b"))
     = [" and "].
Proof. repeat split. Qed.

(** C8.  The correlation questions among the texts [generate_questions]
    returns are at most [max_corr_questions] (none for a cap below 1);
    they come first, and they are the questions of picks taken among the
    pairs of numeric columns in the order of the columns, each with the
    coefficient computed on its two columns strictly above 0.3 in absolute
    value. *)
Theorem correlation_questions_capped `{L : Lib} :
  forall df max r texts r',
    (0 <= max)%Z ->
    generate_questions df max r = (Ok texts, r') ->
    (Z.of_nat (length (filter is_correlation_text texts)) <= max)%Z
    /\ exists picks rest,
        texts = map (fun p => q_text (pick_question p)) picks ++ rest
        /\ filter is_correlation_text texts
           = map (fun p => q_text (pick_question p)) picks
        /\ subseq (map pick_pair picks)
                  (ordered_pairs (select_dtypes sel_number df))
        /\ Forall (pick_computed df) picks.
Proof.
  intros df max r texts r' Hmax H. unfold generate_questions in H.
  apply bind_ok in H as (questions & r1 & Hgen & H).
  apply ret_ok in H as [<- ->].
  apply generate_shape in Hgen
    as (picks & rest & -> & Hsub & Hall & Hcap & Hrest).
  assert (Hfilter :
    filter is_correlation_text (map q_text (map pick_question picks ++ rest))
    = map (fun p => q_text (pick_question p)) picks).
  { rewrite map_app, map_map. apply filter_count.
    - apply Forall_forall. intros t Ht.
      apply in_map_iff in Ht as (p & <- & _).
      apply pick_question_is_correlation.
    - apply Forall_forall. intros t Ht.
      apply in_map_iff in Ht as (q & <- & Hq).
      rewrite Forall_forall in Hrest.
      eapply other_question_not_correlation. now apply Hrest. }
  split.
  - rewrite Hfilter, length_map. destruct Hcap as [->|Hcap]; simpl; lia.
  - exists picks, (map q_text rest). repeat split; auto.
    now rewrite map_app, map_map.
Qed.

Lemma correlation_questions_capped_witness :
  (Z.of_nat (length (filter is_correlation_text
      [q_text (correlation_question "strong" Pearson 1%float "a" "b")])) <= 5)%Z
  /\ exists picks rest,
      [q_text (correlation_question "strong" Pearson 1%float "a" "b")]
      = map (fun p => q_text (pick_question p)) picks ++ rest
      /\ filter is_correlation_text
           [q_text (correlation_question "strong" Pearson 1%float "a" "b")]
         = map (fun p => q_text (pick_question p)) picks
      /\ subseq (map pick_pair picks)
                (ordered_pairs (select_dtypes sel_number Lab.two_columns))
      /\ Forall (@pick_computed Lab.lib Lab.two_columns) picks.
Proof.
  apply (correlation_questions_capped Lab.two_columns 5 Lab.start _ Lab.start).
  - lia.
  - reflexivity.
Defined.

(** Whatever the cap, the number of correlation questions is at most the
    cap or zero. *)
Lemma correlation_questions_capped_any `{L : Lib} df max r texts r' :
  generate_questions df max r = (Ok texts, r') ->
  (Z.of_nat (length (filter is_correlation_text texts)) <= Z.max 0 max)%Z.
Proof.
  intros H. unfold generate_questions in H.
  apply bind_ok in H as (questions & r1 & Hgen & H).
  apply ret_ok in H as [<- ->].
  apply generate_shape in Hgen
    as (picks & rest & -> & Hsub & Hall & Hcap & Hrest).
  rewrite map_app, map_map, filter_count, length_map.
  - destruct Hcap as [->|Hcap]; simpl; lia.
  - apply Forall_forall. intros t Ht.
    apply in_map_iff in Ht as (p & <- & _).
    apply pick_question_is_correlation.
  - apply Forall_forall. intros t Ht.
    apply in_map_iff in Ht as (q & <- & Hq).
    rewrite Forall_forall in Hrest.
    eapply other_question_not_correlation. now apply Hrest.
Qed.

(** ** Questions the dispatch answers without drawing *)

Lemma frame_get_in df c s :
  NoDup (column_names df) -> In (c, s) df -> frame_get df c = Ok s.
Proof.
  unfold column_names. induction df as [|[n s0] df IH]; simpl; [contradiction|].
  intros Hnd Hin. inversion Hnd as [|? ? Hnot Hnd']; subst.
  destruct (String.eqb_spec n c) as [->|Hne].
  - destruct Hin as [E|Hin]; [now inversion E|].
    exfalso. apply Hnot. change c with (fst (c, s)). now apply in_map.
  - destruct Hin as [E|Hin]; [inversion E; contradiction | now apply IH].
Qed.

Lemma frame_get_selected sel df c :
  NoDup (column_names df) -> In c (select_dtypes sel df) ->
  exists s, frame_get df c = Ok s /\ sel (dtype_of s) = true.
Proof.
  intros Hnd Hc. unfold select_dtypes in Hc.
  apply in_map_iff in Hc as ([n s] & <- & Hin).
  apply filter_In in Hin as [Hin Hsel].
  exists s. split; [now apply frame_get_in | exact Hsel].
Qed.

Lemma lower_append a b :
  lower (String.append a b) = String.append (lower a) (lower b).
Proof.
  unfold lower. induction a as [|c a IH]; simpl; [reflexivity|].
  now rewrite IH.
Qed.

Lemma contains_append_r needle a b :
  contains needle b = true -> contains needle (String.append a b) = true.
Proof.
  intros H. induction a as [|c a IH]; simpl; [exact H|].
  rewrite IH. apply orb_true_r.
Qed.

Lemma trend_question_has_keyword num col :
  contains "trend" (lower (q_text (trend_question num col))) = true.
Proof.
  unfold trend_question. cbn [q_text fstr].
  rewrite !lower_append. do 4 apply contains_append_r. reflexivity.
Qed.

Section Silent.
Context `{L : Lib}.
Variables (df : DataFrame) (alpha : float) (num col : string).
Hypothesis Hnames : NoDup (column_names df).
Hypothesis Hnum : In num (select_dtypes sel_number df).
Hypothesis Hcol : In col (select_dtypes sel_datetime df).
Hypotheses (Pnum : plain_name num) (Pcol : plain_name col).
Hypothesis Hdup :
  contains "duplicate" (lower (q_text (trend_question num col))) = false.

(** No branch of the dispatch assigns an answer to the question on a
    numeric column over a datetime column. *)
Lemma trend_question_silent r :
  answer_one df alpha (q_text (trend_question num col)) r = (Ok None, r).
Proof.
  destruct (frame_get_selected _ _ _ Hnames Hnum) as (sn & Gn & Dn).
  destruct (frame_get_selected _ _ _ Hnames Hcol) as (sc & Gc & Dc).
  assert (Nc : is_numeric_dtype sc = false)
    by (unfold is_numeric_dtype; destruct (dtype_of sc); easy).
  assert (On : is_object sn || is_categorical_dtype sn = false)
    by (unfold is_object, is_categorical_dtype; destruct (dtype_of sn); easy).
  unfold answer_one.
  rewrite (extract_trend_question _ _ Pnum Pcol), Hdup.
  destruct (existsb _ skip_patterns); [reflexivity|].
  change (length [num; col] =? 2)%nat with true.
  change (length [num; col] =? 1)%nat with false.
  rewrite !andb_false_r, !andb_true_r.
  destruct (contains "correlation" _).
  { unfold bind, lift, ret, numeric_column, all_of, unpack2; simpl.
    unfold bind, lift, ret. rewrite Gn.
    destruct (is_numeric_dtype sn); [now rewrite Gc, Nc | reflexivity]. }
  destruct (contains "different" _).
  { unfold bind, lift, ret, numeric_column, unpack2; simpl.
    unfold bind, lift, ret. now rewrite Gc, Nc. }
  destruct (contains "association" _).
  { unfold bind, lift, ret, object_or_category, unpack2; simpl.
    unfold bind, lift, ret. now rewrite Gn, On. }
  reflexivity.
Qed.

End Silent.

(** C10, as amended.  For a numeric column and a datetime column of a frame
    with distinct column names, both names non-empty and without a single
    quote, the question on the change of the one over the other quotes the
    two names and holds the keyword [trend]; when its lower-cased text
    does not hold the keyword [duplicate], [answer_questions] returns a
    mapping with no entry for it, whatever the questions asked. *)
Theorem trend_pair_question_unanswered `{L : Lib} :
  forall df alpha questions r num col,
    NoDup (column_names df) ->
    In num (select_dtypes sel_number df) ->
    In col (select_dtypes sel_datetime df) ->
    plain_name num -> plain_name col ->
    contains "duplicate" (lower (q_text (trend_question num col))) = false ->
    extract_columns_from_question (q_text (trend_question num col))
      = [num; col]
    /\ contains "trend" (lower (q_text (trend_question num col))) = true
    /\ exists answers r',
        answer_questions df questions alpha r = (Ok answers, r')
        /\ dict_get (q_text (trend_question num col)) answers = None.
Proof.
  intros df alpha questions r num col Hnames Hnum Hcol Pnum Pcol Hdup.
  split; [now apply extract_trend_question|].
  split; [apply trend_question_has_keyword|].
  destruct (answer_loop_returns df alpha questions [] r) as (answers & r' & H).
  exists answers, r'. split; [exact H|].
  rewrite (answer_loop_silent df alpha _ _ _ _ _ _
             (trend_question_silent df alpha num col
                                    Hnames Hnum Hcol Pnum Pcol Hdup) H).
  reflexivity.
Qed.

Lemma trend_pair_question_unanswered_witness :
  extract_columns_from_question (q_text (trend_question "sales" "date"))
    = ["sales"; "date"]
  /\ contains "trend" (lower (q_text (trend_question "sales" "date"))) = true
  /\ exists answers r',
      answer_questions Lab.dated_sales
          [q_text (trend_question "sales" "date"); Lab.skew_of_x]
          0.05%float Lab.start = (Ok answers, r')
      /\ dict_get (q_text (trend_question "sales" "date")) answers = None.
Proof.
  apply (trend_pair_question_unanswered Lab.dated_sales 0.05%float
           [q_text (trend_question "sales" "date"); Lab.skew_of_x] Lab.start
           "sales" "date").
  - repeat constructor; simpl; intuition discriminate.
  - simpl. auto.
  - simpl. auto.
  - split; [discriminate | reflexivity].
  - split; [discriminate | reflexivity].
  - reflexivity.
Defined.

(** C10, as stated, fails when a column name holds the keyword of another
    branch: the numeric column [duplicate_flag] and the datetime column
    [date] give a question that the generator emits and that the duplicate
    branch answers. *)
Lemma trend_pair_question_answered :
  select_dtypes sel_number Lab.dated_flags = ["duplicate_flag"]
  /\ select_dtypes sel_datetime Lab.dated_flags = ["date"]
  /\ generate_questions Lab.dated_flags 5 Lab.start
     = (Ok [q_text (seasonal_question "date");
            q_text (trend_question "duplicate_flag" "date")], Lab.start)
  /\ extract_columns_from_question
       (q_text (trend_question "duplicate_flag" "date"))
     = ["duplicate_flag"; "date"]
  /\ answer_questions Lab.dated_flags
         [q_text (trend_question "duplicate_flag" "date")]
         0.05%float Lab.start
     = (Ok [(q_text (trend_question "duplicate_flag" "date"),
             "Dataset contains 0 duplicate rows.")], Lab.start).
Proof. repeat split. Qed.

(** The conditions on the names are needed: under the empty name the
    extraction reads one text only, and the trend branch answers. *)
Example trend_question_of_unnamed_column :
  select_dtypes sel_number Lab.dated_unnamed = [""]
  /\ extract_columns_from_question (q_text (trend_question "" "date"))
     = [" change significantly over time based on "]
  /\ answer_questions Lab.dated_unnamed [q_text (trend_question "" "date")]
         0.05%float Lab.start
     = (Ok [(q_text (trend_question "" "date"),
             "Trend analysis for ' change significantly over time based on ' requires time-series decomposition — not automated here.")],
        Lab.start).
Proof. repeat split. Qed.

Lemma few_groups_answer `{L : Lib} df alpha q cat_col num_col groups r :
  asks_group_difference df q cat_col num_col ->
  grouped_values df cat_col num_col = Ok groups ->
  length groups < 2 ->
  answer_one df alpha q r = (Ok (Some not_enough_groups), r).
Proof.
  intros (_ & Hskip & Hcorr & Hdiff & Hext & (num & Gn & Nn) & (cat & Gc & Oc))
         Hgroups Hfew.
  apply Nat.ltb_lt in Hfew.
  unfold answer_one. rewrite Hskip, Hcorr, Hdiff, Hext.
  change (length [cat_col; num_col] =? 2)%nat with true.
  change (length [cat_col; num_col] =? 1)%nat with false.
  rewrite !andb_false_r. simpl.
  unfold bind, lift, ret, numeric_column, object_or_category; simpl.
  unfold bind, lift, ret. rewrite Gn, Nn, Gc, Oc.
  unfold test_numeric_categorical, bind, lift, ret.
  now rewrite Hgroups, Hfew.
Qed.

(** C1, as amended.  When a question, a text in ASCII, reaches the
    group-difference branch and grouping by the categorical column gives
    fewer than 2 groups, the
    returned mapping holds an entry for the question, and its text is the
    message [Not enough groups for hypothesis testing.] that
    [test_numeric_categorical] returned. *)
Theorem few_groups_answered_with_message `{L : Lib} :
  forall df alpha questions r q cat_col num_col groups,
    asks_group_difference df q cat_col num_col ->
    grouped_values df cat_col num_col = Ok groups ->
    length groups < 2 ->
    In q questions ->
    (forall r0, test_numeric_categorical df cat_col num_col alpha r0
                = (Ok (RStr not_enough_groups), r0))
    /\ exists answers r',
        answer_questions df questions alpha r = (Ok answers, r')
        /\ dict_get q answers = Some not_enough_groups.
Proof.
  intros df alpha questions r q cat_col num_col groups Hasks Hgroups Hfew Hin.
  split.
  - intros r0. unfold test_numeric_categorical, bind, lift, ret.
    rewrite Hgroups. apply Nat.ltb_lt in Hfew. now rewrite Hfew.
  - destruct (answer_loop_returns df alpha questions [] r)
      as (answers & r' & H).
    exists answers, r'. split; [exact H|].
    apply (answer_loop_fixed df alpha q not_enough_groups questions [] r
                             answers r'); auto.
    intros r0. now apply (few_groups_answer df alpha q cat_col num_col groups).
Qed.

Lemma few_groups_answered_with_message_witness :
  (forall r0,
      @test_numeric_categorical Lab.lib Lab.one_group "g" "x" 0.05%float r0
      = (Ok (RStr not_enough_groups), r0))
  /\ exists answers r',
      answer_questions Lab.one_group
          [q_text (difference_question "g" "x")] 0.05%float Lab.start
        = (Ok answers, r')
      /\ dict_get (q_text (difference_question "g" "x")) answers
         = Some not_enough_groups.
Proof.
  apply (few_groups_answered_with_message Lab.one_group 0.05%float
           [q_text (difference_question "g" "x")] Lab.start
           (q_text (difference_question "g" "x")) "g" "x"
           [[Num 1%float; Num 2%float]]).
  - repeat split; try reflexivity; eexists; split; reflexivity.
  - reflexivity.
  - simpl. lia.
  - now left.
Defined.

(** C1, as stated, fails on a frame with a single level: the question of
    the generator reaches the group-difference branch, the grouping gives
    one group, and the mapping holds an entry for the question, the
    message as its answer. *)
Lemma few_groups_entry_present :
  generate_questions Lab.one_group 5 Lab.start
    = (Ok [q_text (difference_question "g" "x")], Lab.start)
  /\ grouped_values Lab.one_group "g" "x" = Ok [[Num 1%float; Num 2%float]]
  /\ answer_questions Lab.one_group
         [q_text (difference_question "g" "x")] 0.05%float Lab.start
     = (Ok [(q_text (difference_question "g" "x"),
             "Not enough groups for hypothesis testing.")], Lab.start).
Proof. repeat split. Qed.

(** ** Test results and their rendering *)

Ltac step_comp H :=
  cbv beta in H;
  lazymatch type of H with
  | bind _ _ _ = (Ok _, _) =>
      let v := fresh "v" in
      let r := fresh "r" in
      let Hv := fresh "Hv" in
      apply bind_ok in H; destruct H as (v & r & Hv & H)
  | ret _ _ = (Ok _, _) => apply ret_ok in H; destruct H as [H _]
  | (if ?b then _ else _) _ = _ => destruct b eqn:?
  | (match ?x with _ => _ end) _ = _ => destruct x
  end.

Lemma significance_values p alpha :
  significance p alpha = "Significant"
  \/ significance p alpha = "Not significant".
Proof. unfold significance. destruct (flt p alpha); auto. Qed.

(** C2 (the code departs from the claim).  Every result dictionary of the
    three tests holds the name, the two hypotheses and, under the key
    [significance], the text [Significant] or [Not significant]; but
    [format_test_result] reads the key [result], which no test writes, and
    the conclusion line of the rendered answer is always [N/A]. *)
Theorem rendered_conclusion_not_available `{L : Lib} :
  forall df col1 col2 alpha r d r',
    test_numeric_categorical df col1 col2 alpha r = (Ok (RDict d), r')
    \/ test_categorical_categorical df col1 col2 alpha r = (Ok (RDict d), r')
    \/ test_numeric_numeric df col1 col2 alpha r = (Ok (RDict d), r') ->
    exists name h0 h1 sig,
      dict_get "test" d = Some (VStr name)
      /\ dict_get "H0" d = Some (VStr h0)
      /\ dict_get "H1" d = Some (VStr h1)
      /\ dict_get "significance" d = Some (VStr sig)
      /\ (sig = "Significant" \/ sig = "Not significant")
      /\ dict_get "result" d = None
      /\ format_test_result (RDict d) = rendered name h0 h1 "N/A".
Proof.
  intros df col1 col2 alpha r d r' [H|[H|H]].
  - unfold test_numeric_categorical in H.
    repeat step_comp H; try discriminate;
      inversion H; subst; clear H;
      do 4 eexists; repeat split; try reflexivity; apply significance_values.
  - unfold test_categorical_categorical in H.
    repeat step_comp H; try discriminate;
      inversion H; subst; clear H;
      do 4 eexists; repeat split; try reflexivity; apply significance_values.
  - unfold test_numeric_numeric in H.
    repeat step_comp H; try discriminate;
      inversion H; subst; clear H;
      do 4 eexists; repeat split; try reflexivity; apply significance_values.
Qed.

Lemma rendered_conclusion_not_available_witness :
  exists name h0 h1 sig,
    dict_get "test" Lab.two_groups_result = Some (VStr name)
    /\ dict_get "H0" Lab.two_groups_result = Some (VStr h0)
    /\ dict_get "H1" Lab.two_groups_result = Some (VStr h1)
    /\ dict_get "significance" Lab.two_groups_result = Some (VStr sig)
    /\ (sig = "Significant" \/ sig = "Not significant")
    /\ dict_get "result" Lab.two_groups_result = None
    /\ @format_test_result Lab.lib (RDict Lab.two_groups_result)
       = rendered name h0 h1 "N/A".
Proof.
  apply (rendered_conclusion_not_available
           Lab.two_groups "g" "x" 0.05%float Lab.start
           Lab.two_groups_result 2).
  left. vm_compute. reflexivity.
Defined.

(** ** The correlation test on columns with different numbers of values *)

(** C3 (the code departs from the claim).  [test_numeric_numeric] drops
    the missing values of each column on its own and hands the two series
    to SciPy as they are; SciPy's correlation routines refuse arrays of
    different lengths, so when the two columns hold different numbers of
    values the call raises instead of returning a result. *)
Theorem unequal_lengths_raise `{L : Lib} :
  forall df col1 col2 alpha r s1 s2,
    equal_lengths_required ->
    frame_get df col1 = Ok s1 ->
    frame_get df col2 = Ok s2 ->
    length (dropna (values s1)) <> length (dropna (values s2)) ->
    exists e r', test_numeric_numeric df col1 col2 alpha r = (Raise e, r').
Proof.
  intros df col1 col2 alpha r s1 s2 [Hpearson Hspearman] G1 G2 Hne.
  destruct (Hpearson _ _ Hne) as (ep & Ep).
  destruct (Hspearman _ _ Hne) as (es & Es).
  unfold test_numeric_numeric, bind, lift, ret. rewrite G1, G2.
  destruct (is_normal (dropna (values s1)) r) as [[[|]|e1] r1]; eauto.
  - destruct (is_normal (dropna (values s2)) r1) as [[[|]|e2] r2]; eauto.
    + rewrite Ep. eauto.
    + rewrite Es. eauto.
  - rewrite Es. eauto.
Qed.

Lemma unequal_lengths_raise_witness :
  exists e r',
    test_numeric_numeric Lab.one_missing "a" "b" 0.05%float Lab.start
    = (Raise e, r').
Proof.
  apply (unequal_lengths_raise Lab.one_missing "a" "b" 0.05%float Lab.start
           (mkSeries Float64 [Num 1%float; NA])
           (Lab.floats [1%float; 2%float])).
  - apply lab_equal_lengths_required.
  - reflexivity.
  - reflexivity.
  - simpl. lia.
Defined.

(** ** The normality oracle *)

(** The normality oracle on one run.  [is_normal] returns false on fewer
    than 3 values without drawing.  On 3 values or more it draws the
    positions of min(500, len) rows, all different and all within the
    series when the library draws so, runs the normality test on the rows
    at these positions, and returns whether the p-value is strictly above
    0.05 (it raises when the test raises).  That every such choice of
    rows is equally likely, as C5 adds, is a statement on the distribution
    of the library's generator, which no run shows. *)
Theorem is_normal_contract `{L : Lib} :
  forall series r,
    draw_ok ->
    (length series < 3 -> is_normal series r = (Ok false, r))
    /\ (3 <= length series ->
        exists idx r',
          draw (length series) (Nat.min 500 (length series)) r = (idx, r')
          /\ length idx = Nat.min 500 (length series)
          /\ NoDup idx
          /\ (forall i, In i idx -> i < length series)
          /\ is_normal series r
             = (match shapiro (map (fun i => nth i series NA) idx) with
                | Ok (_, p) => Ok (PrimFloat.ltb 0.05%float p)
                | Raise e => Raise e
                end, r')).
Proof.
  intros series r [Hlen Hnodup Hrange]. split.
  - intros Hfew. unfold is_normal. apply Nat.ltb_lt in Hfew.
    now rewrite Hfew.
  - intros Hmany.
    assert (Hmin : Nat.min 500 (length series) <= length series)
      by apply Nat.le_min_r.
    specialize (Hlen (length series) _ r Hmin).
    specialize (Hnodup (length series) _ r Hmin).
    assert (Hin : forall i,
               In i (fst (draw (length series)
                               (Nat.min 500 (length series)) r)) ->
               i < length series)
      by (intros i; now apply Hrange).
    clear Hrange.
    destruct (draw (length series) (Nat.min 500 (length series)) r)
      as [idx r'] eqn:Hdraw.
    exists idx, r'. cbn [fst] in *. repeat split; auto.
    unfold is_normal. apply Nat.ltb_ge in Hmany. rewrite Hmany.
    unfold bind, sample, lift, ret. rewrite Hdraw.
    destruct (shapiro _) as [[w p]|e]; reflexivity.
Qed.

Lemma is_normal_contract_witness :
  @is_normal Lab.lib [Num 1%float; Num 2%float] Lab.start
    = (Ok false, Lab.start)
  /\ exists idx r',
      draw 3 (Nat.min 500 3) Lab.start = (idx, r')
      /\ length idx = Nat.min 500 3
      /\ NoDup idx
      /\ (forall i, In i idx -> i < 3)
      /\ is_normal [Num 1%float; Num 2%float; Num 4%float] Lab.start
         = (match @shapiro Lab.lib (map (fun i =>
                     nth i [Num 1%float; Num 2%float; Num 4%float] NA) idx)
            with
            | Ok (_, p) => Ok (PrimFloat.ltb 0.05%float p)
            | Raise e => Raise e
            end, r').
Proof.
  split.
  - apply (proj1 (is_normal_contract [Num 1%float; Num 2%float] Lab.start
                                     lab_draw_ok)).
    simpl. lia.
  - apply (proj2 (is_normal_contract [Num 1%float; Num 2%float; Num 4%float]
                                     Lab.start lab_draw_ok)).
    simpl. lia.
Defined.

(** ** The choice between the parametric and the rank-based test *)

Section Gate.
Context `{L : Lib}.

Lemma all_of_true groups r r' :
  all_of is_normal groups r = (Ok true, r') <-> all_pass groups r r'.
Proof.
  split.
  - revert r. induction groups as [|g gs IH]; intros r H.
    + apply ret_ok in H as [_ ->]. constructor.
    + simpl in H. apply bind_ok in H as (b & r1 & Hg & H).
      destruct b.
      * econstructor; [exact Hg | now apply IH].
      * apply ret_ok in H as [H _]. discriminate.
  - induction 1 as [r|g gs r r1 r2 Hg _ IH]; [reflexivity|].
    simpl. unfold bind. now rewrite Hg.
Qed.

Lemma all_of_false groups r r' :
  all_of is_normal groups r = (Ok false, r') <-> one_fails groups r r'.
Proof.
  split.
  - revert r. induction groups as [|g gs IH]; intros r H.
    + apply ret_ok in H as [H _]. discriminate.
    + simpl in H. apply bind_ok in H as (b & r1 & Hg & H).
      destruct b.
      * eapply one_fails_later; [exact Hg | now apply IH].
      * apply ret_ok in H as [_ ->]. now constructor.
  - induction 1 as [g gs r r1 Hg|g gs r r1 r2 Hg _ IH].
    + simpl. unfold bind. now rewrite Hg.
    + simpl. unfold bind. now rewrite Hg.
Qed.

End Gate.

(** C4.  With 2 groups or more, [test_numeric_categorical] asks the oracle
    about the groups in turn; the answer is true exactly when every group
    passes and false exactly when some group fails; and the test then run
    is the one selected by the number of groups and this answer: the
    t-test for 2 groups all normal, Mann-Whitney for 2 groups not all
    normal, ANOVA for 3 groups or more all normal, Kruskal-Wallis for 3
    groups or more not all normal. *)
Theorem parametric_branch_iff_all_normal `{L : Lib} :
  forall df cat_col num_col alpha r groups normal r1,
    grouped_values df cat_col num_col = Ok groups ->
    2 <= length groups ->
    all_of is_normal groups r = (Ok normal, r1) ->
    (normal = true <-> all_pass groups r r1)
    /\ (normal = false <-> one_fails groups r r1)
    /\ test_numeric_categorical df cat_col num_col alpha r
       = (match run_test df (chosen_test (length groups) normal) groups with
          | Ok outcome =>
              Ok (report (chosen_test (length groups) normal)
                         num_col cat_col alpha outcome)
          | Raise e => Raise e
          end, r1).
Proof.
  intros df cat_col num_col alpha r groups normal r1 Hgroups Hlen Hall.
  split; [|split].
  - rewrite <- all_of_true, Hall. split; congruence.
  - rewrite <- all_of_false, Hall. split; congruence.
  - unfold test_numeric_categorical, bind, lift. rewrite Hgroups.
    apply Nat.ltb_ge in Hlen. rewrite Hlen. unfold chosen_test.
    destruct (length groups =? 2)%nat; rewrite Hall;
      destruct normal; simpl; unfold res_bind.
    + destruct (ttest_ind _ _) as [[stat p]|e]; [|reflexivity].
      now destruct (cohens_d _ _).
    + now destruct (mannwhitneyu _ _) as [[stat p]|e].
    + now destruct (f_oneway _) as [[stat p]|e].
    + now destruct (kruskal _) as [[stat p]|e].
Qed.

Lemma parametric_branch_iff_all_normal_witness :
  (true = true <->
   all_pass [[Num 1; Num 3; Num 8]; [Num 2; Num 5; Num 13]]%float Lab.start 2)
  /\ (true = false <->
      one_fails [[Num 1; Num 3; Num 8]; [Num 2; Num 5; Num 13]]%float
                Lab.start 2)
  /\ test_numeric_categorical Lab.two_groups "g" "x" 0.05%float Lab.start
     = (match @run_test Lab.lib Lab.two_groups TTest
                [[Num 1; Num 3; Num 8]; [Num 2; Num 5; Num 13]]%float with
        | Ok outcome => Ok (report TTest "x" "g" 0.05%float outcome)
        | Raise e => Raise e
        end, 2).
Proof.
  apply (parametric_branch_iff_all_normal
           Lab.two_groups "g" "x" 0.05%float Lab.start
           [[Num 1; Num 3; Num 8]; [Num 2; Num 5; Num 13]]%float true 2).
  - reflexivity.
  - simpl. lia.
  - reflexivity.
Defined.

(** ** The generator's own normality decision *)

Lemma generated_correlation_questions `{L : Lib} df max r texts r' :
  generate_questions df max r = (Ok texts, r') ->
  exists picks,
    filter is_correlation_text texts
    = map (fun p => q_text (pick_question p)) picks
    /\ Forall (pick_computed df) picks.
Proof.
  intros H. unfold generate_questions in H.
  apply bind_ok in H as (questions & r1 & Hgen & H).
  apply ret_ok in H as [<- ->].
  apply generate_shape in Hgen
    as (picks & rest & -> & Hsub & Hall & Hcap & Hrest).
  exists picks. split; [|exact Hall].
  rewrite map_app, map_map. apply filter_count.
  - apply Forall_forall. intros t Ht.
    apply in_map_iff in Ht as (p & <- & _).
    apply pick_question_is_correlation.
  - apply Forall_forall. intros t Ht.
    apply in_map_iff in Ht as (q & <- & Hq).
    rewrite Forall_forall in Hrest.
    eapply other_question_not_correlation. now apply Hrest.
Qed.

(** C9, as amended.  The method named in every correlation question is
    the one [choose_method] returned for the two columns, and this is the
    method of the amended rule, whatever the two columns: each column is
    judged in turn, one of more than 3 values exactly as the normality
    oracle judges it (the same draw, the same test, the same threshold),
    one of 3 values or fewer without a test and as normal, and Pearson is
    named exactly when both count as normal.  So on two columns of more
    than 3 values the choice is the one of the oracle, and two columns of
    3 values or fewer give Pearson. *)
Theorem method_choice_follows_oracle_above_three `{L : Lib} :
  (forall df max r texts r',
      generate_questions df max r = (Ok texts, r') ->
      exists picks,
        filter is_correlation_text texts
        = map (fun p => q_text (pick_question p)) picks
        /\ Forall (pick_computed df) picks)
  /\ (forall series1 series2 r,
        choose_method series1 series2 r = method_by_count series1 series2 r)
  /\ (forall series r,
        3 < length series -> counts_as_normal series r = is_normal series r)
  /\ (forall series r,
        length series <= 3 -> counts_as_normal series r = (Ok true, r))
  /\ (forall series1 series2 r,
        3 < length series1 -> 3 < length series2 ->
        choose_method series1 series2 r = spec_choose_method series1 series2 r)
  /\ (forall series r,
        length series <= 3 -> inline_p_value series r = (Ok 1%float, r))
  /\ (forall series1 series2 r,
        length series1 <= 3 -> length series2 <= 3 ->
        choose_method series1 series2 r = (Ok Pearson, r)).
Proof.
  assert (Hsmall : forall series r,
             length series <= 3 -> inline_p_value series r = (Ok 1%float, r)).
  { intros series r H. unfold inline_p_value.
    apply Nat.ltb_ge in H. now rewrite H. }
  assert (Hcount : forall series r,
             counts_as_normal series r
             = match inline_p_value series r with
               | (Ok p, r') => (Ok (fgt p 0.05%float), r')
               | (Raise e, r') => (Raise e, r')
               end).
  { intros series r. unfold counts_as_normal, inline_p_value.
    destruct (3 <? length series)%nat; [|reflexivity].
    unfold bind, sample, lift, ret.
    destruct (draw (length series) _ r) as [idx r1].
    now destruct (shapiro _) as [[w p]|e]. }
  split; [|split; [|split; [|split; [|split; [|split]]]]].
  - intros df max r texts r'. apply generated_correlation_questions.
  - intros s1 s2 r. unfold choose_method, method_by_count, bind.
    rewrite (Hcount s1 r).
    destruct (inline_p_value s1 r) as [[p1|e1] r1]; [|reflexivity].
    rewrite (Hcount s2 r1).
    now destruct (inline_p_value s2 r1) as [[p2|e2] r2].
  - intros s r H. unfold counts_as_normal, is_normal.
    assert (E : (length s <? 3)%nat = false) by (apply Nat.ltb_ge; lia).
    apply Nat.ltb_lt in H. now rewrite H, E.
  - intros s r H. unfold counts_as_normal.
    apply Nat.ltb_ge in H. now rewrite H.
  - intros s1 s2 r H1 H2.
    unfold choose_method, spec_choose_method, inline_p_value, is_normal.
    assert (E1 : (length s1 <? 3)%nat = false) by (apply Nat.ltb_ge; lia).
    assert (E2 : (length s2 <? 3)%nat = false) by (apply Nat.ltb_ge; lia).
    apply Nat.ltb_lt in H1, H2. rewrite H1, H2, E1, E2.
    unfold bind, sample, lift, ret.
    destruct (draw (length s1) _ r) as [idx1 r1].
    destruct (shapiro _) as [[w1 p1]|e1]; [|reflexivity].
    destruct (draw (length s2) _ r1) as [idx2 r2].
    now destruct (shapiro _) as [[w2 p2]|e2].
  - exact Hsmall.
  - intros s1 s2 r H1 H2. unfold choose_method, bind.
    rewrite (Hsmall s1 r H1), (Hsmall s2 r H2). reflexivity.
Qed.

Lemma method_choice_follows_oracle_above_three_witness :
  @counts_as_normal Lab.lib [Num 1; Num 2; Num 3; Num 5]%float Lab.start
    = is_normal [Num 1; Num 2; Num 3; Num 5]%float Lab.start
  /\ @counts_as_normal Lab.lib [Num 1; Num 2]%float Lab.start
     = (Ok true, Lab.start)
  /\ @choose_method Lab.lib
      [Num 1; Num 2; Num 3; Num 5]%float [Num 2; Num 3; Num 5; Num 8]%float
      Lab.start
    = spec_choose_method
        [Num 1; Num 2; Num 3; Num 5]%float [Num 2; Num 3; Num 5; Num 8]%float
        Lab.start
  /\ @inline_p_value Lab.lib [Num 1; Num 2]%float Lab.start
     = (Ok 1%float, Lab.start)
  /\ @choose_method Lab.lib [Num 1; Num 2]%float [Num 2; Num 4]%float Lab.start
     = (Ok Pearson, Lab.start).
Proof.
  destruct (@method_choice_follows_oracle_above_three Lab.lib)
    as (_ & _ & Hlong & Hshort & Hlarge & Hsmall & Hboth).
  split; [|split; [|split; [|split]]].
  - apply Hlong; simpl; lia.
  - apply Hshort; simpl; lia.
  - apply Hlarge; simpl; lia.
  - apply Hsmall; simpl; lia.
  - apply Hboth; simpl; lia.
Defined.

(** C9, as stated, fails on short columns: on two columns of two values
    the generator names Pearson in the question it emits, while the oracle
    rejects both columns and the choice in the words of the specification
    is Spearman. *)
Lemma short_columns_named_pearson :
  generate_questions Lab.two_columns 5 Lab.start
    = (Ok [q_text (correlation_question "strong" Pearson 1%float "a" "b")],
       Lab.start)
  /\ @is_normal Lab.lib [Num 1; Num 2]%float Lab.start = (Ok false, Lab.start)
  /\ @is_normal Lab.lib [Num 2; Num 4]%float Lab.start = (Ok false, Lab.start)
  /\ @choose_method Lab.lib [Num 1; Num 2]%float [Num 2; Num 4]%float Lab.start
     = (Ok Pearson, Lab.start)
  /\ @spec_choose_method Lab.lib [Num 1; Num 2]%float [Num 2; Num 4]%float
       Lab.start
     = (Ok Spearman, Lab.start).
Proof. repeat split. Qed.

(** * Further properties of the code *)

(** ** What the extraction returns *)

Lemma quote_free_of_chars l :
  Forall (fun c => Ascii.eqb c quote = false) l ->
  quote_free (string_of_list_ascii l) = true.
Proof.
  induction 1 as [|c l Hc _ IH]; simpl; [reflexivity|].
  now rewrite Hc, IH.
Qed.

Lemma findall_quoted_plain s :
  forall st,
    match st with
    | None => True
    | Some acc => Forall (fun c => Ascii.eqb c quote = false) acc
    end ->
    Forall plain_name (findall_quoted st s).
Proof.
  induction s as [|c s IH]; intros st Hst; simpl; [constructor|].
  destruct (Ascii.eqb c quote) eqn:Hc.
  - destruct st as [[|a acc]|].
    + apply IH. constructor.
    + constructor; [|now apply IH].
      rewrite rev_string_spec, append_empty_r. split.
      * simpl. destruct (rev acc); discriminate.
      * apply quote_free_of_chars. now apply Forall_rev.
    + apply IH. constructor.
  - destruct st as [acc|]; apply IH; [|exact I].
    now constructor.
Qed.

(** X1.  Whatever the text, every name [extract_columns_from_question]
    returns is non-empty and holds no single quote. *)
Theorem extracted_names_plain :
  forall q, Forall plain_name (extract_columns_from_question q).
Proof. intros q. now apply findall_quoted_plain. Qed.

(** ** The keys of the answers *)

Lemma dict_keys_set {V} (d : list (string * V)) k v :
  dict_keys (dict_set d k v)
  = if in_dec string_dec k (dict_keys d) then dict_keys d
    else dict_keys d ++ [k].
Proof.
  unfold dict_keys. induction d as [|[k0 v0] d IH]; simpl.
  - reflexivity.
  - destruct (String.eqb_spec k0 k) as [->|Hne]; simpl.
    + destruct (string_dec k k); [|contradiction].
      destruct (in_dec string_dec k (map fst d)); reflexivity.
    + rewrite IH. destruct (string_dec k0 k); [contradiction|].
      destruct (in_dec string_dec k (map fst d)); reflexivity.
Qed.

Lemma dict_keys_set_nodup {V} (d : list (string * V)) k v :
  NoDup (dict_keys d) -> NoDup (dict_keys (dict_set d k v)).
Proof.
  intros H. rewrite dict_keys_set.
  destruct (in_dec string_dec k (dict_keys d)) as [Hin|Hnot]; [exact H|].
  apply NoDup_app; [exact H | repeat constructor; intros [] | ].
  intros x Hx [<-|[]]. contradiction.
Qed.

Lemma dict_keys_set_incl {V} (d : list (string * V)) k v l :
  incl (dict_keys d) l -> In k l -> incl (dict_keys (dict_set d k v)) l.
Proof.
  intros H Hk. rewrite dict_keys_set.
  destruct (in_dec string_dec k (dict_keys d)); [exact H|].
  apply incl_app; [exact H|]. intros x [<-|[]]. exact Hk.
Qed.

Lemma answer_loop_keys `{L : Lib} df alpha qs :
  forall answers r answers' r' l,
    for_each (answer_step df alpha) qs answers r = (Ok answers', r') ->
    NoDup (dict_keys answers) -> incl (dict_keys answers) l -> incl qs l ->
    NoDup (dict_keys answers') /\ incl (dict_keys answers') l.
Proof.
  induction qs as [|q qs IH]; intros answers r answers' r' l H Hnd Hincl Hqs.
  - apply ret_ok in H as [<- _]. auto.
  - rewrite for_each_cons, answer_step_outcome in H.
    assert (Hq : In q l) by (apply Hqs; now left).
    assert (Hrest : incl qs l) by (intros x Hx; apply Hqs; now right).
    destruct (answer_one df alpha q r) as [[[text|]|e] r1];
      eapply IH; eauto using dict_keys_set_nodup, dict_keys_set_incl.
Qed.

(** X2.  The mapping [answer_questions] returns has each key once, and
    every key is one of the questions asked. *)
Theorem answers_keyed_by_questions `{L : Lib} :
  forall df questions alpha r answers r',
    answer_questions df questions alpha r = (Ok answers, r') ->
    NoDup (dict_keys answers) /\ incl (dict_keys answers) questions.
Proof.
  intros df questions alpha r answers r' H.
  eapply answer_loop_keys; eauto.
  - constructor.
  - intros x [].
  - apply incl_refl.
Qed.

Lemma answers_keyed_by_questions_witness :
  NoDup (dict_keys [(Lab.skew_of_x, "'x' skewness = 1.11 (Highly skewed).")])
  /\ incl (dict_keys [(Lab.skew_of_x, "'x' skewness = 1.11 (Highly skewed).")])
          [Lab.skew_of_x; "What is the mean of 'x'?"; Lab.skew_of_x].
Proof.
  apply (answers_keyed_by_questions Lab.two_groups
           [Lab.skew_of_x; "What is the mean of 'x'?"; Lab.skew_of_x]
           0.05%float Lab.start _ Lab.start).
  reflexivity.
Defined.

(** ** Searching a text made of segments *)

Lemma prefix_empty_r n : n <> "" -> String.prefix n "" = false.
Proof. destruct n; [congruence | reflexivity]. Qed.

Lemma prefix_split n a c b :
  n <> "" -> occurs c n = false ->
  String.prefix n (String.append a (String c b)) = String.prefix n a.
Proof.
  revert n. induction a as [|y a IH]; intros n Hn Hc.
  - destruct n as [|x n']; [congruence|]. simpl in *.
    apply orb_false_iff in Hc as [Hx _].
    destruct (ascii_dec x c) as [->|_]; [|reflexivity].
    now rewrite Ascii.eqb_refl in Hx.
  - destruct n as [|x n']; [congruence|]. simpl in *.
    apply orb_false_iff in Hc as [_ Hc].
    destruct (ascii_dec x y); [|reflexivity].
    destruct n' as [|x' n'']; [now destruct a | apply IH; congruence].
Qed.

Lemma contains_split n a c b :
  n <> "" -> occurs c n = false ->
  contains n (String.append a (String c b)) = contains n a || contains n b.
Proof.
  intros Hn Hc. induction a as [|y a IH].
  - assert (Hp : String.prefix n (String c b) = false).
    { rewrite <- (prefix_empty_r n Hn). exact (prefix_split n "" c b Hn Hc). }
    change (String.append "" (String c b)) with (String c b).
    cbn [contains]. now rewrite Hp, (prefix_empty_r n Hn).
  - change (String.append (String y a) (String c b))
      with (String y (String.append a (String c b))).
    cbn [contains].
    change (String y (String.append a (String c b)))
      with (String.append (String y a) (String c b)).
    rewrite (prefix_split n (String y a) c b Hn Hc), IH.
    now rewrite !orb_assoc.
Qed.

Lemma strip_prefix_empty w : w <> "" -> strip_prefix w "" = None.
Proof. destruct w as [|x [|y w]]; [congruence | reflexivity | reflexivity]. Qed.

Lemma strip_prefix_split w a c b :
  w <> "" -> occurs c w = false ->
  strip_prefix w (String.append a (String c b))
  = match strip_prefix w a with
    | Some (last, rest) => Some (last, String.append rest (String c b))
    | None => None
    end.
Proof.
  revert a. induction w as [|x w IH]; intros a Hw Hc; [congruence|].
  simpl in Hc. apply orb_false_iff in Hc as [Hx Hc].
  destruct a as [|y a].
  - rewrite (strip_prefix_empty (String x w) Hw). simpl.
    rewrite Hx. now destruct w.
  - destruct w as [|x' w].
    + simpl. now destruct (Ascii.eqb x y).
    + change (strip_prefix (String x (String x' w))
                (String.append (String y a) (String c b)))
        with (if Ascii.eqb x y
              then strip_prefix (String x' w) (String.append a (String c b))
              else None).
      change (strip_prefix (String x (String x' w)) (String y a))
        with (if Ascii.eqb x y then strip_prefix (String x' w) a else None).
      destruct (Ascii.eqb x y); [|reflexivity].
      apply IH; [congruence | exact Hc].
Qed.

Lemma strip_prefix_last w s last rest :
  w <> "" -> strip_prefix w s = Some (last, rest) -> last <> None.
Proof.
  revert s. induction w as [|x w IH]; intros s Hw H; [congruence|].
  destruct s as [|y s]; [now rewrite strip_prefix_empty in H|].
  destruct w as [|x' w].
  - simpl in H. destruct (Ascii.eqb x y); inversion H. discriminate.
  - change (strip_prefix (String x (String x' w)) (String y s))
      with (if Ascii.eqb x y then strip_prefix (String x' w) s else None) in H.
    destruct (Ascii.eqb x y); [|discriminate].
    eapply IH; [|exact H]. congruence.
Qed.

Lemma word_here_split prev w a c b :
  w <> "" -> occurs c w = false -> is_word c = false ->
  word_here prev w (String.append a (String c b)) = word_here prev w a.
Proof.
  intros Hw Hc Hnw. unfold word_here.
  rewrite strip_prefix_split by assumption.
  destruct (strip_prefix w a) as [[last rest]|] eqn:Hs.
  - assert (Hhead : head_char (String.append a (String c b)) = head_char a
                    \/ a = "").
    { destruct a; [now right | now left]. }
    destruct Hhead as [Hhead| ->].
    + rewrite Hhead. f_equal.
      destruct rest as [|z rest]; [|reflexivity].
      simpl. unfold word_boundary. simpl. now rewrite Hnw.
    + now rewrite strip_prefix_empty in Hs.
  - now rewrite !andb_false_r.
Qed.

Lemma search_word_from_split prev w a c b :
  w <> "" -> occurs c w = false -> is_word c = false ->
  search_word_from prev w (String.append a (String c b))
  = search_word_from prev w a || search_word_from (Some c) w b.
Proof.
  intros Hw Hc Hnw. revert prev. induction a as [|y a IH]; intros prev.
  - change (String.append "" (String c b)) with (String c b).
    cbn [search_word_from].
    change (String c b) with (String.append "" (String c b)) at 1.
    rewrite word_here_split by assumption. now rewrite orb_false_r.
  - change (String.append (String y a) (String c b))
      with (String y (String.append a (String c b))).
    cbn [search_word_from].
    change (String y (String.append a (String c b)))
      with (String.append (String y a) (String c b)).
    rewrite word_here_split, IH by assumption.
    now rewrite !orb_assoc.
Qed.

Lemma word_here_before p1 p2 w s :
  w <> "" -> is_word_opt p1 = is_word_opt p2 ->
  word_here p1 w s = word_here p2 w s.
Proof.
  intros Hw Hp. unfold word_here, word_boundary. rewrite Hp. f_equal.
  destruct (strip_prefix w s) as [[last rest]|] eqn:Hs; [|reflexivity].
  destruct last as [l|]; [reflexivity|].
  now apply strip_prefix_last in Hs.
Qed.

Lemma search_word_from_before p1 p2 w s :
  w <> "" -> is_word_opt p1 = is_word_opt p2 ->
  search_word_from p1 w s = search_word_from p2 w s.
Proof.
  intros Hw Hp. destruct s as [|y s]; simpl;
    now rewrite (word_here_before p1 p2 w _ Hw Hp).
Qed.

Lemma search_word_split w a c b :
  w <> "" -> occurs c w = false -> is_word c = false ->
  search_word w (String.append a (String c b))
  = search_word w a || search_word w b.
Proof.
  intros Hw Hc Hnw. unfold search_word.
  rewrite search_word_from_split by assumption. f_equal.
  apply search_word_from_before; [exact Hw|]. simpl. exact Hnw.
Qed.

Lemma contains_glue n s rest :
  n <> "" -> forallb (fun p => negb (occurs (fst p) n)) rest = true ->
  contains n (glue s rest)
  = contains n s || existsb (fun p => contains n (snd p)) rest.
Proof.
  intros Hn. revert s. induction rest as [|[c s'] rest IH]; intros s Hsep.
  - simpl. now rewrite orb_false_r.
  - simpl in Hsep. apply andb_prop in Hsep as [Hc Hsep].
    apply negb_true_iff in Hc. cbn [glue existsb snd].
    rewrite contains_split, IH by assumption. reflexivity.
Qed.

Lemma search_word_glue w s rest :
  w <> "" ->
  forallb (fun p => negb (occurs (fst p) w) && negb (is_word (fst p))) rest
  = true ->
  search_word w (glue s rest)
  = search_word w s || existsb (fun p => search_word w (snd p)) rest.
Proof.
  intros Hw. revert s. induction rest as [|[c s'] rest IH]; intros s Hsep.
  - simpl. now rewrite orb_false_r.
  - simpl in Hsep. apply andb_prop in Hsep as [Hc Hsep].
    apply andb_prop in Hc as [Hc Hnw].
    apply negb_true_iff in Hc, Hnw. cbn [glue existsb snd].
    rewrite search_word_split, IH by assumption. reflexivity.
Qed.

Lemma lower_char_not_word c : is_word c = false -> lower_char c = c.
Proof.
  unfold is_word, lower_char. intros H.
  destruct (is_upper c); [discriminate | reflexivity].
Qed.

Lemma lower_glue s rest :
  forallb (fun p => negb (is_word (fst p))) rest = true ->
  lower (glue s rest)
  = glue (lower s) (map (fun p => (fst p, lower (snd p))) rest).
Proof.
  revert s. induction rest as [|[c s'] rest IH]; intros s Hsep.
  - reflexivity.
  - simpl in Hsep. apply andb_prop in Hsep as [Hc Hsep].
    apply negb_true_iff in Hc. cbn [glue map fst snd].
    rewrite lower_append. unfold lower at 2. cbn [map_string].
    fold (lower (glue s' rest)).
    now rewrite (lower_char_not_word c Hc), IH.
Qed.

(** A keyword is made of letters; a separator is no letter. *)
Lemma occurs_all_in alphabet s c :
  all_in alphabet s = true -> occurs c alphabet = false -> occurs c s = false.
Proof.
  intros Hs Hc. induction s as [|a s IH]; simpl in *; [reflexivity|].
  apply andb_prop in Hs as [Ha Hs]. rewrite (IH Hs), orb_false_r.
  destruct (Ascii.eqb_spec a c) as [->|]; [congruence | reflexivity].
Qed.

Lemma occurs_lowercase_is_lower c :
  occurs c lowercase_letters = true -> is_lower c = true.
Proof.
  unfold lowercase_letters. cbn [occurs]. intros H.
  repeat match type of H with
         | (Ascii.eqb ?a c || _) = true =>
             apply orb_prop in H as [H|H];
             [apply Ascii.eqb_eq in H; subst c; reflexivity|]
         end.
  discriminate.
Qed.

Lemma is_lower_is_word c : is_lower c = true -> is_word c = true.
Proof. unfold is_word. intros ->. now rewrite orb_true_r. Qed.

Lemma separator_not_in_keyword kw c :
  keyword_like kw = true -> is_word c = false -> occurs c kw = false.
Proof.
  unfold keyword_like. intros H Hc.
  apply andb_prop in H as [H _]. apply andb_prop in H as [_ H].
  apply (occurs_all_in lowercase_letters); [exact H|].
  destruct (occurs c lowercase_letters) eqn:E; [|reflexivity].
  apply occurs_lowercase_is_lower, is_lower_is_word in E. congruence.
Qed.

Lemma keyword_like_nonempty kw : keyword_like kw = true -> kw <> "".
Proof.
  unfold keyword_like. intros H E. subst kw. discriminate.
Qed.

(** A text that holds a word holds each of its characters. *)
Lemma prefix_occurs n s c :
  String.prefix n s = true -> occurs c n = true -> occurs c s = true.
Proof.
  revert s. induction n as [|x n IH]; intros s Hp Hc; [discriminate|].
  destruct s as [|y s]; [discriminate|]. simpl in *.
  destruct (ascii_dec x y) as [->|]; [|discriminate].
  apply orb_prop in Hc as [Hc|Hc].
  - now rewrite Hc.
  - rewrite (IH s Hp Hc). apply orb_true_r.
Qed.

Lemma contains_occurs n s c :
  contains n s = true -> occurs c n = true -> occurs c s = true.
Proof.
  intros H Hc. induction s as [|y s IH].
  - simpl in H. rewrite orb_false_r in H. now apply (prefix_occurs n "" c).
  - cbn [contains] in H. apply orb_prop in H as [H|H].
    + now apply (prefix_occurs n (String y s) c).
    + simpl. rewrite (IH H). apply orb_true_r.
Qed.

Lemma all_in_witness alphabet kw :
  all_in alphabet kw = false ->
  exists c, occurs c kw = true /\ occurs c alphabet = false.
Proof.
  induction kw as [|x kw IH]; simpl; [discriminate|].
  intros H. apply andb_false_iff in H as [H|H].
  - exists x. now rewrite Ascii.eqb_refl.
  - destruct (IH H) as (c & Hc & Ha). exists c. rewrite Hc.
    now rewrite orb_true_r.
Qed.

Lemma keyword_not_in_number kw s :
  keyword_like kw = true -> all_in number_alphabet s = true ->
  contains kw s = false.
Proof.
  unfold keyword_like. intros H Hs.
  apply andb_prop in H as [_ H]. apply negb_true_iff in H.
  destruct (all_in_witness _ _ H) as (c & Hc & Ha).
  destruct (contains kw s) eqn:E; [|reflexivity].
  pose proof (occurs_all_in _ _ _ Hs Ha) as Hno.
  pose proof (contains_occurs kw s c E Hc). congruence.
Qed.

Lemma strip_prefix_is_prefix w s last rest :
  strip_prefix w s = Some (last, rest) -> String.prefix w s = true.
Proof.
  revert s. induction w as [|x w IH]; intros s H; [now destruct s|].
  destruct s as [|y s]; [now destruct w|].
  destruct w as [|x' w].
  - simpl in H. simpl. destruct (Ascii.eqb_spec x y) as [->|]; [|discriminate].
    destruct (ascii_dec y y); [now destruct s | contradiction].
  - change (strip_prefix (String x (String x' w)) (String y s))
      with (if Ascii.eqb x y then strip_prefix (String x' w) s else None) in H.
    destruct (Ascii.eqb_spec x y) as [->|]; [|discriminate].
    cbn [String.prefix]. destruct (ascii_dec y y); [|contradiction].
    now apply IH.
Qed.

Lemma search_word_contains w s :
  search_word w s = true -> contains w s = true.
Proof.
  unfold search_word. generalize (@None ascii) as prev.
  induction s as [|y s IH]; intros prev H.
  - simpl in H. rewrite orb_false_r in H. unfold word_here in H.
    apply andb_prop in H as [_ H].
    destruct (strip_prefix w "") as [[last rest]|] eqn:Hs; [|discriminate].
    cbn [contains]. now rewrite (strip_prefix_is_prefix _ _ _ _ Hs).
  - cbn [search_word_from] in H. apply orb_prop in H as [H|H].
    + unfold word_here in H. apply andb_prop in H as [_ H].
      destruct (strip_prefix w (String y s)) as [[last rest]|] eqn:Hs;
        [|discriminate].
      cbn [contains]. now rewrite (strip_prefix_is_prefix _ _ _ _ Hs).
    + cbn [contains]. rewrite (IH _ H). apply orb_true_r.
Qed.

Lemma lower_number s : all_in number_alphabet s = true -> lower s = s.
Proof.
  unfold lower. induction s as [|a s IH]; cbn [all_in map_string];
    [reflexivity|].
  intros H. apply andb_prop in H as [Ha Hs]. rewrite (IH Hs). f_equal.
  unfold number_alphabet in Ha. cbn [occurs] in Ha.
  repeat match type of Ha with
         | (Ascii.eqb ?x a || _) = true =>
             apply orb_prop in Ha as [Ha|Ha];
             [apply Ascii.eqb_eq in Ha; subst a; reflexivity|]
         end.
  discriminate.
Qed.

(** ** The keywords of a question made from a template *)

Lemma dispatch_keywords_like kw :
  In kw dispatch_keywords -> keyword_like kw = true.
Proof.
  intros H. assert (Hall : forallb keyword_like dispatch_keywords = true)
    by reflexivity.
  rewrite forallb_forall in Hall. now apply Hall.
Qed.

Lemma skip_patterns_like w : In w skip_patterns -> keyword_like w = true.
Proof.
  intros H. assert (Hall : forallb keyword_like skip_patterns = true)
    by reflexivity.
  rewrite forallb_forall in Hall. now apply Hall.
Qed.

Lemma keyword_in_segment kw g :
  In kw dispatch_keywords -> seg_ok g ->
  contains kw (lower (seg_text g))
  = match g with SLit s => contains kw (lower s) | _ => false end.
Proof.
  intros Hkw Hg. destruct g as [s|c|s]; simpl in *.
  - reflexivity.
  - destruct Hg as (_ & Hk & _). rewrite forallb_forall in Hk.
    apply negb_true_iff. now apply Hk.
  - rewrite (lower_number s Hg).
    apply keyword_not_in_number; [now apply dispatch_keywords_like | exact Hg].
Qed.

Lemma skip_word_in_segment w g :
  In w skip_patterns -> seg_ok g ->
  search_word w (lower (seg_text g))
  = match g with SLit s => search_word w (lower s) | _ => false end.
Proof.
  intros Hw Hg. destruct g as [s|c|s]; simpl in *.
  - reflexivity.
  - destruct Hg as (_ & _ & Hs & _). rewrite forallb_forall in Hs.
    apply negb_true_iff. now apply Hs.
  - rewrite (lower_number s Hg).
    destruct (search_word w s) eqn:E; [|reflexivity].
    apply search_word_contains in E.
    rewrite keyword_not_in_number in E; [discriminate | | exact Hg].
    now apply skip_patterns_like.
Qed.

Lemma existsb_segments (f : string -> bool) gs :
  Forall (fun g => f (seg_text g)
                   = match g with SLit s => f s | _ => false end) gs ->
  existsb (fun g => f (seg_text g)) gs
  = existsb f (flat_map (fun g => match g with SLit s => [s] | _ => [] end) gs).
Proof.
  induction 1 as [|g gs Hg _ IH]; [reflexivity|].
  cbn [existsb flat_map]. rewrite existsb_app, Hg, IH.
  destruct g; simpl; now rewrite ?orb_false_r.
Qed.

Lemma existsb_map_snd {A} (f : string -> bool) (h : A -> string) rest :
  existsb (fun p : ascii * string => f (snd p))
          (map (fun p : ascii * A => (fst p, h (snd p))) rest)
  = existsb (fun g => f (h g)) (map snd rest).
Proof. induction rest as [|[c g] rest IH]; simpl; [|rewrite IH]; reflexivity. Qed.

Lemma forallb_map_fst {A} (f : ascii -> bool) (h : A -> string) rest :
  forallb (fun p : ascii * string => f (fst p))
          (map (fun p : ascii * A => (fst p, h (snd p))) rest)
  = forallb (fun p : ascii * A => f (fst p)) rest.
Proof. induction rest as [|[c g] rest IH]; simpl; [|rewrite IH]; reflexivity. Qed.

Lemma separators_outside kw (rest : list (ascii * seg)) :
  keyword_like kw = true ->
  forallb (fun p => negb (is_word (fst p))) rest = true ->
  forallb (fun p => negb (occurs (fst p) kw) && negb (is_word (fst p))) rest
  = true.
Proof.
  intros Hkw H. rewrite forallb_forall in *. intros p Hp.
  specialize (H p Hp). rewrite H, andb_true_r.
  apply negb_true_iff. apply separator_not_in_keyword; [exact Hkw|].
  now apply negb_true_iff.
Qed.

Lemma lower_render t :
  template_ok t ->
  lower (render t)
  = glue (lower (seg_text (fst t)))
         (map (fun p => (fst p, lower (seg_text (snd p)))) (snd t)).
Proof.
  intros [_ Hsep]. unfold render. rewrite lower_glue.
  - now rewrite map_map.
  - now rewrite (forallb_map_fst (fun c => negb (is_word c)) seg_text).
Qed.

(** The dispatch sees in the text exactly the keywords of its fixed
    parts. *)
Lemma keyword_in_template kw t :
  In kw dispatch_keywords -> template_ok t ->
  contains kw (lower (render t))
  = existsb (fun s => contains kw (lower s)) (literals t).
Proof.
  intros Hkw Hok. pose proof (dispatch_keywords_like kw Hkw) as Hlike.
  rewrite (lower_render t Hok). destruct Hok as [Hsegs Hsep].
  rewrite contains_glue.
  - rewrite (existsb_map_snd (contains kw) (fun g => lower (seg_text g))).
    unfold literals, segments.
    rewrite <- (existsb_segments (fun s => contains kw (lower s))).
    + reflexivity.
    + eapply Forall_impl; [|exact Hsegs].
      intros g Hg. now apply keyword_in_segment.
  - now apply keyword_like_nonempty.
  - rewrite (forallb_map_fst (fun c => negb (occurs c kw))
                             (fun g => lower (seg_text g))).
    pose proof (separators_outside kw _ Hlike Hsep) as H.
    rewrite forallb_forall in *. intros p Hp.
    specialize (H p Hp). now apply andb_prop in H as [H _].
Qed.

Lemma skip_word_in_template w t :
  In w skip_patterns -> template_ok t ->
  search_word w (lower (render t))
  = existsb (fun s => search_word w (lower s)) (literals t).
Proof.
  intros Hw Hok. pose proof (skip_patterns_like w Hw) as Hlike.
  rewrite (lower_render t Hok). destruct Hok as [Hsegs Hsep].
  rewrite search_word_glue.
  - rewrite (existsb_map_snd (search_word w) (fun g => lower (seg_text g))).
    unfold literals, segments.
    rewrite <- (existsb_segments (fun s => search_word w (lower s))).
    + reflexivity.
    + eapply Forall_impl; [|exact Hsegs].
      intros g Hg. now apply skip_word_in_segment.
  - now apply keyword_like_nonempty.
  - rewrite (forallb_map_fst
               (fun c => negb (occurs c w) && negb (is_word c))
               (fun g => lower (seg_text g))).
    now apply separators_outside.
Qed.

Lemma existsb_ext_in {A} (f g : A -> bool) l :
  (forall a, In a l -> f a = g a) -> existsb f l = existsb g l.
Proof.
  induction l as [|a l IH]; intros H; [reflexivity|]. simpl.
  rewrite (H a), IH; auto using in_eq, in_cons.
Qed.

Lemma skip_check_in_template t :
  template_ok t ->
  existsb (fun p => search_word p (lower (render t))) skip_patterns
  = existsb (fun p => existsb (fun s => search_word p (lower s)) (literals t))
            skip_patterns.
Proof.
  intros Hok. apply existsb_ext_in. intros w Hw.
  now apply skip_word_in_template.
Qed.

(** ** The questions of the generator as templates *)

Lemma all_in_append alphabet a b :
  all_in alphabet (String.append a b) = all_in alphabet a && all_in alphabet b.
Proof.
  induction a as [|c a IH]; simpl; [reflexivity|].
  now rewrite IH, andb_assoc.
Qed.

Lemma number_uint d : all_in number_alphabet (NilEmpty.string_of_uint d) = true.
Proof. induction d; simpl; auto. Qed.

Lemma number_str_nat n : all_in number_alphabet (str_nat n) = true.
Proof.
  unfold str_nat, NilZero.string_of_uint.
  destruct (Nat.to_uint n); try reflexivity; apply number_uint.
Qed.

Lemma number_zeros n : all_in number_alphabet (zeros n) = true.
Proof. induction n; simpl; auto. Qed.

Lemma number_fixed_digits n d :
  all_in number_alphabet (fixed_digits n d) = true.
Proof.
  unfold fixed_digits. destruct d.
  - apply number_str_nat.
  - cbn [fstr]. unfold pad_zeros.
    now rewrite !all_in_append, number_zeros, !number_str_nat.
Qed.

Lemma number_fmt_fixed d x : all_in number_alphabet (fmt_fixed d x) = true.
Proof.
  unfold fmt_fixed.
  destruct (Prim2SF x) as [s|s| |s m e].
  - cbn [fstr]. rewrite !all_in_append, number_fixed_digits.
    destruct s; reflexivity.
  - destruct s; reflexivity.
  - reflexivity.
  - cbn [fstr]. rewrite !all_in_append, number_fixed_digits.
    destruct s; reflexivity.
Qed.

Lemma correlation_question_template strength method corr c1 c2 :
  q_text (correlation_question strength method corr c1 c2)
  = render (correlation_template strength (method_name method)
                                 (fmt_fixed 2 corr) c1 c2).
Proof. reflexivity. Qed.

Lemma skew_question_template col v :
  q_text (skew_question col v) = render (skew_template col (fmt_fixed 2 v)).
Proof. reflexivity. Qed.

Lemma kurtosis_question_template col v :
  q_text (kurtosis_question col v)
  = render (kurtosis_template col (fmt_fixed 2 v)).
Proof. reflexivity. Qed.

Lemma difference_question_template cat num :
  q_text (difference_question cat num) = render (difference_template cat num).
Proof. reflexivity. Qed.

Lemma association_question_template cat1 cat2 :
  q_text (association_question cat1 cat2)
  = render (association_template cat1 cat2).
Proof. reflexivity. Qed.

Lemma seasonal_question_template col :
  q_text (seasonal_question col) = render (seasonal_template col).
Proof. reflexivity. Qed.

Lemma outlier_question_template n col :
  q_text (outlier_question n col) = render (outlier_template (str_nat n) col).
Proof. reflexivity. Qed.

Lemma missing_question_template pct col :
  q_text (missing_question pct col)
  = render (missing_template (fmt_fixed 1 pct) col).
Proof. reflexivity. Qed.

Ltac template_ok :=
  split;
  [ unfold segments; cbn [fst snd map];
    repeat (apply Forall_cons;
            [ cbn [seg_ok];
              first [ exact I | assumption | apply number_fmt_fixed
                    | apply number_str_nat ]
            | ]);
    apply Forall_nil
  | reflexivity ].

(** Evaluating the conditions of the dispatch on a template. *)
Ltac keyword_in_list := cbn [In dispatch_keywords]; tauto.

Ltac dispatch_conditions Hok :=
  rewrite (skip_check_in_template _ Hok);
  rewrite ?(keyword_in_template "correlation" _ ltac:(keyword_in_list) Hok);
  rewrite ?(keyword_in_template "skew" _ ltac:(keyword_in_list) Hok);
  rewrite ?(keyword_in_template "kurtosis" _ ltac:(keyword_in_list) Hok);
  rewrite ?(keyword_in_template "outlier" _ ltac:(keyword_in_list) Hok);
  rewrite ?(keyword_in_template "different" _ ltac:(keyword_in_list) Hok);
  rewrite ?(keyword_in_template "association" _ ltac:(keyword_in_list) Hok);
  rewrite ?(keyword_in_template "missing" _ ltac:(keyword_in_list) Hok);
  rewrite ?(keyword_in_template "duplicate" _ ltac:(keyword_in_list) Hok);
  rewrite ?(keyword_in_template "trend" _ ltac:(keyword_in_list) Hok);
  repeat match goal with
  | |- context [existsb ?f ?l] =>
      let b := eval vm_compute in (existsb f l) in
      match b with
      | true => change (existsb f l) with true
      | false => change (existsb f l) with false
      end
  end.

Lemma frame_get_member (df : DataFrame) c s :
  frame_get df c = Ok s -> In (c, s) df.
Proof.
  induction df as [|[n s0] d IH]; simpl; [discriminate|].
  destruct (String.eqb_spec n c) as [->|_].
  - intros H. inversion H. now left.
  - intros H. right. now apply IH.
Qed.

Lemma selected_number_is_numeric (df : DataFrame) c s :
  no_time_differences df -> frame_get df c = Ok s ->
  sel_number (dtype_of s) = true -> is_numeric_dtype s = true.
Proof.
  intros Hno G. apply frame_get_member in G. apply Hno in G.
  unfold is_numeric_dtype. destruct (dtype_of s); easy.
Qed.

Section Dispatch.
Context `{L : Lib}.
Variables (df : DataFrame) (alpha : float).
Hypothesis Hnames : NoDup (column_names df).
Hypothesis Hno : no_time_differences df.

Lemma difference_dispatch cat num r :
  benign_name cat -> benign_name num ->
  In cat (select_dtypes sel_object_category df) ->
  In num (select_dtypes sel_number df) ->
  answer_one df alpha (q_text (difference_question cat num)) r
  = rendered_outcome (test_numeric_categorical df cat num alpha) r.
Proof.
  intros Bcat Bnum Hcat Hnum.
  destruct (frame_get_selected _ _ _ Hnames Hcat) as (sc & Gc & Dc).
  destruct (frame_get_selected _ _ _ Hnames Hnum) as (sn & Gn & Dn).
  assert (Hok : template_ok (difference_template cat num)) by template_ok.
  unfold answer_one.
  rewrite (extract_difference_question cat num (proj1 Bcat) (proj1 Bnum)).
  rewrite difference_question_template.
  dispatch_conditions Hok.
  cbn [andb orb length Nat.eqb].
  unfold bind, lift, ret, numeric_column, object_or_category, unpack2,
    rendered_outcome.
  cbn [andb]. unfold bind, lift, ret. rewrite Gn, Gc.
  assert (Nn : is_numeric_dtype sn = true)
    by exact (selected_number_is_numeric df num sn Hno Gn Dn).
  assert (Oc : is_object sc || is_categorical_dtype sc = true)
    by (unfold is_object, is_categorical_dtype; destruct (dtype_of sc); easy).
  rewrite Nn, Oc. reflexivity.
Qed.

Lemma selected_category_is_categorical s :
  sel_object_category (dtype_of s) = true ->
  is_object s || is_categorical_dtype s = true.
Proof.
  unfold is_object, is_categorical_dtype. destruct (dtype_of s); easy.
Qed.

Lemma correlation_dispatch method corr c1 c2 r :
  benign_name c1 -> benign_name c2 ->
  In c1 (select_dtypes sel_number df) ->
  In c2 (select_dtypes sel_number df) ->
  answer_one df alpha
    (q_text (correlation_question (strength_word corr) method corr c1 c2)) r
  = rendered_outcome (test_numeric_numeric df c1 c2 alpha) r.
Proof.
  intros B1 B2 H1 H2.
  destruct (frame_get_selected _ _ _ Hnames H1) as (s1 & G1 & D1).
  destruct (frame_get_selected _ _ _ Hnames H2) as (s2 & G2 & D2).
  apply (selected_number_is_numeric df c1 s1 Hno G1) in D1.
  apply (selected_number_is_numeric df c2 s2 Hno G2) in D2.
  assert (Hok : template_ok
                  (correlation_template (strength_word corr)
                     (method_name method) (fmt_fixed 2 corr) c1 c2))
    by template_ok.
  unfold answer_one.
  rewrite (extract_correlation_question c1 c2 (proj1 B1) (proj1 B2) _ _ _
             (quote_free_strength_word corr)).
  rewrite correlation_question_template.
  unfold strength_word in *.
  destruct (fgt (PrimFloat.abs corr) 0.7%float), method;
    dispatch_conditions Hok;
    cbn [andb orb length Nat.eqb];
    unfold bind, lift, ret, numeric_column, all_of, unpack2, rendered_outcome;
    unfold bind, lift, ret; rewrite G1, D1, G2, D2; reflexivity.
Qed.

Lemma association_dispatch cat1 cat2 r :
  benign_name cat1 -> benign_name cat2 ->
  In cat1 (select_dtypes sel_object_category df) ->
  In cat2 (select_dtypes sel_object_category df) ->
  answer_one df alpha (q_text (association_question cat1 cat2)) r
  = rendered_outcome (test_categorical_categorical df cat1 cat2 alpha) r.
Proof.
  intros B1 B2 H1 H2.
  destruct (frame_get_selected _ _ _ Hnames H1) as (s1 & G1 & D1).
  destruct (frame_get_selected _ _ _ Hnames H2) as (s2 & G2 & D2).
  apply selected_category_is_categorical in D1, D2.
  assert (Hok : template_ok (association_template cat1 cat2)) by template_ok.
  unfold answer_one.
  rewrite (extract_association_question cat1 cat2 (proj1 B1) (proj1 B2)).
  rewrite association_question_template.
  dispatch_conditions Hok.
  cbn [andb orb length Nat.eqb].
  unfold bind, lift, ret, object_or_category, unpack2, rendered_outcome.
  unfold bind, lift, ret. rewrite G1, D1, G2, D2. reflexivity.
Qed.

Lemma skew_dispatch col v s r :
  benign_name col -> frame_get df col = Ok s -> is_numeric_dtype s = true ->
  answer_one df alpha (q_text (skew_question col v)) r
  = (match series_skew (values s) with
     | Ok skew_val =>
         Ok (Some (fstr ["'"; col; "' skewness = "; fmt_fixed 2 skew_val;
                         " (";
                         if fgt (PrimFloat.abs skew_val) 1%float
                         then "Highly skewed" else "Relatively symmetric";
                         ")."]))
     | Raise e => Raise e
     end, r).
Proof.
  intros B G N.
  assert (Hok : template_ok (skew_template col (fmt_fixed 2 v)))
    by template_ok.
  unfold answer_one.
  rewrite (extract_skew_question col (proj1 B)), skew_question_template.
  dispatch_conditions Hok.
  cbn [andb orb length Nat.eqb].
  unfold bind, lift, ret, first_of. rewrite G, N.
  now destruct (series_skew (values s)).
Qed.

Lemma kurtosis_dispatch col v s r :
  benign_name col -> frame_get df col = Ok s -> is_numeric_dtype s = true ->
  answer_one df alpha (q_text (kurtosis_question col v)) r
  = (match series_kurtosis (values s) with
     | Ok kurt_val =>
         Ok (Some (fstr ["'"; col; "' kurtosis = "; fmt_fixed 2 kurt_val;
                         " (";
                         if fgt kurt_val 3%float
                         then "Leptokurtic (heavy tails)"
                         else if flt kurt_val 3%float
                              then "Platykurtic (light tails)"
                              else "Mesokurtic (normal-like)";
                         ")."]))
     | Raise e => Raise e
     end, r).
Proof.
  intros B G N.
  assert (Hok : template_ok (kurtosis_template col (fmt_fixed 2 v)))
    by template_ok.
  unfold answer_one.
  rewrite (extract_kurtosis_question col (proj1 B)), kurtosis_question_template.
  dispatch_conditions Hok.
  cbn [andb orb length Nat.eqb].
  unfold bind, lift, ret, first_of. rewrite G, N.
  now destruct (series_kurtosis (values s)).
Qed.

Lemma outlier_dispatch n col s r :
  benign_name col -> frame_get df col = Ok s -> is_numeric_dtype s = true ->
  answer_one df alpha (q_text (outlier_question n col)) r
  = (match series_quantile 0.25%float (values s) with
     | Ok Q1 =>
         match series_quantile 0.75%float (values s) with
         | Ok Q3 =>
             Ok (Some (fstr ["'"; col; "' has ";
                             str_nat
                               (count_outside
                                  (PrimFloat.sub Q1
                                     (PrimFloat.mul 1.5%float
                                                    (PrimFloat.sub Q3 Q1)))
                                  (PrimFloat.add Q3
                                     (PrimFloat.mul 1.5%float
                                                    (PrimFloat.sub Q3 Q1)))
                                  (values s));
                             " outliers detected using IQR method."]))
         | Raise e => Raise e
         end
     | Raise e => Raise e
     end, r).
Proof.
  intros B G N.
  assert (Hok : template_ok (outlier_template (str_nat n) col))
    by template_ok.
  unfold answer_one.
  rewrite (extract_outlier_question col (proj1 B)), outlier_question_template.
  dispatch_conditions Hok.
  cbn [andb orb length Nat.eqb].
  unfold bind, lift, ret, first_of. rewrite G, N.
  destruct (series_quantile 0.25%float (values s)); [|reflexivity].
  now destruct (series_quantile 0.75%float (values s)).
Qed.

Lemma missing_dispatch pct col s r :
  benign_name col -> frame_get df col = Ok s ->
  answer_one df alpha (q_text (missing_question pct col)) r
  = (Ok (Some (if fgt (missing_pct (values s)) 0%float
               then fstr ["Missing data in '"; col; "': ";
                          fmt_fixed 1 (missing_pct (values s)); "%."]
               else fstr ["No missing data in '"; col; "'."])), r).
Proof.
  intros B G.
  assert (Hok : template_ok (missing_template (fmt_fixed 1 pct) col))
    by template_ok.
  unfold answer_one.
  rewrite (extract_missing_question col (proj1 B)), missing_question_template.
  dispatch_conditions Hok.
  cbn [andb orb length Nat.eqb].
  unfold bind, lift, ret, first_of. rewrite G.
  now destruct (fgt (missing_pct (values s)) 0%float).
Qed.

Lemma seasonal_dispatch col r :
  benign_name col ->
  answer_one df alpha (q_text (seasonal_question col)) r
  = (Ok (Some (fstr ["Trend analysis for '"; col;
                     "' requires time-series decomposition — not automated here."])),
     r).
Proof.
  intros B.
  assert (Hok : template_ok (seasonal_template col)) by template_ok.
  unfold answer_one.
  rewrite (extract_seasonal_question col (proj1 B)), seasonal_question_template.
  dispatch_conditions Hok.
  reflexivity.
Qed.

Lemma duplicate_dispatch r :
  answer_one df alpha (q_text duplicate_question) r
  = (Ok (Some (fstr ["Dataset contains "; str_nat (duplicated_sum df);
                     " duplicate rows."])), r).
Proof. reflexivity. Qed.

End Dispatch.

(** ** The kinds of the generated questions *)

Ltac generated :=
  repeat (apply Forall_app; split); auto;
  repeat first [apply Forall_cons | apply Forall_nil];
  try (constructor; assumption).

Section Kinds.
Context `{L : Lib}.
Variable df : DataFrame.

Lemma in_self {A} (l : list A) : Forall (fun a => In a l) l.
Proof. now apply Forall_forall. Qed.

Lemma distribution_kinds qs r r' :
  distribution_questions df (select_dtypes sel_number df) r = (Ok qs, r') ->
  Forall (generated_question df) qs.
Proof.
  unfold distribution_questions.
  apply (for_each_invariant (Forall (generated_question df))
           (fun c => In c (select_dtypes sel_number df)));
    [|apply in_self|constructor].
  intros s a r0 s' r0' Ha Hs H. comp_inv. split_ifs; generated.
Qed.

Lemma difference_kinds qs r r' :
  difference_questions df (select_dtypes sel_object_category df)
                       (select_dtypes sel_number df) r = (Ok qs, r') ->
  Forall (generated_question df) qs.
Proof.
  unfold difference_questions.
  apply (for_each_invariant (Forall (generated_question df))
           (fun c => In c (select_dtypes sel_object_category df)));
    [|apply in_self|constructor].
  intros s a r0 s' r0' Ha Hs H. comp_inv. split_ifs; generated.
  apply Forall_forall. intros q Hq.
  apply in_map_iff in Hq as (num & <- & Hnum). now constructor.
Qed.

Lemma association_kinds qs r r' :
  association_questions df (select_dtypes sel_object_category df) r
    = (Ok qs, r') ->
  Forall (generated_question df) qs.
Proof.
  unfold association_questions.
  apply (for_each_invariant (Forall (generated_question df))
           (fun p => In (fst p) (select_dtypes sel_object_category df)
                     /\ In (snd p) (select_dtypes sel_object_category df)));
    [| |constructor].
  - intros s a r0 s' r0' [Ha Hb] Hs H. comp_inv. split_ifs; generated.
  - apply Forall_forall. intros [a b] Hab.
    now apply ordered_pairs_in in Hab.
Qed.

Lemma time_kinds :
  Forall (generated_question df)
         (time_questions (select_dtypes sel_datetime df)
                         (select_dtypes sel_number df)).
Proof.
  unfold time_questions. apply Forall_forall. intros q Hq.
  apply in_flat_map in Hq as (col & Hcol & [<-|Hq]).
  - now constructor.
  - apply in_map_iff in Hq as (num & <- & Hnum). now constructor.
Qed.

Lemma outlier_kinds qs r r' :
  outlier_questions df (select_dtypes sel_number df) r = (Ok qs, r') ->
  Forall (generated_question df) qs.
Proof.
  unfold outlier_questions.
  apply (for_each_invariant (Forall (generated_question df))
           (fun c => In c (select_dtypes sel_number df)));
    [|apply in_self|constructor].
  intros s a r0 s' r0' Ha Hs H. comp_inv. split_ifs; generated.
Qed.

Lemma missing_kinds qs r r' :
  missing_questions df r = (Ok qs, r') ->
  Forall (generated_question df) qs.
Proof.
  unfold missing_questions.
  apply (for_each_invariant (Forall (generated_question df))
           (fun c => In c (column_names df))); [| |constructor].
  - intros s a r0 s' r0' Ha Hs H. comp_inv. split_ifs; generated.
  - apply Forall_forall. apply columns_with_missing_incl.
Qed.

Lemma duplicate_kinds : Forall (generated_question df) (duplicate_questions df).
Proof. unfold duplicate_questions. split_ifs; repeat constructor. Qed.

Lemma correlation_kinds max qs r r' :
  correlation_questions df (select_dtypes sel_number df) max r = (Ok qs, r') ->
  Forall (generated_question df) qs.
Proof.
  unfold correlation_questions. intros H.
  apply bind_ok in H as ([questions added] & r0 & Hloop & Hret).
  apply ret_ok in Hret as [<- _].
  apply correlation_loop_shape in Hloop as (picks & -> & _ & Hsub & _ & _).
  apply Forall_forall. intros q Hq. simpl in Hq.
  apply in_map_iff in Hq as (p & <- & Hp).
  assert (Hpair : In (pick_pair p)
                     (ordered_pairs (select_dtypes sel_number df))).
  { apply (subseq_incl _ _ Hsub). now apply in_map. }
  apply ordered_pairs_in in Hpair as [H1 H2].
  now constructor.
Qed.

Lemma generate_kinds max qs r r' :
  generate df max r = (Ok qs, r') -> Forall (generated_question df) qs.
Proof.
  unfold generate. intros H.
  apply bind_ok in H as (correlation & r1 & Hcorr & H).
  apply bind_ok in H as (distribution & r2 & Hdist & H).
  apply bind_ok in H as (difference & r3 & Hdiff & H).
  apply bind_ok in H as (association & r4 & Hassoc & H).
  apply bind_ok in H as (outlier & r5 & Hout & H).
  apply bind_ok in H as (missing & r6 & Hmiss & H).
  apply ret_ok in H as [<- _].
  repeat (apply Forall_app; split).
  - eapply correlation_kinds; eassumption.
  - eapply distribution_kinds; eassumption.
  - eapply difference_kinds; eassumption.
  - eapply association_kinds; eassumption.
  - apply time_kinds.
  - eapply outlier_kinds; eassumption.
  - eapply missing_kinds; eassumption.
  - apply duplicate_kinds.
Qed.

End Kinds.

(** ** Which generated questions are answered *)

Lemma trend_question_template num col :
  q_text (trend_question num col) = render (trend_template num col).
Proof. reflexivity. Qed.

Lemma trend_question_no_duplicate num col :
  benign_name num -> benign_name col ->
  contains "duplicate" (lower (q_text (trend_question num col))) = false.
Proof.
  intros Bn Bc.
  assert (Hok : template_ok (trend_template num col)) by template_ok.
  rewrite trend_question_template.
  now rewrite (keyword_in_template "duplicate" _ ltac:(keyword_in_list) Hok).
Qed.

Lemma frame_get_named (df : DataFrame) c :
  In c (column_names df) -> exists s, frame_get df c = Ok s.
Proof.
  unfold column_names. induction df as [|[n s] d IH]; simpl; [contradiction|].
  intros [->|H].
  - rewrite String.eqb_refl. eauto.
  - destruct (String.eqb n c); eauto.
Qed.

Section Answered.
Context `{L : Lib}.
Variables (df : DataFrame) (alpha : float).
Hypothesis Hnames : NoDup (column_names df).
Hypothesis Hno : no_time_differences df.
Hypothesis Hbenign : forall c, In c (column_names df) -> benign_name c.

(** A question whose body never finishes without assigning has an entry
    once it has been asked. *)
Lemma answer_loop_entry q qs answers r answers' r' :
  (forall r0, ~ silent (fst (answer_one df alpha q r0))) ->
  In q qs ->
  for_each (answer_step df alpha) qs answers r = (Ok answers', r') ->
  exists text, dict_get q answers' = Some text.
Proof.
  intros Hq. revert answers r.
  induction qs as [|q0 qs IH]; intros answers r Hin H; [contradiction|].
  rewrite for_each_cons in H.
  destruct (answer_step_returns df alpha answers q0 r) as (a1 & r1 & Hstep).
  rewrite Hstep in H.
  destruct (in_dec string_dec q qs) as [Hlater|Hnot].
  - exact (IH a1 r1 Hlater H).
  - destruct Hin as [->|Hin]; [|contradiction].
    rewrite (answer_loop_other_keys _ _ _ _ _ _ _ _ Hnot H).
    rewrite answer_step_outcome in Hstep. specialize (Hq r).
    destruct (answer_one df alpha q r) as [[[text|]|e] r2];
      inversion Hstep; subst.
    + rewrite dict_get_set_same. eauto.
    + exfalso. now apply Hq.
    + rewrite dict_get_set_same. eauto.
Qed.

Lemma rendered_outcome_not_silent (test : M test_out) r :
  ~ silent (fst (rendered_outcome test r)).
Proof.
  unfold rendered_outcome, bind, ret, silent.
  destruct (test r) as [[result|e] r1]; simpl; discriminate.
Qed.

Lemma benign_selected sel c :
  In c (select_dtypes sel df) -> benign_name c.
Proof. intros H. apply Hbenign. now apply (select_dtypes_incl sel). Qed.

(** The questions of every kind but one always get an answer or an error
    text. *)
Lemma generated_question_answered q :
  generated_question df q ->
  (exists num col, q = trend_question num col
                   /\ In num (select_dtypes sel_number df)
                   /\ In col (select_dtypes sel_datetime df))
  \/ (forall r, ~ silent (fst (answer_one df alpha (q_text q) r))).
Proof.
  intros Hq.
  destruct Hq as [method corr c1 c2 H1 H2|col v H|col v H|cat num Hc Hn
                 |c1 c2 H1 H2|col H|num col Hn Hc|n col H|pct col H|].
  - right. intros r. rewrite correlation_dispatch; eauto using benign_selected.
    apply rendered_outcome_not_silent.
  - right. intros r. destruct (frame_get_selected _ _ _ Hnames H) as (s & G & D).
    rewrite (skew_dispatch df alpha col v s);
      eauto using benign_selected, selected_number_is_numeric.
    unfold silent. simpl. destruct (series_skew (values s)); discriminate.
  - right. intros r. destruct (frame_get_selected _ _ _ Hnames H) as (s & G & D).
    rewrite (kurtosis_dispatch df alpha col v s);
      eauto using benign_selected, selected_number_is_numeric.
    unfold silent. simpl. destruct (series_kurtosis (values s)); discriminate.
  - right. intros r. rewrite difference_dispatch; eauto using benign_selected.
    apply rendered_outcome_not_silent.
  - right. intros r. rewrite association_dispatch; eauto using benign_selected.
    apply rendered_outcome_not_silent.
  - right. intros r. rewrite seasonal_dispatch; eauto using benign_selected.
    discriminate.
  - left. eauto.
  - right. intros r. destruct (frame_get_selected _ _ _ Hnames H) as (s & G & D).
    rewrite (outlier_dispatch df alpha n col s);
      eauto using benign_selected, selected_number_is_numeric.
    unfold silent. simpl.
    destruct (series_quantile 0.25%float (values s)); [|discriminate].
    destruct (series_quantile 0.75%float (values s)); discriminate.
  - right. intros r. destruct (frame_get_named df col H) as (s & G).
    rewrite (missing_dispatch df alpha pct col s); auto.
    discriminate.
  - right. intros r. rewrite duplicate_dispatch. discriminate.
Qed.

Lemma trend_pair_silent text r :
  is_trend_pair df text -> answer_one df alpha text r = (Ok None, r).
Proof.
  intros (num & col & Hn & Hc & ->).
  apply trend_question_silent; auto.
  - apply (benign_selected _ _ Hn).
  - apply (benign_selected _ _ Hc).
  - apply trend_question_no_duplicate;
      [apply (benign_selected _ _ Hn) | apply (benign_selected _ _ Hc)].
Qed.

End Answered.

Lemma fixed_always_answered `{L : Lib} df alpha q text :
  (forall r0, answer_one df alpha q r0 = (Ok (Some text), r0)) ->
  always_answered df alpha q text.
Proof.
  intros Hq questions r answers r' Hin H.
  exact (answer_loop_fixed df alpha q text questions [] r answers r' Hq Hin H).
Qed.

Lemma silent_never_answered `{L : Lib} df alpha q :
  (forall r0, answer_one df alpha q r0 = (Ok None, r0)) ->
  never_answered df alpha q.
Proof.
  intros Hq questions r answers r' H.
  now rewrite (answer_loop_silent df alpha q questions [] r answers r' Hq H).
Qed.

Lemma answer_step_test `{L : Lib} df alpha answers q test r :
  answer_one df alpha q r = rendered_outcome test r ->
  answer_step df alpha answers q r = test_turn answers q test r.
Proof.
  intros H. unfold answer_step, test_turn, try_except, bind at 1.
  rewrite H. unfold rendered_outcome, bind, ret.
  now destruct (test r) as [[result|e] r1].
Qed.

(** X3.  Over a frame without columns of time differences, with distinct
    column names in ASCII that are not empty and hold no quote, no keyword
    of the dispatch and no simple-metric word, when the questions of
    [generate_questions] are passed to [answer_questions], the questions
    left without an entry are exactly those on the change of a numeric
    column over a datetime column; every other generated question ends
    with an answer or an error text. *)
Theorem generated_unanswered_iff_trend_pair `{L : Lib} :
  forall df max alpha r texts r1 answers r2,
    NoDup (column_names df) ->
    no_time_differences df ->
    (forall c, In c (column_names df) -> benign_name c) ->
    generate_questions df max r = (Ok texts, r1) ->
    answer_questions df texts alpha r1 = (Ok answers, r2) ->
    forall text, In text texts ->
      (dict_get text answers = None <-> is_trend_pair df text).
Proof.
  intros df max alpha r texts r1 answers r2 Hnames Hno Hbenign Hgen Hans
         text Hin.
  split.
  - intros Hnone.
    unfold generate_questions in Hgen.
    apply bind_ok in Hgen as (qs & r0 & Hgen & Hret).
    apply ret_ok in Hret as [<- _].
    apply generate_kinds in Hgen.
    apply in_map_iff in Hin as (q & <- & Hq).
    assert (Hin : In (q_text q) (map q_text qs)) by now apply in_map.
    rewrite Forall_forall in Hgen. specialize (Hgen q Hq).
    destruct (generated_question_answered df alpha Hnames Hno Hbenign q Hgen)
      as [(num & col & -> & Hn & Hc)|Hsome].
    + exists num, col. auto.
    + exfalso.
      destruct (answer_loop_entry df alpha _ _ _ _ _ _ Hsome Hin Hans)
        as (a & Ha).
      congruence.
  - intros Htrend.
    apply (silent_never_answered df alpha text
             (fun r0 => trend_pair_silent df alpha Hnames Hbenign text r0 Htrend)
             texts r1 answers r2 Hans).
Qed.

Ltac benign :=
  split; [split; [discriminate | reflexivity] | repeat split].

Ltac benign_names :=
  simpl;
  intros ? H;
  repeat (destruct H as [<-|H]; [benign | ]);
  contradiction.

Ltac distinct_names := repeat constructor; simpl; intuition discriminate.

Ltac no_time_difference_columns :=
  intros ? ? H; simpl in H;
  repeat (destruct H as [H|H];
          [inversion H; subst; intros E; vm_compute in E; discriminate E | ]);
  contradiction.

Lemma generated_unanswered_iff_trend_pair_witness :
  dict_get (q_text (trend_question "x" "d")) Lab.survey_answers = None
  <-> is_trend_pair Lab.survey (q_text (trend_question "x" "d")).
Proof.
  apply (generated_unanswered_iff_trend_pair Lab.survey 5 0.05%float Lab.start
           Lab.survey_questions Lab.survey_asked
           Lab.survey_answers Lab.survey_answered).
  - distinct_names.
  - no_time_difference_columns.
  - benign_names.
  - vm_compute. reflexivity.
  - vm_compute. reflexivity.
  - simpl. tauto.
Defined.

(** ** The questions that run a test *)

(** X4.  Over a frame with distinct column names and without columns of
    time differences, a correlation question of the generator on two
    numeric columns with benign names (in ASCII, not empty, without quote,
    keyword or simple-metric word) makes one turn of the loop of
    [answer_questions] run
    [test_numeric_numeric] on the two columns in the order of the
    question, and store the rendered result, or the text of the error the
    test raised, under the question. *)
Theorem correlation_question_runs_numeric_test `{L : Lib} :
  forall df alpha method corr c1 c2 answers r,
    NoDup (column_names df) ->
    no_time_differences df ->
    benign_name c1 -> benign_name c2 ->
    In c1 (select_dtypes sel_number df) ->
    In c2 (select_dtypes sel_number df) ->
    answer_step df alpha answers
      (q_text (correlation_question (strength_word corr) method corr c1 c2)) r
    = test_turn answers
        (q_text (correlation_question (strength_word corr) method corr c1 c2))
        (test_numeric_numeric df c1 c2 alpha) r.
Proof.
  intros df alpha method corr c1 c2 answers r Hnames Hno B1 B2 H1 H2.
  apply answer_step_test. now apply correlation_dispatch.
Qed.

Lemma correlation_question_runs_numeric_test_witness :
  answer_step Lab.survey 0.05%float []
    (q_text (correlation_question (strength_word 0.68%float) Pearson
                                  0.68%float "x" "y")) Lab.start
  = test_turn []
      (q_text (correlation_question (strength_word 0.68%float) Pearson
                                    0.68%float "x" "y"))
      (test_numeric_numeric Lab.survey "x" "y" 0.05%float) Lab.start.
Proof.
  apply (correlation_question_runs_numeric_test Lab.survey 0.05%float Pearson
           0.68%float "x" "y" [] Lab.start).
  - distinct_names.
  - no_time_difference_columns.
  - benign.
  - benign.
  - simpl. tauto.
  - simpl. tauto.
Defined.

(** X5.  Over a frame with distinct column names and without columns of
    time differences, a group-difference question of the generator on a
    categorical and a numeric column with benign names (in ASCII, not
    empty, without quote, keyword or simple-metric word) makes one turn of
    the loop run
    [test_numeric_categorical] with the categorical column first, as the
    question quotes them, and store the rendered result or the error
    text under the question. *)
Theorem difference_question_runs_group_test `{L : Lib} :
  forall df alpha cat num answers r,
    NoDup (column_names df) ->
    no_time_differences df ->
    benign_name cat -> benign_name num ->
    In cat (select_dtypes sel_object_category df) ->
    In num (select_dtypes sel_number df) ->
    answer_step df alpha answers (q_text (difference_question cat num)) r
    = test_turn answers (q_text (difference_question cat num))
        (test_numeric_categorical df cat num alpha) r.
Proof.
  intros df alpha cat num answers r Hnames Hno B1 B2 H1 H2.
  apply answer_step_test. now apply difference_dispatch.
Qed.

Lemma difference_question_runs_group_test_witness :
  answer_step Lab.survey 0.05%float [] (q_text (difference_question "g" "x"))
              Lab.start
  = test_turn [] (q_text (difference_question "g" "x"))
      (test_numeric_categorical Lab.survey "g" "x" 0.05%float) Lab.start.
Proof.
  apply (difference_question_runs_group_test Lab.survey 0.05%float "g" "x" []
           Lab.start).
  - distinct_names.
  - no_time_difference_columns.
  - benign.
  - benign.
  - simpl. tauto.
  - simpl. tauto.
Defined.

(** X6.  Over a frame with distinct column names, an association question
    of the generator on two categorical columns with benign names (in
    ASCII, not empty, without quote, keyword or simple-metric word) makes
    one turn of the loop run [test_categorical_categorical] on the two
    columns and store the rendered result or the error text under the
    question. *)
Theorem association_question_runs_table_test `{L : Lib} :
  forall df alpha cat1 cat2 answers r,
    NoDup (column_names df) ->
    benign_name cat1 -> benign_name cat2 ->
    In cat1 (select_dtypes sel_object_category df) ->
    In cat2 (select_dtypes sel_object_category df) ->
    answer_step df alpha answers (q_text (association_question cat1 cat2)) r
    = test_turn answers (q_text (association_question cat1 cat2))
        (test_categorical_categorical df cat1 cat2 alpha) r.
Proof.
  intros df alpha cat1 cat2 answers r Hnames B1 B2 H1 H2.
  apply answer_step_test. now apply association_dispatch.
Qed.

Lemma association_question_runs_table_test_witness :
  answer_step Lab.survey 0.05%float [] (q_text (association_question "g" "h"))
              Lab.start
  = test_turn [] (q_text (association_question "g" "h"))
      (test_categorical_categorical Lab.survey "g" "h" 0.05%float) Lab.start.
Proof.
  apply (association_question_runs_table_test Lab.survey 0.05%float "g" "h" []
           Lab.start).
  - distinct_names.
  - benign.
  - benign.
  - simpl. tauto.
  - simpl. tauto.
Defined.

(** ** The questions answered with a figure *)

Lemma above_five_above_zero x : fgt x 5%float = true -> fgt x 0%float = true.
Proof.
  unfold fgt. rewrite !ltb_spec.
  replace (Prim2SF 5%float) with (S754_finite false 5629499534213120 (-50))
    by (vm_compute; reflexivity).
  replace (Prim2SF 0%float) with (S754_zero false)
    by (vm_compute; reflexivity).
  destruct (Prim2SF x) as [s|s| |s m e].
  - destruct s; simpl; intros; (discriminate || reflexivity).
  - destruct s; simpl; intros; (discriminate || reflexivity).
  - simpl; intros; (discriminate || reflexivity).
  - unfold SFltb, SFcompare. destruct s; [|reflexivity].
    intros H. exfalso. revert H. simpl. discriminate.
Qed.

(** X7.  Over a frame with distinct column names and without columns of
    time differences, the names of the numeric columns benign (in ASCII,
    not empty, without quote, keyword or simple-metric word), every
    question of the distribution rule of the generator is answered
    in agreement with it: a skewness question with the same figure and
    the label [Highly skewed], a kurtosis question with the same figure
    and the label [Leptokurtic (heavy tails)], whatever the other
    questions asked. *)
Theorem distribution_answers_agree `{L : Lib} :
  forall df alpha qs r r',
    NoDup (column_names df) ->
    no_time_differences df ->
    (forall c, In c (select_dtypes sel_number df) -> benign_name c) ->
    distribution_questions df (select_dtypes sel_number df) r = (Ok qs, r') ->
    Forall (distribution_agreed df alpha) qs.
Proof.
  intros df alpha qs r r' Hnames Hno Hbenign.
  unfold distribution_questions.
  apply (for_each_invariant (Forall (distribution_agreed df alpha))
           (fun c => In c (select_dtypes sel_number df)));
    [|apply in_self|constructor].
  intros s col r0 s' r0' Hcol Hs H.
  destruct (frame_get_selected _ _ _ Hnames Hcol) as (ser & G & D).
  apply (selected_number_is_numeric df col ser Hno G) in D.
  apply bind_ok in H as (ser' & r1 & Hget & H).
  apply lift_ok in Hget as [Hget ->].
  rewrite G in Hget. inversion Hget; subst ser'.
  apply bind_ok in H as (skew_val & r2 & Hskew & H).
  apply lift_ok in Hskew as [Hskew ->].
  apply bind_ok in H as (kurt_val & r3 & Hkurt & H).
  apply lift_ok in Hkurt as [Hkurt ->].
  apply ret_ok in H as [<- _].
  assert (Sk : fgt (PrimFloat.abs skew_val) 1%float = true ->
               distribution_agreed df alpha (skew_question col skew_val)).
  { intros E. constructor. apply fixed_always_answered. intros r1.
    rewrite (skew_dispatch df alpha col skew_val ser r1
               (Hbenign col Hcol) G D), Hskew, E.
    reflexivity. }
  assert (Ku : fgt kurt_val 3%float = true ->
               distribution_agreed df alpha (kurtosis_question col kurt_val)).
  { intros E. constructor. apply fixed_always_answered. intros r1.
    rewrite (kurtosis_dispatch df alpha col kurt_val ser r1
               (Hbenign col Hcol) G D), Hkurt, E.
    reflexivity. }
  destruct (fgt (PrimFloat.abs skew_val) 1%float),
           (fgt kurt_val 3%float);
    repeat (apply Forall_app; split); auto.
Qed.

Lemma distribution_answers_agree_witness :
  Forall (@distribution_agreed Lab.lib Lab.survey 0.05%float)
         Lab.survey_distribution.
Proof.
  apply (distribution_answers_agree Lab.survey 0.05%float
           Lab.survey_distribution Lab.start Lab.start).
  - distinct_names.
  - no_time_difference_columns.
  - benign_names.
  - reflexivity.
Defined.

(** X8.  Over a frame with distinct column names and without columns of
    time differences, the names of the numeric columns benign (in ASCII,
    not empty, without quote, keyword or simple-metric word), every
    question of the outlier rule of the generator quotes a count
    that is not zero and is answered with the same count, whatever the
    other questions asked. *)
Theorem outlier_answers_agree `{L : Lib} :
  forall df alpha qs r r',
    NoDup (column_names df) ->
    no_time_differences df ->
    (forall c, In c (select_dtypes sel_number df) -> benign_name c) ->
    outlier_questions df (select_dtypes sel_number df) r = (Ok qs, r') ->
    Forall (outlier_agreed df alpha) qs.
Proof.
  intros df alpha qs r r' Hnames Hno Hbenign.
  unfold outlier_questions.
  apply (for_each_invariant (Forall (outlier_agreed df alpha))
           (fun c => In c (select_dtypes sel_number df)));
    [|apply in_self|constructor].
  intros s col r0 s' r0' Hcol Hs H.
  destruct (frame_get_selected _ _ _ Hnames Hcol) as (ser & G & D).
  apply (selected_number_is_numeric df col ser Hno G) in D.
  apply bind_ok in H as (ser' & r1 & Hget & H).
  apply lift_ok in Hget as [Hget ->].
  rewrite G in Hget. inversion Hget; subst ser'.
  apply bind_ok in H as (Q1 & r2 & HQ1 & H).
  apply lift_ok in HQ1 as [HQ1 ->].
  apply bind_ok in H as (Q3 & r3 & HQ3 & H).
  apply lift_ok in HQ3 as [HQ3 ->].
  apply ret_ok in H as [<- _].
  destruct (Nat.ltb_spec 0
              (count_outside
                 (PrimFloat.sub Q1
                    (PrimFloat.mul 1.5%float (PrimFloat.sub Q3 Q1)))
                 (PrimFloat.add Q3
                    (PrimFloat.mul 1.5%float (PrimFloat.sub Q3 Q1)))
                 (values ser))) as [Hpos|_]; [|exact Hs].
  apply Forall_app. split; [exact Hs|].
  constructor; [|constructor].
  constructor; [exact Hpos|].
  apply fixed_always_answered. intros r1.
  rewrite (outlier_dispatch df alpha _ col ser r1 (Hbenign col Hcol) G D).
  now rewrite HQ1, HQ3.
Qed.

Lemma outlier_answers_agree_witness :
  Forall (@outlier_agreed Lab.lib Lab.survey 0.05%float) Lab.survey_outliers.
Proof.
  apply (outlier_answers_agree Lab.survey 0.05%float
           Lab.survey_outliers Lab.start Lab.start).
  - distinct_names.
  - no_time_difference_columns.
  - benign_names.
  - reflexivity.
Defined.

(** X9.  Over a frame whose column names are benign (in ASCII, not empty,
    without quote, keyword or simple-metric word), every question of the
    missing-data rule of the generator is answered with the percentage it
    quotes, and never with [No missing data], whatever the other
    questions asked. *)
Theorem missing_answers_agree `{L : Lib} :
  forall df alpha qs r r',
    (forall c, In c (column_names df) -> benign_name c) ->
    missing_questions df r = (Ok qs, r') ->
    Forall (missing_agreed df alpha) qs.
Proof.
  intros df alpha qs r r' Hbenign.
  unfold missing_questions.
  apply (for_each_invariant (Forall (missing_agreed df alpha))
           (fun c => In c (column_names df))); [| |constructor].
  - intros s col r0 s' r0' Hcol Hs H.
    apply bind_ok in H as (ser & r1 & Hget & H).
    apply lift_ok in Hget as [Hget ->].
    apply ret_ok in H as [<- _].
    destruct (fgt (missing_pct (values ser)) 5%float) eqn:E; [|exact Hs].
    apply Forall_app. split; [exact Hs|].
    constructor; [|constructor].
    constructor. apply fixed_always_answered. intros r1.
    rewrite (missing_dispatch df alpha _ col ser r1 (Hbenign col Hcol) Hget).
    now rewrite (above_five_above_zero _ E).
  - apply Forall_forall. apply columns_with_missing_incl.
Qed.

Lemma missing_answers_agree_witness :
  Forall (@missing_agreed Lab.lib Lab.survey 0.05%float) Lab.survey_missing.
Proof.
  apply (missing_answers_agree Lab.survey 0.05%float
           Lab.survey_missing Lab.start Lab.start).
  - benign_names.
  - reflexivity.
Defined.

(** ** Questions that are not those of the generator *)

Lemma raised_always_answered `{L : Lib} df alpha q e :
  (forall r0, answer_one df alpha q r0 = (Raise e, r0)) ->
  always_answered df alpha q (error_answer e).
Proof.
  intros Hq questions. unfold answer_questions.
  generalize (@nil (string * string)).
  induction questions as [|q0 qs IH]; intros answers r answers' r' Hin H;
    [contradiction|].
  rewrite for_each_cons in H.
  destruct (answer_step_returns df alpha answers q0 r) as (a1 & r1 & Hstep).
  rewrite Hstep in H.
  destruct (in_dec string_dec q qs) as [Hlater|Hnot].
  - exact (IH a1 r1 answers' r' Hlater H).
  - destruct Hin as [->|Hin]; [|contradiction].
    rewrite (answer_loop_other_keys _ _ _ _ _ _ _ _ Hnot H).
    rewrite answer_step_outcome, Hq in Hstep. inversion Hstep.
    apply dict_get_set_same.
Qed.

Lemma frame_get_absent df c :
  ~ In c (column_names df) -> frame_get df c = Raise (py_repr c).
Proof.
  unfold column_names. induction df as [|[n s] d IH]; simpl; [reflexivity|].
  intros H. destruct (String.eqb_spec n c) as [->|Hne].
  - exfalso. apply H. now left.
  - apply IH. intros Hin. apply H. now right.
Qed.

(** X10.  A question whose lower-cased text holds one of the words [mean],
    [average], [max], [min], [median], [sum], [count] as a whole word is
    given no entry by [answer_questions], whatever else its text says and
    whatever the other questions. *)
Theorem skip_word_never_answered `{L : Lib} :
  forall df alpha q questions r answers r',
    existsb (fun p => search_word p (lower q)) skip_patterns = true ->
    answer_questions df questions alpha r = (Ok answers, r') ->
    dict_get q answers = None.
Proof.
  intros df alpha q questions r answers r' Hskip.
  refine (silent_never_answered df alpha q _ questions r answers r').
  intros r0. unfold answer_one. now rewrite Hskip.
Qed.

Lemma skip_word_never_answered_witness :
  dict_get (q_text (difference_question "g" "count"))
           [(q_text (difference_question "g" "x"),
             @format_test_result Lab.lib (RDict Lab.two_groups_result))]
  = None.
Proof.
  eapply (skip_word_never_answered Lab.two_groups 0.05%float
            (q_text (difference_question "g" "count"))
            [q_text (difference_question "g" "count");
             q_text (difference_question "g" "x")]
            Lab.start _ _).
  - vm_compute. reflexivity.
  - vm_compute. reflexivity.
Defined.

(** X11.  A question in ASCII that quotes one name which is no column of
    the frame, holds no simple-metric word and holds one of the keywords
    [skew], [kurtosis], [outlier], [missing], ends with the entry
    [Error answering question: ] followed by the [repr] of the name,
    whatever the other questions asked. *)
Theorem unknown_column_error `{L : Lib} :
  forall df alpha q c questions r answers r',
    ascii_text q = true ->
    existsb (fun p => search_word p (lower q)) skip_patterns = false ->
    extract_columns_from_question q = [c] ->
    ~ In c (column_names df) ->
    contains "skew" (lower q) || contains "kurtosis" (lower q)
    || contains "outlier" (lower q) || contains "missing" (lower q) = true ->
    In q questions ->
    answer_questions df questions alpha r = (Ok answers, r') ->
    dict_get q answers
    = Some (String.append "Error answering question: " (py_repr c)).
Proof.
  intros df alpha q c questions r answers r' _ Hskip Hcols Habsent Hkey.
  apply frame_get_absent in Habsent.
  rewrite <- error_answer_text.
  refine (raised_always_answered df alpha q (py_repr c) _
            questions r answers r').
  intros r0. unfold answer_one. rewrite Hskip, Hcols.
  change (length [c] =? 2)%nat with false.
  change (length [c] =? 1)%nat with true.
  rewrite !andb_false_r, !andb_true_r.
  unfold bind, lift, first_of. rewrite Habsent.
  destruct (contains "skew" (lower q)); [reflexivity|].
  destruct (contains "kurtosis" (lower q)); [reflexivity|].
  destruct (contains "outlier" (lower q)); [reflexivity|].
  destruct (contains "missing" (lower q)); [reflexivity|discriminate].
Qed.

Lemma unknown_column_error_witness :
  dict_get "How much of 'no\such' is missing?"
           [("How much of 'no\such' is missing?",
             "Error answering question: 'no\\such'")]
  = Some "Error answering question: 'no\\such'".
Proof.
  eapply (unknown_column_error Lab.two_groups 0.05%float
            "How much of 'no\such' is missing?" "no\such"
            ["How much of 'no\such' is missing?"] Lab.start _ Lab.start).
  - reflexivity.
  - reflexivity.
  - reflexivity.
  - simpl. intuition discriminate.
  - reflexivity.
  - simpl. tauto.
  - reflexivity.
Defined.

(** X12.  A question that quotes one column of the frame which is not
    numeric, holds no simple-metric word and holds one of the keywords
    [skew], [kurtosis], [outlier], is given no entry: the branch of the
    first keyword found is taken and assigns nothing, and no later branch
    is tried, whatever other keywords the text holds. *)
Theorem non_numeric_column_unanswered `{L : Lib} :
  forall df alpha q c s questions r answers r',
    existsb (fun p => search_word p (lower q)) skip_patterns = false ->
    extract_columns_from_question q = [c] ->
    frame_get df c = Ok s ->
    is_numeric_dtype s = false ->
    contains "skew" (lower q) || contains "kurtosis" (lower q)
    || contains "outlier" (lower q) = true ->
    answer_questions df questions alpha r = (Ok answers, r') ->
    dict_get q answers = None.
Proof.
  intros df alpha q c s questions r answers r' Hskip Hcols Hget Hdtype Hkey.
  refine (silent_never_answered df alpha q _ questions r answers r').
  intros r0.
  unfold answer_one. rewrite Hskip, Hcols.
  change (length [c] =? 2)%nat with false.
  change (length [c] =? 1)%nat with true.
  rewrite !andb_false_r, !andb_true_r.
  unfold bind, lift, ret, first_of. rewrite Hget, Hdtype.
  destruct (contains "skew" (lower q)); [reflexivity|].
  destruct (contains "kurtosis" (lower q)); [reflexivity|].
  destruct (contains "outlier" (lower q)); [reflexivity|discriminate].
Qed.

Lemma non_numeric_column_unanswered_witness :
  dict_get "Is 'g' skewed, or are duplicate or missing rows the trend?"
           (@nil (string * string))
  = None.
Proof.
  eapply (non_numeric_column_unanswered Lab.two_groups 0.05%float
           "Is 'g' skewed, or are duplicate or missing rows the trend?" "g"
           (Lab.strings Category ["a"; "b"; "a"; "b"; "a"; "b"])
           ["Is 'g' skewed, or are duplicate or missing rows the trend?"]
           Lab.start _ Lab.start).
  - reflexivity.
  - reflexivity.
  - reflexivity.
  - reflexivity.
  - reflexivity.
  - reflexivity.
Defined.

(** X13.  A question in ASCII that quotes no name and holds no
    simple-metric word ends with an entry exactly when its lower-cased
    text holds [duplicate], and the entry is then the count of duplicate
    rows: no other branch answers a question without a quoted name. *)
Theorem unquoted_question_answer `{L : Lib} :
  forall df alpha q questions r answers r',
    ascii_text q = true ->
    existsb (fun p => search_word p (lower q)) skip_patterns = false ->
    extract_columns_from_question q = [] ->
    In q questions ->
    answer_questions df questions alpha r = (Ok answers, r') ->
    dict_get q answers
    = if contains "duplicate" (lower q)
      then Some (fstr ["Dataset contains "; str_nat (duplicated_sum df);
                       " duplicate rows."])
      else None.
Proof.
  intros df alpha q questions r answers r' _ Hskip Hcols Hin Hans.
  assert (Hone : forall r0,
             answer_one df alpha q r0
             = (Ok (if contains "duplicate" (lower q)
                    then Some (fstr ["Dataset contains ";
                                     str_nat (duplicated_sum df);
                                     " duplicate rows."])
                    else None), r0)).
  { intros r0. unfold answer_one. rewrite Hskip, Hcols.
    change (length (@nil string) =? 2)%nat with false.
    change (length (@nil string) =? 1)%nat with false.
    rewrite !andb_false_r.
    now destruct (contains "duplicate" (lower q)). }
  destruct (contains "duplicate" (lower q)).
  - exact (fixed_always_answered df alpha q _ Hone questions r answers r'
             Hin Hans).
  - exact (silent_never_answered df alpha q Hone questions r answers r' Hans).
Qed.

Lemma unquoted_question_answer_witness :
  dict_get "Are there DUPLICATE rows?"
           [("Are there DUPLICATE rows?", "Dataset contains 0 duplicate rows.")]
  = (if contains "duplicate" (lower "Are there DUPLICATE rows?")
     then Some (fstr ["Dataset contains ";
                      str_nat (duplicated_sum Lab.two_groups);
                      " duplicate rows."])
     else None)
  /\ dict_get "Is the skew of the data a trend?"
              [("Are there DUPLICATE rows?",
                "Dataset contains 0 duplicate rows.")]
     = (if contains "duplicate" (lower "Is the skew of the data a trend?")
        then Some (fstr ["Dataset contains ";
                         str_nat (duplicated_sum Lab.two_groups);
                         " duplicate rows."])
        else None).
Proof.
  split;
    eapply (unquoted_question_answer Lab.two_groups 0.05%float _
              ["Is the skew of the data a trend?"; "Are there DUPLICATE rows?"]
              Lab.start _ Lab.start);
    try reflexivity; simpl; tauto.
Defined.

(** ** The answers the callers list as hypothesis results *)

Ltac search_text :=
  repeat (simpl;
          rewrite ?contains_split by (discriminate || reflexivity)).

Ltac listed_by_label :=
  unfold is_hypothesis_result, mentions_label, format_test_result, get_or;
  search_text;
  repeat match goal with
         | |- context [contains ?n ?c] =>
             is_var c; destruct (contains n c)
         end;
  reflexivity.

Lemma group_test_kinds `{L : Lib} df groups r stat p effect test_type r' :
  (if (length groups =? 2)%nat then
     normal <- all_of is_normal groups ;;
     if normal then
       '(stat, p) <- lift (ttest_ind (nth 0 groups []) (nth 1 groups [])) ;;
       effect <- lift (cohens_d (nth 0 groups []) (nth 1 groups [])) ;;
       ret (stat, p, VFloat effect, "t-test")
     else
       '(stat, p) <- lift (mannwhitneyu (nth 0 groups []) (nth 1 groups [])) ;;
       ret (stat, p, VNone, "mann-whitney")
   else
     normal <- all_of is_normal groups ;;
     if normal then
       '(stat, p) <- lift (f_oneway groups) ;;
       ret (stat, p,
            VFloat (eta_squared_anova stat
                      (Z.of_nat (length groups) - 1)
                      (Z.of_nat (n_rows df) - Z.of_nat (length groups))),
            "anova")
     else
       '(stat, p) <- lift (kruskal groups) ;;
       ret (stat, p, VNone, "kruskal"))%comp r
  = (Ok (stat, p, effect, test_type), r') ->
  In test_type ["t-test"; "mann-whitney"; "anova"; "kruskal"].
Proof.
  intros H. repeat step_comp H; inversion H; simpl; tauto.
Qed.

(** X14.  The two callers list an answer among the hypothesis results when
    it holds [Test:] and one of two labels, of which the rendering writes
    neither: the rendered result of any of the three tests is listed
    exactly when one of the two column names holds one of these labels,
    and the message a test returns in place of a result is never
    listed. *)
Theorem test_result_listed_by_label `{L : Lib} :
  forall df col1 col2 alpha r result r',
    test_numeric_categorical df col1 col2 alpha r = (Ok result, r')
    \/ test_categorical_categorical df col1 col2 alpha r = (Ok result, r')
    \/ test_numeric_numeric df col1 col2 alpha r = (Ok result, r') ->
    is_hypothesis_result (format_test_result result)
    = match result with
      | RDict _ => mentions_label col1 || mentions_label col2
      | RStr _ => false
      end.
Proof.
  intros df col1 col2 alpha r result r' [H|[H|H]].
  - unfold test_numeric_categorical in H.
    apply bind_ok in H as (groups & r0 & _ & H).
    destruct (length groups <? 2)%nat;
      [apply ret_ok in H as [<- _]; reflexivity|].
    apply bind_ok in H as ([[[stat p] effect] test_type] & r1 & Hkind & H).
    apply group_test_kinds in Hkind.
    destruct Hkind as [<-|[<-|[<-|[<-|[]]]]];
      apply ret_ok in H as [<- _]; listed_by_label.
  - unfold test_categorical_categorical in H.
    apply bind_ok in H as (a & r1 & _ & H).
    apply bind_ok in H as (b & r2 & _ & H).
    destruct (table_empty (crosstab (values a) (values b)));
      [apply ret_ok in H as [<- _]; reflexivity|].
    apply bind_ok in H as ([stat p] & r3 & _ & H).
    apply bind_ok in H as (effect & r4 & _ & H).
    apply ret_ok in H as [<- _].
    listed_by_label.
  - unfold test_numeric_numeric in H.
    apply bind_ok in H as (c1 & r1 & _ & H).
    apply bind_ok in H as (c2 & r2 & _ & H).
    apply bind_ok in H as (n1 & r3 & _ & H).
    apply bind_ok in H as (both & r4 & _ & H).
    apply bind_ok in H as ([[stat p] method] & r5 & _ & H).
    apply ret_ok in H as [<- _].
    destruct method; listed_by_label.
Qed.

Lemma test_result_listed_by_label_witness :
  is_hypothesis_result
    (@format_test_result Lab.lib (RDict Lab.two_groups_result))
  = mentions_label "g" || mentions_label "x".
Proof.
  eapply (test_result_listed_by_label Lab.two_groups "g" "x" 0.05%float
            Lab.start (RDict Lab.two_groups_result) _).
  left. vm_compute. reflexivity.
Defined.

(** ** Edge cases of the tests *)

Lemma insert_key_nonempty k ks : insert_key k ks <> [].
Proof.
  destruct ks as [|k' rest]; simpl; [discriminate|].
  destruct (cell_same k k'); [discriminate|].
  destruct (cell_leb k k'); discriminate.
Qed.

Lemma insert_keys_nonempty l acc :
  acc <> [] -> fold_left (fun acc k => insert_key k acc) l acc <> [].
Proof.
  revert acc. induction l as [|k l IH]; intros acc H; simpl; [exact H|].
  apply IH. apply insert_key_nonempty.
Qed.

Lemma group_keys_nonempty l : dropna l <> [] -> group_keys l <> [].
Proof.
  unfold group_keys. destruct (dropna l) as [|k rest]; [congruence|].
  intros _. simpl. apply insert_keys_nonempty. discriminate.
Qed.

Lemma complete_pairs_present a b p :
  In p (complete_pairs a b) ->
  isnull (fst p) = false /\ isnull (snd p) = false.
Proof.
  unfold complete_pairs. intros H. apply filter_In in H as [_ H].
  apply andb_prop in H as [H1 H2].
  now rewrite negb_true_iff in H1, H2.
Qed.

Lemma crosstab_not_empty a b :
  complete_pairs a b <> [] -> table_empty (crosstab a b) = false.
Proof.
  intros H. unfold crosstab.
  destruct (complete_pairs a b) as [|p ps] eqn:E; [congruence|].
  assert (Hp : isnull (fst p) = false /\ isnull (snd p) = false).
  { apply (complete_pairs_present a b). rewrite E. now left. }
  destruct Hp as [H1 H2].
  assert (Hrows : group_keys (map fst (p :: ps)) <> []).
  { apply group_keys_nonempty. simpl. unfold dropna. simpl.
    rewrite H1. simpl. discriminate. }
  assert (Hcols : group_keys (map snd (p :: ps)) <> []).
  { apply group_keys_nonempty. simpl. unfold dropna. simpl.
    rewrite H2. simpl. discriminate. }
  destruct (group_keys (map fst (p :: ps))) as [|rk rks]; [congruence|].
  destruct (group_keys (map snd (p :: ps))) as [|ck cks]; [congruence|].
  reflexivity.
Qed.

(** X15.  On two columns of the frame, [test_categorical_categorical]
    returns the message [Contingency table is empty or invalid.], without
    calling the chi-square test, exactly when no row holds a value in both
    columns. *)
Theorem table_test_message_iff_no_complete_pair `{L : Lib} :
  forall df cat1 cat2 alpha r a b,
    frame_get df cat1 = Ok a ->
    frame_get df cat2 = Ok b ->
    (test_categorical_categorical df cat1 cat2 alpha r
     = (Ok (RStr "Contingency table is empty or invalid."), r)
     <-> complete_pairs (values a) (values b) = []).
Proof.
  intros df cat1 cat2 alpha r a b Ha Hb.
  unfold test_categorical_categorical, bind, lift, ret. rewrite Ha, Hb.
  split.
  - intros H.
    destruct (complete_pairs (values a) (values b)) as [|p ps] eqn:E;
      [reflexivity|].
    rewrite crosstab_not_empty in H by (rewrite E; discriminate).
    destruct (chi2_contingency _) as [[stat p0]|e]; [|discriminate].
    destruct (cramers_v _) as [effect|e]; discriminate.
  - intros E. unfold crosstab. rewrite E. reflexivity.
Qed.

Lemma table_test_message_iff_no_complete_pair_witness :
  test_categorical_categorical Lab.disjoint_levels "u" "w" 0.05%float Lab.start
  = (Ok (RStr "Contingency table is empty or invalid."), Lab.start)
  <-> complete_pairs [Str "a"; NA; Str "b"] [NA; Str "s"; NA] = [].
Proof.
  apply (table_test_message_iff_no_complete_pair Lab.disjoint_levels "u" "w"
           0.05%float Lab.start
           (mkSeries Object [Str "a"; NA; Str "b"])
           (mkSeries Object [NA; Str "s"; NA])).
  - reflexivity.
  - reflexivity.
Defined.

(** X16.  When the first column has fewer than 3 values that are not
    missing, [test_numeric_numeric] runs the Spearman test and names it in
    the result, without drawing a sample and without testing the second
    column for normality. *)
Theorem short_column_tested_with_spearman `{L : Lib} :
  forall df col1 col2 alpha r c1 c2,
    frame_get df col1 = Ok c1 ->
    frame_get df col2 = Ok c2 ->
    length (dropna (values c1)) < 3 ->
    test_numeric_numeric df col1 col2 alpha r
    = (match spearmanr (dropna (values c1)) (dropna (values c2)) with
       | Ok (stat, p) =>
           Ok (RDict
                 [("test", VStr "Spearman Correlation");
                  ("columns", VPair col1 col2);
                  ("H0", VStr (fst (hypothesis_text "correlation" col1 col2)));
                  ("H1", VStr (snd (hypothesis_text "correlation" col1 col2)));
                  ("stat", VFloat stat);
                  ("p_value", VFloat p);
                  ("alpha", VFloat alpha);
                  ("significance", VStr (significance p alpha));
                  ("correlation_strength", VStr (correlation_strength stat))])
       | Raise e => Raise e
       end, r).
Proof.
  intros df col1 col2 alpha r c1 c2 H1 H2 Hshort.
  apply Nat.ltb_lt in Hshort.
  unfold test_numeric_numeric, is_normal, bind, lift, ret.
  rewrite H1, H2, Hshort.
  now destruct (spearmanr _ _) as [[stat p]|e].
Qed.

Lemma short_column_tested_with_spearman_witness :
  test_numeric_numeric Lab.two_columns "a" "b" 0.05%float Lab.start
  = (match @spearmanr Lab.lib [Num 1%float; Num 2%float]
                              [Num 2%float; Num 4%float] with
     | Ok (stat, p) =>
         Ok (RDict
               [("test", VStr "Spearman Correlation");
                ("columns", VPair "a" "b");
                ("H0", VStr (fst (hypothesis_text "correlation" "a" "b")));
                ("H1", VStr (snd (hypothesis_text "correlation" "a" "b")));
                ("stat", VFloat stat);
                ("p_value", VFloat p);
                ("alpha", VFloat 0.05%float);
                ("significance", VStr (significance p 0.05%float));
                ("correlation_strength", VStr (correlation_strength stat))])
     | Raise e => Raise e
     end, Lab.start).
Proof.
  apply (short_column_tested_with_spearman Lab.two_columns "a" "b" 0.05%float
           Lab.start (Lab.floats [1; 2]%float) (Lab.floats [2; 4]%float)).
  - reflexivity.
  - reflexivity.
  - simpl. lia.
Defined.

(** ** The figures of the report *)

Lemma range_by_two_past fuel start stop :
  stop <= start -> range_by_two fuel start stop = [].
Proof.
  intros H. destruct fuel; [reflexivity|]. simpl.
  now replace (start <? stop)%nat with false
    by (symmetry; apply Nat.ltb_ge; lia).
Qed.

Lemma skipn_index {A} (l : list A) i a :
  nth_error l i = Some a -> skipn i l = a :: skipn (S i) l.
Proof.
  revert i. induction l as [|x l IH]; intros [|i] H; try discriminate.
  - now inversion H.
  - simpl in *. now apply IH.
Qed.

Lemma list_index_below {A} (l : list A) i :
  i < length l -> exists a, nth_error l i = Some a /\ list_index l i = Ok a.
Proof.
  intros H. unfold list_index.
  destruct (nth_error l i) as [a|] eqn:E; [eauto|].
  apply nth_error_None in E. lia.
Qed.

Section Figures.
Variables (path_exists : string -> bool) (basename : string -> string).

Lemma rows_cover figure_paths fuel : forall start,
  start <= length figure_paths ->
  length figure_paths - start <= fuel ->
  exists rows,
    res_map (visualization_row path_exists basename figure_paths)
            (range_by_two fuel start (length figure_paths))
    = Ok rows
    /\ placed (concat rows)
       = map (minipage_content path_exists basename)
             (skipn start figure_paths).
Proof.
  induction fuel as [|fuel IH]; intros start Hstart Hfuel.
  - exists []. split; [reflexivity|].
    now rewrite skipn_all2 by lia.
  - cbn [range_by_two].
    destruct (Nat.ltb_spec start (length figure_paths)) as [Hlt|Hge].
    + destruct (list_index_below figure_paths start Hlt) as (a & Ea & Ia).
      cbn [res_map]. unfold visualization_row at 1. rewrite Ia.
      rewrite (skipn_index _ _ _ Ea).
      destruct (Nat.ltb_spec (start + 1) (length figure_paths)) as [Hlt'|Hge'].
      * destruct (list_index_below figure_paths (start + 1) Hlt')
          as (b & Eb & Ib).
        rewrite Ib. cbn [res_bind app].
        replace (S start) with (start + 1) by lia.
        rewrite (skipn_index _ _ _ Eb).
        destruct (IH (start + 2)) as (rows & -> & Hplaced); [lia|lia|].
        eexists. split; [reflexivity|].
        replace (S (start + 1)) with (start + 2) by lia.
        simpl. now rewrite Hplaced.
      * cbn [res_bind app].
        rewrite range_by_two_past by lia.
        eexists. split; [reflexivity|].
        now rewrite skipn_all2 by lia.
    + exists []. split; [reflexivity|].
      now rewrite skipn_all2 by lia.
Qed.

End Figures.

(** X17.  The loop of [create_latex_report] that lays the figures out two
    to a row never indexes past the end of the list, and the minipages it
    appends hold every figure path once, in the order of the list, each as
    its figure or, when the file does not exist, as the line
    [Figure not found: <path>]. *)
Theorem visualization_rows_cover_figures :
  forall path_exists basename figure_paths,
    exists items,
      visualization_section path_exists basename figure_paths = Ok items
      /\ placed items
         = map (minipage_content path_exists basename) figure_paths.
Proof.
  intros path_exists basename figure_paths. unfold visualization_section.
  destruct (rows_cover path_exists basename figure_paths
                       (length figure_paths) 0)
    as (rows & -> & Hplaced); [lia|lia|].
  exists (concat rows). split; [reflexivity|exact Hplaced].
Qed.

(** ** The two remaining kinds of generated questions *)

(** X18.  The question on seasonal or trend components of a datetime
    column with a benign name (in ASCII, not empty, without quote, keyword
    or simple-metric word) always ends with the placeholder of the
    trend branch, naming that column: no decomposition is run, whatever
    the frame holds. *)
Theorem seasonal_question_gets_placeholder `{L : Lib} :
  forall df alpha col questions r answers r',
    benign_name col ->
    In (q_text (seasonal_question col)) questions ->
    answer_questions df questions alpha r = (Ok answers, r') ->
    dict_get (q_text (seasonal_question col)) answers
    = Some (fstr ["Trend analysis for '"; col;
                  "' requires time-series decomposition — not automated here."]).
Proof.
  intros df alpha col questions r answers r' Hcol.
  refine (fixed_always_answered df alpha _ _ _ questions r answers r').
  intros r0. now apply seasonal_dispatch.
Qed.

Lemma seasonal_question_gets_placeholder_witness :
  dict_get (q_text (seasonal_question "d")) Lab.survey_answers
  = Some (fstr ["Trend analysis for '"; "d";
                "' requires time-series decomposition — not automated here."]).
Proof.
  apply (seasonal_question_gets_placeholder Lab.survey 0.05%float "d"
           Lab.survey_questions Lab.survey_asked Lab.survey_answers
           Lab.survey_answered).
  - benign.
  - simpl. tauto.
  - vm_compute. reflexivity.
Defined.

Lemma occurs_append c a b :
  occurs c (String.append a b) = occurs c a || occurs c b.
Proof.
  induction a as [|x a IH]; simpl; [reflexivity|].
  now rewrite IH, orb_assoc.
Qed.

Ltac quoted_questions :=
  repeat (apply Forall_app; split); auto;
  repeat first [apply Forall_cons | apply Forall_nil];
  try reflexivity.

Section Quoted.
Context `{L : Lib}.
Variable df : DataFrame.

Lemma distribution_quoted cols qs r r' :
  distribution_questions df cols r = (Ok qs, r') -> Forall quoted qs.
Proof.
  unfold distribution_questions.
  apply (for_each_invariant (Forall quoted) (fun _ => True));
    [|now apply Forall_forall|constructor].
  intros s a r0 s' r0' _ Hs H. comp_inv. split_ifs; quoted_questions.
Qed.

Lemma difference_quoted cats cols qs r r' :
  difference_questions df cats cols r = (Ok qs, r') -> Forall quoted qs.
Proof.
  unfold difference_questions.
  apply (for_each_invariant (Forall quoted) (fun _ => True));
    [|now apply Forall_forall|constructor].
  intros s a r0 s' r0' _ Hs H. comp_inv. split_ifs; quoted_questions.
  apply Forall_forall. intros q Hq.
  apply in_map_iff in Hq as (num & <- & _). reflexivity.
Qed.

Lemma association_quoted cats qs r r' :
  association_questions df cats r = (Ok qs, r') -> Forall quoted qs.
Proof.
  unfold association_questions.
  apply (for_each_invariant (Forall quoted) (fun _ => True));
    [|now apply Forall_forall|constructor].
  intros s a r0 s' r0' _ Hs H. comp_inv. split_ifs; quoted_questions.
Qed.

Lemma time_quoted dates cols : Forall quoted (time_questions dates cols).
Proof.
  unfold time_questions. apply Forall_forall. intros q Hq.
  apply in_flat_map in Hq as (col & _ & [<-|Hq]); [reflexivity|].
  apply in_map_iff in Hq as (num & <- & _). reflexivity.
Qed.

Lemma outlier_quoted cols qs r r' :
  outlier_questions df cols r = (Ok qs, r') -> Forall quoted qs.
Proof.
  unfold outlier_questions.
  apply (for_each_invariant (Forall quoted) (fun _ => True));
    [|now apply Forall_forall|constructor].
  intros s a r0 s' r0' _ Hs H. comp_inv. split_ifs; quoted_questions.
  unfold quoted. cbn [q_text outlier_question fstr].
  rewrite !occurs_append. cbn. now rewrite !orb_true_r.
Qed.

Lemma missing_quoted qs r r' :
  missing_questions df r = (Ok qs, r') -> Forall quoted qs.
Proof.
  unfold missing_questions.
  apply (for_each_invariant (Forall quoted) (fun _ => True));
    [|now apply Forall_forall|constructor].
  intros s a r0 s' r0' _ Hs H. comp_inv. split_ifs; quoted_questions.
  unfold quoted. cbn [q_text missing_question fstr].
  rewrite !occurs_append. cbn. now rewrite !orb_true_r.
Qed.

Lemma correlation_quoted cols max qs r r' :
  correlation_questions df cols max r = (Ok qs, r') -> Forall quoted qs.
Proof.
  unfold correlation_questions. intros H.
  apply bind_ok in H as ([questions added] & r0 & Hloop & Hret).
  apply ret_ok in Hret as [<- _].
  apply correlation_loop_shape in Hloop as (picks & -> & _).
  apply Forall_forall. intros q Hq. simpl in Hq.
  apply in_map_iff in Hq as (p & <- & _).
  unfold quoted, pick_question, correlation_question. cbn [q_text fstr].
  rewrite !occurs_append. cbn. now rewrite !orb_true_r.
Qed.

(** The questions of the generator: those of the rules that quote a
    column, then the one on duplicate rows if there is such a row. *)
Lemma generate_quoted max qs r r' :
  generate df max r = (Ok qs, r') ->
  exists others,
    qs = (others ++ duplicate_questions df)%list /\ Forall quoted others.
Proof.
  unfold generate. intros H.
  apply bind_ok in H as (correlation & r1 & Hcorr & H).
  apply bind_ok in H as (distribution & r2 & Hdist & H).
  apply bind_ok in H as (difference & r3 & Hdiff & H).
  apply bind_ok in H as (association & r4 & Hassoc & H).
  apply bind_ok in H as (outlier & r5 & Hout & H).
  apply bind_ok in H as (missing & r6 & Hmiss & H).
  apply ret_ok in H as [<- _].
  exists (correlation ++ distribution ++ difference ++ association
          ++ time_questions (select_dtypes sel_datetime df)
                            (select_dtypes sel_number df)
          ++ outlier ++ missing)%list.
  split; [now rewrite <- !app_assoc|].
  repeat (apply Forall_app; split);
    eauto using correlation_quoted, distribution_quoted, difference_quoted,
      association_quoted, time_quoted, outlier_quoted, missing_quoted.
Qed.

End Quoted.

(** X19.  When [generate_questions] returns, the question on duplicate
    rows is among its questions exactly when the frame has a row equal to
    an earlier one, and it then comes last; asked, it always ends with
    the count of such rows. *)
Theorem duplicate_question_iff_duplicates `{L : Lib} :
  forall df max alpha r texts r',
    generate_questions df max r = (Ok texts, r') ->
    (In (q_text duplicate_question) texts <-> 0 < duplicated_sum df)
    /\ (0 < duplicated_sum df ->
        last texts "" = q_text duplicate_question)
    /\ always_answered df alpha (q_text duplicate_question)
         (fstr ["Dataset contains "; str_nat (duplicated_sum df);
                " duplicate rows."]).
Proof.
  intros df max alpha r texts r' H. unfold generate_questions in H.
  apply bind_ok in H as (qs & r1 & Hgen & H).
  apply ret_ok in H as [<- _].
  apply generate_quoted in Hgen as (others & -> & Hothers).
  unfold duplicate_questions.
  destruct (Nat.ltb_spec 0 (duplicated_sum df)) as [Hpos|Hnone].
  - split; [|split].
    + split; [intros _; exact Hpos|]. intros _.
      apply in_map. apply in_or_app. right. now left.
    + intros _. rewrite map_app. simpl. apply last_last.
    + apply fixed_always_answered. intros r0. apply duplicate_dispatch.
  - split; [|split].
    + split; [|lia]. rewrite app_nil_r. intros Hin.
      apply in_map_iff in Hin as (q & Htext & Hq).
      rewrite Forall_forall in Hothers. specialize (Hothers q Hq).
      unfold quoted in Hothers. rewrite Htext in Hothers. discriminate.
    + lia.
    + apply fixed_always_answered. intros r0. apply duplicate_dispatch.
Qed.

Lemma duplicate_question_iff_duplicates_witness :
  (In (q_text duplicate_question) [q_text duplicate_question]
   <-> 0 < duplicated_sum Lab.repeated_rows)
  /\ (0 < duplicated_sum Lab.repeated_rows ->
      last [q_text duplicate_question] "" = q_text duplicate_question)
  /\ @always_answered Lab.lib Lab.repeated_rows 0.05%float
       (q_text duplicate_question)
       (fstr ["Dataset contains "; str_nat (duplicated_sum Lab.repeated_rows);
              " duplicate rows."]).
Proof.
  apply (duplicate_question_iff_duplicates Lab.repeated_rows 5 0.05%float
           Lab.start [q_text duplicate_question] Lab.start).
  vm_compute. reflexivity.
Defined.
